(** * 2DWorld geodesic game: the physics engine, embedded and verified

    The development follows [physics.js] (the revision with the effective
    gravity term and the complete Christoffel contraction,
    [src/unnamed/part_002]) and the vector helpers of [math.js]
    ([src/unnamed/part_000]).  The earlier revision of [physics.js] kept in
    the repository ([src/unnamed/part_001]) is embedded in [Module Rev1]
    where it differs.

    JavaScript numbers are IEEE-754 binary64 values.  The program is
    written once over an interface [JSNumber] of the arithmetic it uses and
    then read at two instances: Rocq's primitive binary64 floats (the
    program as it runs) and the real numbers (the program as mathematics). *)

From Stdlib Require Import ZArith QArith Floats Reals Lra List Bool Lia.
From Stdlib Require Import Permutation Rgeom RNsatz.
From Stdlib Require String.
Import ListNotations.

Set Implicit Arguments.
Set Warnings "-inexact-float,-abstract-large-number".

(** ** The arithmetic of JavaScript numbers *)

Declare Scope num_scope.
Delimit Scope num_scope with num.

Class JSNumber (num : Type) : Type := {
  lit  : Q -> num;              (* a decimal literal of the source text *)
  add  : num -> num -> num;     (* a + b *)
  sub  : num -> num -> num;     (* a - b *)
  mul  : num -> num -> num;     (* a * b *)
  div  : num -> num -> num;     (* a / b *)
  neg  : num -> num;            (* -a *)
  Math_sqrt : num -> num;       (* Math.sqrt(a) *)
  ltb  : num -> num -> bool     (* a < b *)
}.

Arguments lit {num _} q%_Q.

Infix "+" := add : num_scope.
Infix "-" := sub : num_scope.
Infix "*" := mul : num_scope.
Infix "/" := div : num_scope.
Notation "- a" := (neg a) : num_scope.
Infix "<?" := ltb : num_scope.
(* [a > b] of the source is [b < a]: both are false on a NaN operand. *)
Notation "a >? b" := (ltb b a) (at level 70) : num_scope.

(** [a < b] as a proposition. *)
Definition lessThan {num} `{JSNumber num} (a b : num) : Prop := ltb a b = true.

(** Why a run of [computeTrajectory] stopped: which [break] was taken, or
    none ([Exhausted]: the [for] loop ran to [maxSteps]).  The returned
    object carries no such field; the loop below reports it beside the
    result so that statements can speak about it. *)
Inductive Outcome : Type := Success | OutOfBounds | Captured | Exhausted.

(** ** Data *)

Section Model.

Context {num : Type} `{JSNumber num}.
Local Open Scope num_scope.

(** [{x, y}] *)
Record Vec2 : Type := vec2 { vec_x : num; vec_y : num }.

(** [{x, y, z}], a sample of the trajectory *)
Record Point3 : Type := point3 { pt_x : num; pt_y : num; pt_z : num }.

(** [{x, y, strength}] *)
Record Mass : Type := mkMass { mass_x : num; mass_y : num; strength : num }.

(** [{dzdx, dzdy}] *)
Record Gradient : Type := mkGradient { dzdx : num; dzdy : num }.

(** [{g11, g12, g21, g22}] *)
Record Metric : Type := mkMetric { g11 : num; g12 : num; g21 : num; g22 : num }.

(** [{G111, G112, G122, G211, G212, G222}] *)
Record Christoffel : Type := mkChristoffel {
  G111 : num; G112 : num; G122 : num;
  G211 : num; G212 : num; G222 : num
}.

(** [{minX, maxX, minY, maxY}] *)
Record Bounds : Type := mkBounds { minX : num; maxX : num; minY : num; maxY : num }.

(** The [options] argument of [computeTrajectory]; [goalPos = null] is [None]. *)
Record Options : Type := mkOptions {
  maxSteps   : nat;
  dt         : num;
  bounds     : Bounds;
  goalPos    : option Vec2;
  goalRadius : num
}.

(** The destructuring defaults of [computeTrajectory]. *)
Definition defaultOptions : Options :=
  {| maxSteps := 15000;
     dt := lit 0.01;
     bounds := {| minX := lit (-5); maxX := lit 5; minY := lit (-5); maxY := lit 5 |};
     goalPos := None;
     goalRadius := lit 0.3 |}.

(** [{pos, vel}], the value of [integrateRK4] *)
Record State : Type := mkState { st_pos : Vec2; st_vel : Vec2 }.

(** [{points, reachedGoal, outOfBounds, finalPos}] *)
Record TrajectoryResult : Type := mkResult {
  points      : list Point3;
  reachedGoal : bool;
  outOfBounds : bool;
  finalPos    : Vec2
}.

(** ** math.js *)

Definition length2D (v : Vec2) : num :=
  Math_sqrt (vec_x v * vec_x v + vec_y v * vec_y v).

Definition add2D (a b : Vec2) : Vec2 :=
  vec2 (vec_x a + vec_x b) (vec_y a + vec_y b).

Definition scale2D (v : Vec2) (s : num) : Vec2 :=
  vec2 (vec_x v * s) (vec_y v * s).

(** ** physics.js *)

Section Physics.

(** The module variable [masses]; every function below only reads it. *)
Variable masses : list Mass.

(** The body of the [for (const mass of masses)] loop of
    [gravitationalHeight]. *)
Definition heightStep (x y : num) (height : num) (mass : Mass) : num :=
  let dx := x - mass_x mass in
  let dy := y - mass_y mass in
  let dist := Math_sqrt (dx * dx + dy * dy) in
  height - strength mass / (dist + lit 0.5).

Definition gravitationalHeight (x y : num) : num :=
  fold_left (heightStep x y) masses (lit 0).

Definition computeGradient (x y eps : num) : Gradient :=
  let z0 := gravitationalHeight x y in
  let zx := gravitationalHeight (x + eps) y in
  let zy := gravitationalHeight x (y + eps) in
  {| dzdx := (zx - z0) / eps;
     dzdy := (zy - z0) / eps |}.

(** [computeGradient(x, y)] with its default [eps = 0.01]. *)
Definition computeMetric (x y : num) : Metric :=
  let gr := computeGradient x y (lit 0.01) in
  {| g11 := lit 1 + dzdx gr * dzdx gr;
     g12 := dzdx gr * dzdy gr;
     g21 := dzdx gr * dzdy gr;
     g22 := lit 1 + dzdy gr * dzdy gr |}.

Definition computeChristoffel (x y eps : num) : Christoffel :=
  let g := computeMetric x y in
  let gxp := computeMetric (x + eps) y in
  let gxm := computeMetric (x - eps) y in
  let gyp := computeMetric x (y + eps) in
  let gym := computeMetric x (y - eps) in
  let dg11dx := (g11 gxp - g11 gxm) / (lit 2 * eps) in
  let dg11dy := (g11 gyp - g11 gym) / (lit 2 * eps) in
  let dg12dx := (g12 gxp - g12 gxm) / (lit 2 * eps) in
  let dg12dy := (g12 gyp - g12 gym) / (lit 2 * eps) in
  let dg22dx := (g22 gxp - g22 gxm) / (lit 2 * eps) in
  let dg22dy := (g22 gyp - g22 gym) / (lit 2 * eps) in
  let det := g11 g * g22 g - g12 g * g21 g in
  let gi11 := g22 g / det in
  let gi12 := - g12 g / det in
  let gi21 := - g21 g / det in
  let gi22 := g11 g / det in
  {| G111 := lit 0.5 * (gi11 * dg11dx + gi12 * (lit 2 * dg12dx - dg11dy));
     G112 := lit 0.5 * (gi11 * dg11dy + gi12 * dg22dx);
     G122 := lit 0.5 * (gi11 * (lit 2 * dg12dy - dg22dx) + gi12 * dg22dy);
     G211 := lit 0.5 * (gi21 * dg11dx + gi22 * (lit 2 * dg12dx - dg11dy));
     G212 := lit 0.5 * (gi21 * dg11dy + gi22 * dg22dx);
     G222 := lit 0.5 * (gi21 * (lit 2 * dg12dy - dg22dx) + gi22 * dg22dy) |}.

Definition computeGaussianCurvature (x y eps : num) : num :=
  let z0 := gravitationalHeight x y in
  let zxx := gravitationalHeight (x + eps) y - lit 2 * z0
             + gravitationalHeight (x - eps) y in
  let zyy := gravitationalHeight x (y + eps) - lit 2 * z0
             + gravitationalHeight x (y - eps) in
  let zxy := (gravitationalHeight (x + eps) (y + eps)
              - gravitationalHeight (x + eps) (y - eps)
              - gravitationalHeight (x - eps) (y + eps)
              + gravitationalHeight (x - eps) (y - eps)) / lit 4 in
  let gr := computeGradient x y eps in
  let eps2 := eps * eps in
  let fxx := zxx / eps2 in
  let fyy := zyy / eps2 in
  let fxy := zxy / eps2 in
  let denom := lit 1 + dzdx gr * dzdx gr + dzdy gr * dzdy gr in
  (fxx * fyy - fxy * fxy) / (denom * denom).

(** [computeChristoffel(pos.x, pos.y)] with its default [eps = 0.02]. *)
Definition geodesicAcceleration (pos vel : Vec2) : Vec2 :=
  let G := computeChristoffel (vec_x pos) (vec_y pos) (lit 0.02) in
  let vx := vec_x vel in
  let vy := vec_y vel in
  let speed := Math_sqrt (vx * vx + vy * vy) in
  if speed <? lit 0.001 then vec2 (lit 0) (lit 0)
  else
    let ax := - (G111 G * vx * vx + lit 2 * G112 G * vx * vy + G122 G * vy * vy) in
    let ay := - (G211 G * vx * vx + lit 2 * G212 G * vx * vy + G222 G * vy * vy) in
    vec2 ax ay.

Definition computeEffectiveGravity (pos : Vec2) : Vec2 :=
  let gr := computeGradient (vec_x pos) (vec_y pos) (lit 0.01) in
  let gravityStrength := lit 2.0 in
  vec2 (- dzdx gr * gravityStrength) (- dzdy gr * gravityStrength).

Definition totalAcceleration (pos vel : Vec2) : Vec2 :=
  let geodesic := geodesicAcceleration pos vel in
  let gravity := computeEffectiveGravity pos in
  vec2 (vec_x geodesic + vec_x gravity) (vec_y geodesic + vec_y gravity).

(** One classical Runge-Kutta step of [dpos/dt = vel], [dvel/dt = acc pos vel].
    [integrateRK4] is this step at [totalAcceleration]; [Rev1] takes it at
    the bare geodesic acceleration. *)
Definition rk4Step (acc : Vec2 -> Vec2 -> Vec2) (pos vel : Vec2) (dt : num) : State :=
  let a1 := acc pos vel in
  let k1v := scale2D a1 dt in
  let k1p := scale2D vel dt in
  let pos2 := add2D pos (scale2D k1p (lit 0.5)) in
  let vel2 := add2D vel (scale2D k1v (lit 0.5)) in
  let a2 := acc pos2 vel2 in
  let k2v := scale2D a2 dt in
  let k2p := scale2D vel2 dt in
  let pos3 := add2D pos (scale2D k2p (lit 0.5)) in
  let vel3 := add2D vel (scale2D k2v (lit 0.5)) in
  let a3 := acc pos3 vel3 in
  let k3v := scale2D a3 dt in
  let k3p := scale2D vel3 dt in
  let pos4 := add2D pos k3p in
  let vel4 := add2D vel k3v in
  let a4 := acc pos4 vel4 in
  let k4v := scale2D a4 dt in
  let k4p := scale2D vel4 dt in
  let newPos :=
    vec2 (vec_x pos + (vec_x k1p + lit 2 * vec_x k2p + lit 2 * vec_x k3p + vec_x k4p) / lit 6)
         (vec_y pos + (vec_y k1p + lit 2 * vec_y k2p + lit 2 * vec_y k3p + vec_y k4p) / lit 6) in
  let newVel :=
    vec2 (vec_x vel + (vec_x k1v + lit 2 * vec_x k2v + lit 2 * vec_x k3v + vec_x k4v) / lit 6)
         (vec_y vel + (vec_y k1v + lit 2 * vec_y k2v + lit 2 * vec_y k3v + vec_y k4v) / lit 6) in
  {| st_pos := newPos; st_vel := newVel |}.

Definition integrateRK4 (pos vel : Vec2) (dt : num) : State :=
  rk4Step totalAcceleration pos vel dt.

(** *** computeTrajectory *)

(** [trajectory.push({ x: pos.x, y: pos.y, z: gravitationalHeight(pos.x, pos.y) })] *)
Definition recordPoint (pos : Vec2) : Point3 :=
  point3 (vec_x pos) (vec_y pos) (gravitationalHeight (vec_x pos) (vec_y pos)).

(** [goalPos && length2D(pos - goalPos) < goalRadius] *)
Definition goalReached (options : Options) (pos : Vec2) : bool :=
  match goalPos options with
  | Some goal =>
      length2D (vec2 (vec_x pos - vec_x goal) (vec_y pos - vec_y goal))
      <? goalRadius options
  | None => false
  end.

(** [pos.x < minX || pos.x > maxX || pos.y < minY || pos.y > maxY] *)
Definition outsideBounds (b : Bounds) (pos : Vec2) : bool :=
  (vec_x pos <? minX b) || (vec_x pos >? maxX b) ||
  (vec_y pos <? minY b) || (vec_y pos >? maxY b).

(** The inner [for (const mass of masses)] loop that sets [tooClose]. *)
Definition tooClose (pos : Vec2) : bool :=
  existsb
    (fun mass =>
       length2D (vec2 (vec_x pos - mass_x mass) (vec_y pos - mass_y mass))
       <? lit 0.3)
    masses.

(** The main loop with [n = maxSteps - i] iterations left.  [reachedGoal]
    and [outOfBounds] start [false] and are set only on the way out. *)
Fixpoint trajectoryLoop (options : Options) (n : nat)
    (trajectory : list Point3) (pos vel : Vec2) : Outcome * TrajectoryResult :=
  match n with
  | O => (Exhausted, mkResult trajectory false false pos)
  | S n' =>
      let trajectory := trajectory ++ [recordPoint pos] in
      if goalReached options pos then
        (Success, mkResult trajectory true false pos)
      else if outsideBounds (bounds options) pos then
        (OutOfBounds, mkResult trajectory false true pos)
      else
        let result := integrateRK4 pos vel (dt options) in
        let pos := st_pos result in
        let vel := st_vel result in
        if tooClose pos then
          (Captured, mkResult trajectory false false pos)
        else trajectoryLoop options n' trajectory pos vel
  end.

Definition runTrajectory (startPos startVel : Vec2) (options : Options)
    : Outcome * TrajectoryResult :=
  trajectoryLoop options (maxSteps options) [] startPos startVel.

Definition computeTrajectory (startPos startVel : Vec2) (options : Options)
    : TrajectoryResult :=
  snd (runTrajectory startPos startVel options).

Definition trajectoryOutcome (startPos startVel : Vec2) (options : Options)
    : Outcome :=
  fst (runTrajectory startPos startVel options).

(** The phase-space point after [k] Runge-Kutta steps from the start. *)
Fixpoint orbit (options : Options) (k : nat) (start : State) : State :=
  match k with
  | O => start
  | S k' =>
      let s := orbit options k' start in
      integrateRK4 (st_pos s) (st_vel s) (dt options)
  end.

End Physics.

(** *** The module as a state machine

    The module owns one variable, [masses], assigned by [setMasses] alone.
    A client drives the module through its exports; [exec] gives the new
    value of [masses] and the value returned.  [setMasses] stores the
    caller's array and [getMasses] hands it back, so a client could also
    change the configuration by mutating that array; a session here is one
    in which the configuration changes through [setMasses] only. *)

Inductive Call : Type :=
| CallSetMasses (newMasses : list Mass)
| CallGetMasses
| CallGravitationalHeight (x y : num)
| CallIntegrateRK4 (pos vel : Vec2) (dt : num)
| CallComputeTrajectory (startPos startVel : Vec2) (options : Options).

Inductive Reply : Type :=
| ReplyUndefined
| ReplyMasses (ms : list Mass)
| ReplyNumber (z : num)
| ReplyState (s : State)
| ReplyTrajectory (r : TrajectoryResult).

Definition exec (masses : list Mass) (c : Call) : list Mass * Reply :=
  match c with
  | CallSetMasses newMasses => (newMasses, ReplyUndefined)
  | CallGetMasses => (masses, ReplyMasses masses)
  | CallGravitationalHeight x y =>
      (masses, ReplyNumber (gravitationalHeight masses x y))
  | CallIntegrateRK4 pos vel dt =>
      (masses, ReplyState (integrateRK4 masses pos vel dt))
  | CallComputeTrajectory startPos startVel options =>
      (masses, ReplyTrajectory (computeTrajectory masses startPos startVel options))
  end.

(** A session: the calls in order, the replies collected. *)
Fixpoint session (masses : list Mass) (calls : list Call) : list Mass * list Reply :=
  match calls with
  | [] => (masses, [])
  | c :: rest =>
      let '(masses1, r) := exec masses c in
      let '(masses2, rs) := session masses1 rest in
      (masses2, r :: rs)
  end.

Definition isSetMasses (c : Call) : bool :=
  match c with CallSetMasses _ => true | _ => false end.

End Model.

Arguments Vec2 : clear implicits.
Arguments Point3 : clear implicits.
Arguments Mass : clear implicits.
Arguments Gradient : clear implicits.
Arguments Metric : clear implicits.
Arguments Christoffel : clear implicits.
Arguments Bounds : clear implicits.
Arguments Options : clear implicits.
Arguments State : clear implicits.
Arguments TrajectoryResult : clear implicits.
Arguments Call : clear implicits.
Arguments Reply : clear implicits.

(** ** The two readings of the arithmetic *)

(** *** Binary64: the program as it runs *)

Definition float_of_Z (z : Z) : float :=
  match z with
  | Z0 => 0%float
  | Zpos _ => PrimFloat.of_uint63 (Uint63.of_Z z)
  | Zneg p => PrimFloat.opp (PrimFloat.of_uint63 (Uint63.of_Z (Zpos p)))
  end.

(** A decimal literal [n/d] of the source denotes the binary64 value nearest
    to it; for the literals of this program that is the correctly rounded
    quotient of the two integers (checked in [float_literals]). *)
Definition float_lit (q : Q) : float :=
  PrimFloat.div (float_of_Z (Qnum q)) (float_of_Z (Zpos (Qden q))).

#[export] Instance Binary64 : JSNumber float := {|
  lit := float_lit;
  add := PrimFloat.add;
  sub := PrimFloat.sub;
  mul := PrimFloat.mul;
  div := PrimFloat.div;
  neg := PrimFloat.opp;
  Math_sqrt := PrimFloat.sqrt;
  ltb := PrimFloat.ltb
|}.

(** *** Real numbers: the program as mathematics *)

Definition Rltb (a b : R) : bool := if Rlt_dec a b then true else false.

#[export] Instance Exact : JSNumber R := {|
  lit := Q2R;
  add := Rplus;
  sub := Rminus;
  mul := Rmult;
  div := Rdiv;
  neg := Ropp;
  Math_sqrt := R_sqrt.sqrt;
  ltb := Rltb
|}.

(** ** The earlier revision of physics.js

    [src/unnamed/part_001] has the same height, gradient, metric, curvature
    and trajectory loop.  It differs in three places: the Christoffel
    symbols keep the diagonal inverse-metric terms only, the geodesic
    acceleration has no low-speed test, and the integrator takes the bare
    geodesic acceleration, there being no effective gravity. *)

Module Rev1.
Section Definitions.

Context {num : Type} `{JSNumber num}.
Local Open Scope num_scope.
Variable masses : list (Mass num).

Definition computeChristoffel (x y eps : num) : Christoffel num :=
  let g := computeMetric masses x y in
  let gxp := computeMetric masses (x + eps) y in
  let gxm := computeMetric masses (x - eps) y in
  let gyp := computeMetric masses x (y + eps) in
  let gym := computeMetric masses x (y - eps) in
  let dg11dx := (g11 gxp - g11 gxm) / (lit 2 * eps) in
  let dg11dy := (g11 gyp - g11 gym) / (lit 2 * eps) in
  let dg12dx := (g12 gxp - g12 gxm) / (lit 2 * eps) in
  let dg12dy := (g12 gyp - g12 gym) / (lit 2 * eps) in
  let dg22dx := (g22 gxp - g22 gxm) / (lit 2 * eps) in
  let dg22dy := (g22 gyp - g22 gym) / (lit 2 * eps) in
  let det := g11 g * g22 g - g12 g * g21 g in
  let gi11 := g22 g / det in
  let gi22 := g11 g / det in
  {| G111 := lit 0.5 * gi11 * dg11dx;
     G112 := lit 0.5 * gi11 * dg11dy;
     G122 := lit 0.5 * gi11 * (lit 2 * dg12dy - dg22dx);
     G211 := lit 0.5 * gi22 * (lit 2 * dg12dx - dg11dy);
     G212 := lit 0.5 * gi22 * dg22dx;
     G222 := lit 0.5 * gi22 * dg22dy |}.

Definition geodesicAcceleration (pos vel : Vec2 num) : Vec2 num :=
  let G := computeChristoffel (vec_x pos) (vec_y pos) (lit 0.02) in
  let vx := vec_x vel in
  let vy := vec_y vel in
  let ax := - (G111 G * vx * vx + lit 2 * G112 G * vx * vy + G122 G * vy * vy) in
  let ay := - (G211 G * vx * vx + lit 2 * G212 G * vx * vy + G222 G * vy * vy) in
  vec2 ax ay.

Definition integrateRK4 (pos vel : Vec2 num) (dt : num) : State num :=
  rk4Step geodesicAcceleration pos vel dt.

End Definitions.
End Rev1.

(** ** The specification's words, as definitions

    These follow the text of the specification, not the source; the
    theorems below compare them with the functions of the source. *)

(** A coordinate index, 1 or 2. *)
Inductive Index : Type := X1 | X2.

Section SpecWords.

Context {num : Type} `{JSNumber num}.
Local Open Scope num_scope.
Variable masses : list (Mass num).

(** [g_ij]: a component of a metric record. *)
Definition component (g : Metric num) (i j : Index) : num :=
  match i, j with
  | X1, X1 => g11 g
  | X1, X2 => g12 g
  | X2, X1 => g21 g
  | X2, X2 => g22 g
  end.

(** "Centered finite differences of the metric components (step 2 eps)" on
    the stencil (x +- eps, y) and (x, y +- eps): [d_k g_ij]. *)
Definition spec_dMetric (x y eps : num) (k i j : Index) : num :=
  match k with
  | X1 => (component (computeMetric masses (x + eps) y) i j
           - component (computeMetric masses (x - eps) y) i j) / (lit 2 * eps)
  | X2 => (component (computeMetric masses x (y + eps)) i j
           - component (computeMetric masses x (y - eps)) i j) / (lit 2 * eps)
  end.

(** "det = g11 g22 - g12 g21". *)
Definition spec_det (x y : num) : num :=
  let g := computeMetric masses x y in
  g11 g * g22 g - g12 g * g21 g.

(** "gi11 = g22/det; gi12 = gi21 = -g12/det; gi22 = g11/det": [g^ij] at the
    centre of the stencil. *)
Definition spec_inverseMetric (x y : num) (i j : Index) : num :=
  let g := computeMetric masses x y in
  match i, j with
  | X1, X1 => g22 g / spec_det x y
  | X1, X2 => - g12 g / spec_det x y
  | X2, X1 => - g12 g / spec_det x y
  | X2, X2 => g11 g / spec_det x y
  end.

(** The bracket [d_k g_lj + d_j g_lk - d_l g_jk]. *)
Definition spec_bracket (x y eps : num) (l j k : Index) : num :=
  spec_dMetric x y eps k l j + spec_dMetric x y eps j l k
  - spec_dMetric x y eps l j k.

(** "Gamma^i_jk = 1/2 g^il (d_k g_lj + d_j g_lk - d_l g_jk), summed over
    both values of l". *)
Definition spec_Gamma (x y eps : num) (i j k : Index) : num :=
  lit 0.5 * (spec_inverseMetric x y i X1 * spec_bracket x y eps X1 j k
             + spec_inverseMetric x y i X2 * spec_bracket x y eps X2 j k).

(** The diagonal-only shortcut the specification rules out: the term
    [l = i] alone. *)
Definition diagonal_Gamma (x y eps : num) (i j k : Index) : num :=
  lit 0.5 * (spec_inverseMetric x y i i * spec_bracket x y eps i j k).

(** "distance_to_mass". *)
Definition distanceToMass (x y : num) (mass : Mass num) : num :=
  Math_sqrt ((x - mass_x mass) * (x - mass_x mass)
             + (y - mass_y mass) * (y - mass_y mass)).

(** "-strength / (distance_to_mass + 0.5)". *)
Definition wellTerm (x y : num) (mass : Mass num) : num :=
  - (strength mass / (distanceToMass x y mass + lit 0.5)).

(** "Sum over all masses": the terms added up from 0 in the order of the
    collection. *)
Definition sumOver (f : Mass num -> num) (ms : list (Mass num)) : num :=
  fold_left (fun total mass => total + f mass) ms (lit 0).

Definition spec_height (x y : num) : num := sumOver (wellTerm x y) masses.

End SpecWords.

(** ** Statements about runs *)

Section RunShape.

Context {num : Type} `{JSNumber num}.
Variable masses : list (Mass num).
Variable options : Options num.

(** The [k]-th sample of the path that starts in [start]. *)
Definition sample (start : State num) (k : nat) : Point3 num :=
  recordPoint masses (st_pos (orbit masses options k start)).

(** What a loop entered in state [start] with [n] iterations left and
    [trajectory] already recorded has done when it stops after recording
    [m] more samples. *)
Definition stoppedAfter (start : State num) (n : nat) (trajectory : list (Point3 num))
    (run : Outcome * TrajectoryResult num) (m : nat) : Prop :=
  let r := snd run in
  (m <= n)%nat /\
  points r = trajectory ++ map (sample start) (seq 0 m) /\
  match fst run with
  | Success =>
      exists j, m = S j /\
        finalPos r = st_pos (orbit masses options j start) /\
        reachedGoal r = true /\ outOfBounds r = false /\
        goalReached options (finalPos r) = true
  | OutOfBounds =>
      exists j, m = S j /\
        finalPos r = st_pos (orbit masses options j start) /\
        reachedGoal r = false /\ outOfBounds r = true /\
        goalReached options (finalPos r) = false /\
        outsideBounds (bounds options) (finalPos r) = true
  | Captured =>
      exists j, m = S j /\
        finalPos r = st_pos (orbit masses options m start) /\
        reachedGoal r = false /\ outOfBounds r = false /\
        tooClose masses (finalPos r) = true
  | Exhausted =>
      m = n /\
      finalPos r = st_pos (orbit masses options m start) /\
      reachedGoal r = false /\ outOfBounds r = false /\
      (m <> 0%nat -> tooClose masses (finalPos r) = false)
  end.

End RunShape.

(** The returned object alone tells why the run stopped. *)
Definition outcomeReadable (num : Type) `{JSNumber num} : Prop :=
  exists classify : TrajectoryResult num -> Outcome,
    forall masses startPos startVel options,
      (0 < maxSteps options)%nat ->
      classify (computeTrajectory masses startPos startVel options)
      = trajectoryOutcome masses startPos startVel options.

(** [finalPos] is the [(x, y)] of no recorded point. *)
Definition finalPosUnrecorded {num : Type} (r : TrajectoryResult num) : Prop :=
  forall pt, In pt (points r) ->
    ~ (pt_x pt = vec_x (finalPos r) /\ pt_y pt = vec_y (finalPos r)).

(** After a capture or an exhausted loop [finalPos] is the [(x, y)] of no
    recorded point. *)
Definition finalPosNeverRecorded (num : Type) `{JSNumber num} : Prop :=
  forall masses startPos startVel options,
    (0 < maxSteps options)%nat ->
    (trajectoryOutcome masses startPos startVel options = Captured \/
     trajectoryOutcome masses startPos startVel options = Exhausted) ->
    finalPosUnrecorded (computeTrajectory masses startPos startVel options).

(** The monotone well: one mass of positive strength, and a strictly
    smaller distance gives a strictly smaller height. *)
Definition monotoneWell (num : Type) `{JSNumber num} : Prop :=
  forall (mass : Mass num) (px py qx qy : num),
    lessThan (lit 0) (strength mass) ->
    lessThan (distanceToMass px py mass) (distanceToMass qx qy mass) ->
    lessThan (gravitationalHeight [mass] px py) (gravitationalHeight [mass] qx qy).

Arguments outcomeReadable num {_}.
Arguments finalPosNeverRecorded num {_}.
Arguments monotoneWell num {_}.

(** A binary64 value that is neither NaN nor an infinity. *)
Definition finite (z : float) : bool := PrimFloat.is_finite z.

Definition finiteChristoffel (G : Christoffel float) : bool :=
  finite (G111 G) && finite (G112 G) && finite (G122 G) &&
  finite (G211 G) && finite (G212 G) && finite (G222 G).

(** The three degenerate inputs of the specification's section 7, for a
    height query and a Christoffel query at [(x, y)]. *)
Inductive Degenerate (masses : list (Mass float)) (x y : float) : Prop :=
| NoMasses : masses = [] -> Degenerate masses x y
| SingularMetric :
    PrimFloat.eqb (spec_det masses x y) 0 = true -> Degenerate masses x y
| AtMassCentre :
    (exists mass, In mass masses /\ mass_x mass = x /\ mass_y mass = y) ->
    Degenerate masses x y.

(** On a degenerate input the computed values are NaN or infinite. *)
Definition degenerateIsNonFinite : Prop :=
  forall masses x y,
    Degenerate masses x y ->
    finite (gravitationalHeight masses x y) = false \/
    finiteChristoffel (computeChristoffel masses x y (lit 0.02)) = false.

(** ** Concrete inputs (binary64) *)

Section Inputs.

Local Open Scope float_scope.

(** The masses of the predefined levels of [level.js]. *)
Definition level1Masses : list (Mass float) := [mkMass 0 0 1.5].
Definition level2Masses : list (Mass float) :=
  [mkMass (-1) 1 1.2; mkMass 1 (-1) 1.2].
Definition level3Masses : list (Mass float) := [mkMass 0 0 2.0].
Definition level4Masses : list (Mass float) :=
  [mkMass (-2) 1.5 1.0; mkMass 0 (-1.5) 1.0; mkMass 2 1.5 1.0].
Definition level5Masses : list (Mass float) :=
  [mkMass 0 0 3.0; mkMass 3 (-2) 0.5].

Definition predefinedMasses : list (list (Mass float)) :=
  [level1Masses; level2Masses; level3Masses; level4Masses; level5Masses].

(** The play area of every level. *)
Definition levelBounds : Bounds float := mkBounds (-5) 5 (-5) 5.

(** Options without a goal, as [computeTrajectory] defaults them but for
    the number of steps. *)
Definition plainOptions (steps : nat) : Options float :=
  mkOptions steps 0.01 levelBounds None 0.3.

(** Options with a goal placed outside the play area. *)
Definition farGoalOptions : Options float :=
  mkOptions 3 0.01 levelBounds (Some (vec2 6 0)) 0.5.

(** The preview of [projectile.js] on level 1. *)
Definition previewOptions : Options float :=
  mkOptions 2000 0.01 levelBounds (Some (vec2 3.5 0)) 0.5.

Definition origin : Vec2 float := vec2 0 0.
Definition atRest : Vec2 float := vec2 0 0.

(** A mass of strength zero at the origin: it bends nothing. *)
Definition ghostMass : list (Mass float) := [mkMass 0 0 0].

(** A mass strong enough for the binary64 determinant to cancel to zero. *)
Definition heavyMass : list (Mass float) := [mkMass 0 0 1e9].

End Inputs.

Definition allFinite (zs : list float) : bool := forallb finite zs.

(** The height at the centre of every mass of a configuration. *)
Definition centreHeights (masses : list (Mass float)) : list float :=
  map (fun mass => gravitationalHeight masses (mass_x mass) (mass_y mass)) masses.

(** The six symbols as a list. *)
Definition symbols {num : Type} (G : Christoffel num) : list num :=
  [G111 G; G112 G; G122 G; G211 G; G212 G; G222 G].

(** ** Transformations of a configuration *)

Section Transformations.

Context {num : Type} `{JSNumber num}.
Local Open Scope num_scope.

(** A mass moved by [(a, b)]. *)
Definition translateMass (a b : num) (mass : Mass num) : Mass num :=
  mkMass (mass_x mass + a) (mass_y mass + b) (strength mass).

(** A mass mirrored in the diagonal [x = y]. *)
Definition swapMass (mass : Mass num) : Mass num :=
  mkMass (mass_y mass) (mass_x mass) (strength mass).

(** The symbols with the indices 1 and 2 exchanged. *)
Definition swapChristoffel (G : Christoffel num) : Christoffel num :=
  mkChristoffel (G222 G) (G212 G) (G211 G) (G122 G) (G112 G) (G111 G).

Definition swapMetric (g : Metric num) : Metric num :=
  mkMetric (g22 g) (g21 g) (g12 g) (g11 g).

Definition swapGradient (gr : Gradient num) : Gradient num :=
  mkGradient (dzdy gr) (dzdx gr).

(** The [(x, y)] of a recorded point. *)
Definition pointPos (p : Point3 num) : Vec2 num := vec2 (pt_x p) (pt_y p).

(** The configuration a session ends with: the argument of its last
    [setMasses], or the one it started with. *)
Definition configuredAfter (masses : list (Mass num)) (calls : list (Call num))
    : list (Mass num) :=
  fold_left
    (fun current c =>
       match c with
       | CallSetMasses newMasses => newMasses
       | _ => current
       end)
    calls masses.

(** The sum of the strengths of a configuration. *)
Definition totalStrength (masses : list (Mass num)) : num :=
  fold_right (fun mass total => strength mass + total) (lit 0) masses.

(** A recorded point lies on the surface. *)
Definition onSurface (masses : list (Mass num)) (p : Point3 num) : Prop :=
  pt_z p = gravitationalHeight masses (pt_x p) (pt_y p).

(** A recorded point on which the loop went on: not at the goal and inside
    the bounds. *)
Definition passedChecks (options : Options num) (p : Point3 num) : Prop :=
  goalReached options (pointPos p) = false /\
  outsideBounds (bounds options) (pointPos p) = false.

(** A recorded point that is not within 0.3 of any mass. *)
Definition clearOfMasses (masses : list (Mass num)) (p : Point3 num) : Prop :=
  tooClose masses (pointPos p) = false.

End Transformations.

(** ** The rest of math.js

    The functions below need three more things of the runtime: strict
    equality of numbers, [Math.min] and [Math.max], and for the angles
    [Math.cos], [Math.sin] and [Math.PI].  The first three are fixed by
    IEEE-754 and ECMAScript and have a binary64 reading; the trigonometric
    functions are implementation-approximated, and are read over the reals
    only. *)

Class JSCompare (num : Type) : Type := {
  strictEq : num -> num -> bool;    (* a === b *)
  Math_min : num -> num -> num;     (* Math.min(a, b) *)
  Math_max : num -> num -> num      (* Math.max(a, b) *)
}.

Class JSTrig (num : Type) : Type := {
  Math_cos : num -> num;
  Math_sin : num -> num;
  Math_PI  : num
}.

(** [Math.min] on binary64: NaN if either argument is NaN, and [-0] below
    [+0]. *)
Definition float_min (a b : float) : float :=
  if (PrimFloat.is_nan a || PrimFloat.is_nan b)%bool then PrimFloat.nan
  else if PrimFloat.ltb a b then a
  else if PrimFloat.ltb b a then b
  else if PrimFloat.is_zero a
       then (if (PrimFloat.get_sign a || PrimFloat.get_sign b)%bool
             then (-0)%float else 0%float)
       else a.

Definition float_max (a b : float) : float :=
  if (PrimFloat.is_nan a || PrimFloat.is_nan b)%bool then PrimFloat.nan
  else if PrimFloat.ltb a b then b
  else if PrimFloat.ltb b a then a
  else if PrimFloat.is_zero a
       then (if (PrimFloat.get_sign a && PrimFloat.get_sign b)%bool
             then (-0)%float else 0%float)
       else a.

#[export] Instance Binary64Compare : JSCompare float := {|
  strictEq := PrimFloat.eqb;
  Math_min := float_min;
  Math_max := float_max
|}.

Definition Reqb (a b : R) : bool := if Req_dec_T a b then true else false.

#[export] Instance ExactCompare : JSCompare R := {|
  strictEq := Reqb;
  Math_min := Rmin;
  Math_max := Rmax
|}.

#[export] Instance ExactTrig : JSTrig R := {|
  Math_cos := cos;
  Math_sin := sin;
  Math_PI := PI
|}.

Section MathJs.

Context {num : Type} `{JSNumber num} `{JSCompare num}.
Local Open Scope num_scope.

(** A three-element array [[v0, v1, v2]]. *)
Record Array3 : Type := arr3 { at0 : num; at1 : num; at2 : num }.

Definition normalize (v : Array3) : Array3 :=
  let len := Math_sqrt (at0 v * at0 v + at1 v * at1 v + at2 v * at2 v) in
  if strictEq len (lit 0) then arr3 (lit 0) (lit 0) (lit 0)
  else arr3 (at0 v / len) (at1 v / len) (at2 v / len).

Definition cross (a b : Array3) : Array3 :=
  arr3 (at1 a * at2 b - at2 a * at1 b)
       (at2 a * at0 b - at0 a * at2 b)
       (at0 a * at1 b - at1 a * at0 b).

Definition dot (a b : Array3) : num :=
  at0 a * at0 b + at1 a * at1 b + at2 a * at2 b.

Definition normalize2D (v : Vec2 num) : Vec2 num :=
  let len := length2D v in
  if strictEq len (lit 0) then vec2 (lit 0) (lit 0)
  else vec2 (vec_x v / len) (vec_y v / len).

Definition sub2D (a b : Vec2 num) : Vec2 num :=
  vec2 (vec_x a - vec_x b) (vec_y a - vec_y b).

Definition distance2D (a b : Vec2 num) : num :=
  let dx := vec_x b - vec_x a in
  let dy := vec_y b - vec_y a in
  Math_sqrt (dx * dx + dy * dy).

Definition clamp (value min max : num) : num :=
  Math_min (Math_max value min) max.

Definition lerp (a b t : num) : num := a + (b - a) * t.

Section Angles.

Context `{JSTrig num}.

Definition rotateVectorAroundAxis (vec axis : Array3) (angle : num) : Array3 :=
  let c := Math_cos angle in
  let s := Math_sin angle in
  let t := lit 1 - c in
  let ax := at0 axis in
  let ay := at1 axis in
  let az := at2 axis in
  let x := at0 vec in
  let y := at1 vec in
  let z := at2 vec in
  arr3 ((t * ax * ax + c) * x + (t * ax * ay - s * az) * y + (t * ax * az + s * ay) * z)
       ((t * ax * ay + s * az) * x + (t * ay * ay + c) * y + (t * ay * az - s * ax) * z)
       ((t * ax * az - s * ay) * x + (t * ay * az + s * ax) * y + (t * az * az + c) * z).

Definition degToRad (degrees : num) : num := degrees * Math_PI / lit 180.

Definition radToDeg (radians : num) : num := radians * lit 180 / Math_PI.

End Angles.

End MathJs.

Arguments Array3 : clear implicits.

(** The Euclidean length of a three-element array, the [len] of
    [normalize], over the reals. *)
Definition norm3 (v : Array3 R) : R :=
  sqrt (at0 v * at0 v + at1 v * at1 v + at2 v * at2 v)%R.

(** ** projectile.js

    The [Projectile] class.  An object is the record of its fields; a
    method takes the object and returns it as the method leaves it.  Fields
    that the constructor does not assign ([previewResult], [startPos],
    [angle], [power]) are [undefined] until a method assigns them, here
    [None].  The arrays held by an object are replaced, never changed in
    place, and [computeTrajectory] copies the start it is given, so the
    fields carry values.

    [update] is given its speed as an integer, as its callers give it (the
    default 1, and [animationSpeed = 2] in main.js), so that
    [currentTrajectoryIndex] is an integer and [Math.floor] leaves it as it
    is.  The index is not checked against zero: a point read at a negative
    index is [undefined], and reading its [x] throws. *)

Inductive ProjectileState : Type := IDLE | AIMING | FLYING | FINISHED.

(** What [update] hands back: [null], [{finished: true, reachedGoal}],
    [{finished: false, position}], or the [TypeError] thrown on
    [point.x]. *)
Inductive UpdateResult (num : Type) : Type :=
| UpdateNull
| UpdateFinished (reached : bool)
| UpdateMoved (position : Point3 num)
| UpdateTypeError.

Arguments UpdateNull {num}.
Arguments UpdateFinished {num} reached.
Arguments UpdateMoved {num} position.
Arguments UpdateTypeError {num}.

(** [array.slice(start)] *)
Definition slice {A : Type} (array : list A) (start : Z) : list A :=
  let len := Z.of_nat (length array) in
  let from := if (start <? 0)%Z then Z.max (len + start) 0 else Z.min start len in
  skipn (Z.to_nat from) array.

(** [array[index]], [undefined] outside the array. *)
Definition element {A : Type} (array : list A) (index : Z) : option A :=
  if (index <? 0)%Z then None else nth_error array (Z.to_nat index).

Module Projectile.

Section Class.

Context {num : Type} `{JSNumber num}.
Local Open Scope num_scope.

Record t : Type := mk {
  pos : Vec2 num;
  vel : Vec2 num;
  state : ProjectileState;
  trajectory : list (Point3 num);
  currentTrajectoryIndex : Z;
  previewTrajectory : list (Point3 num);
  previewResult : option (TrajectoryResult num);
  startPos : option (Vec2 num);
  angle : option num;
  power : option num
}.

Definition reset (this : t) : t :=
  {| pos := vec2 (lit 0) (lit 0);
     vel := vec2 (lit 0) (lit 0);
     state := IDLE;
     trajectory := [];
     currentTrajectoryIndex := 0;
     previewTrajectory := [];
     previewResult := previewResult this;
     startPos := startPos this;
     angle := angle this;
     power := power this |}.

(** [new Projectile()]: [reset] on an object with no field yet. *)
Definition constructor : t :=
  {| pos := vec2 (lit 0) (lit 0);
     vel := vec2 (lit 0) (lit 0);
     state := IDLE;
     trajectory := [];
     currentTrajectoryIndex := 0;
     previewTrajectory := [];
     previewResult := None;
     startPos := None;
     angle := None;
     power := None |}.

Definition setStartPosition (x y : num) (this : t) : t :=
  {| pos := vec2 x y;
     vel := vel this;
     state := state this;
     trajectory := trajectory this;
     currentTrajectoryIndex := currentTrajectoryIndex this;
     previewTrajectory := previewTrajectory this;
     previewResult := previewResult this;
     startPos := Some (vec2 x y);
     angle := angle this;
     power := power this |}.

(** The options [computePreview] passes to [computeTrajectory]. *)
Definition previewOptions (goalPos : option (Vec2 num)) (goalRadius : num)
    (bounds : Bounds num) : Options num :=
  mkOptions 2000 (lit 0.01) bounds goalPos goalRadius.

(** [masses] is the configuration of physics.js at the time of the call. *)
Definition computePreview (masses : list (Mass num))
    (goalPos : option (Vec2 num)) (goalRadius : num) (bounds : Bounds num)
    (this : t) : t :=
  match state this with
  | AIMING =>
      let result :=
        computeTrajectory masses (pos this) (vel this)
          (previewOptions goalPos goalRadius bounds) in
      {| pos := pos this;
         vel := vel this;
         state := state this;
         trajectory := trajectory this;
         currentTrajectoryIndex := currentTrajectoryIndex this;
         previewTrajectory := points result;
         previewResult := Some result;
         startPos := startPos this;
         angle := angle this;
         power := power this |}
  | _ => this
  end.

Definition launch (this : t) : t :=
  match previewTrajectory this with
  | [] => this
  | _ :: _ =>
      {| pos := pos this;
         vel := vel this;
         state := FLYING;
         trajectory := previewTrajectory this;
         currentTrajectoryIndex := 0;
         previewTrajectory := previewTrajectory this;
         previewResult := previewResult this;
         startPos := startPos this;
         angle := angle this;
         power := power this |}
  end.

(** [this.previewResult?.reachedGoal || false] *)
Definition previewReachedGoal (this : t) : bool :=
  match previewResult this with
  | Some result => reachedGoal result
  | None => false
  end.

Definition update (dt : num) (speed : Z) (this : t) : t * UpdateResult num :=
  match state this with
  | FLYING =>
      let index := (currentTrajectoryIndex this + speed)%Z in
      if (index >=? Z.of_nat (length (trajectory this)))%Z then
        ({| pos := pos this;
            vel := vel this;
            state := FINISHED;
            trajectory := trajectory this;
            currentTrajectoryIndex := index;
            previewTrajectory := previewTrajectory this;
            previewResult := previewResult this;
            startPos := startPos this;
            angle := angle this;
            power := power this |},
         UpdateFinished (previewReachedGoal this))
      else
        match element (trajectory this) index with
        | Some point =>
            ({| pos := vec2 (pt_x point) (pt_y point);
                vel := vel this;
                state := FLYING;
                trajectory := trajectory this;
                currentTrajectoryIndex := index;
                previewTrajectory := previewTrajectory this;
                previewResult := previewResult this;
                startPos := startPos this;
                angle := angle this;
                power := power this |},
             UpdateMoved (point3 (pt_x point) (pt_y point) (pt_z point)))
        | None =>
            ({| pos := pos this;
                vel := vel this;
                state := FLYING;
                trajectory := trajectory this;
                currentTrajectoryIndex := index;
                previewTrajectory := previewTrajectory this;
                previewResult := previewResult this;
                startPos := startPos this;
                angle := angle this;
                power := power this |},
             UpdateTypeError)
        end
  | _ => (this, UpdateNull)
  end.

Definition getPosition3D (masses : list (Mass num)) (this : t) : Point3 num :=
  let z := gravitationalHeight masses (vec_x (pos this)) (vec_y (pos this)) in
  point3 (vec_x (pos this)) (vec_y (pos this)) z.

Definition getCurrentTrajectory (this : t) : list (Point3 num) :=
  match state this with
  | AIMING => previewTrajectory this
  | FLYING => slice (trajectory this) (currentTrajectoryIndex this)
  | _ => []
  end.

(** [projectile.state = ProjectileState.AIMING], the assignment that
    [updateAim] of main.js makes from outside the class. *)
Definition assignAiming (this : t) : t :=
  {| pos := pos this;
     vel := vel this;
     state := AIMING;
     trajectory := trajectory this;
     currentTrajectoryIndex := currentTrajectoryIndex this;
     previewTrajectory := previewTrajectory this;
     previewResult := previewResult this;
     startPos := startPos this;
     angle := angle this;
     power := power this |}.

(** The velocity of [setAimParameters], which [validateLevel] of
    generator.js computes with the same expressions. *)
Definition aimVelocity `{JSTrig num} (angle power : num) : Vec2 num :=
  let radAngle := angle * Math_PI / lit 180 in
  vec2 (Math_cos radAngle * power) (Math_sin radAngle * power).

Definition setAimParameters `{JSTrig num} (angle power : num) (this : t) : t :=
  {| pos := pos this;
     vel := aimVelocity angle power;
     state := state this;
     trajectory := trajectory this;
     currentTrajectoryIndex := currentTrajectoryIndex this;
     previewTrajectory := previewTrajectory this;
     previewResult := previewResult this;
     startPos := startPos this;
     angle := Some angle;
     power := Some power |}.

(** [k] calls of [update] in a row. *)
Fixpoint updates (dt : num) (speed : Z) (k : nat) (this : t) : t :=
  match k with
  | O => this
  | S k' => fst (update dt speed (updates dt speed k' this))
  end.

(** A client of the class and of physics.js: the calls it makes, in
    order.  The state is the configuration of physics.js and the object;
    the reply is what [update] returned, if the call was one. *)
Inductive Request : Type :=
| DoSetMasses (newMasses : list (Mass num))
| DoReset
| DoSetStartPosition (x y : num)
| DoSetAimParameters (angle power : num)
| DoAssignAiming
| DoComputePreview (goalPos : option (Vec2 num)) (goalRadius : num)
    (bounds : Bounds num)
| DoLaunch
| DoUpdate (dt : num) (speed : Z).

Definition serve `{JSTrig num} (world : list (Mass num) * t) (r : Request)
    : (list (Mass num) * t) * option (UpdateResult num) :=
  let '(masses, this) := world in
  match r with
  | DoSetMasses newMasses => ((newMasses, this), None)
  | DoReset => ((masses, reset this), None)
  | DoSetStartPosition x y => ((masses, setStartPosition x y this), None)
  | DoSetAimParameters angle power =>
      ((masses, setAimParameters angle power this), None)
  | DoAssignAiming => ((masses, assignAiming this), None)
  | DoComputePreview goalPos goalRadius bounds =>
      ((masses, computePreview masses goalPos goalRadius bounds this), None)
  | DoLaunch => ((masses, launch this), None)
  | DoUpdate dt speed =>
      let '(this1, result) := update dt speed this in
      ((masses, this1), Some result)
  end.

(** The state after a sequence of requests. *)
Definition served `{JSTrig num} (world : list (Mass num) * t)
    (requests : list Request) : list (Mass num) * t :=
  fold_left (fun w r => fst (serve w r)) requests world.

(** No [update] of the sequence is given a negative speed. *)
Definition forwardOnly (requests : list Request) : Prop :=
  Forall (fun r => match r with DoUpdate _ speed => (0 <= speed)%Z | _ => True end)
         requests.

End Class.

Arguments t : clear implicits.
Arguments Request : clear implicits.

End Projectile.

(** A result that some preview computed: the value of [computeTrajectory]
    on the options of [computePreview], for some configuration, start and
    goal. *)
Definition previewOf {num : Type} `{JSNumber num} (r : TrajectoryResult num)
    : Prop :=
  exists masses pos vel goalPos goalRadius bounds,
    r = computeTrajectory masses pos vel
          (Projectile.previewOptions goalPos goalRadius bounds).

(** What the fields of a projectile have to do with each other: a preview
    that is not empty is the points of the stored result, and so is the
    trajectory of a projectile in flight. *)
Definition consistent {num : Type} `{JSNumber num} (this : Projectile.t num)
    : Prop :=
  (Projectile.previewTrajectory this = [] \/
   exists r, previewOf r /\
     Projectile.previewTrajectory this = points r /\
     Projectile.previewResult this = Some r) /\
  (Projectile.state this = FLYING ->
   exists r, previewOf r /\
     Projectile.trajectory this = points r /\
     Projectile.previewResult this = Some r).

(** ** More of the runtime

    [Math.floor], the exponentiation [x ** 2] and the bitwise [a & b].
    Over the reals these are the mathematical functions that ECMAScript
    takes them from: the floor, the square, and the conjunction of the bits
    of the two integers [ToInt32] gives (truncate, then wrap to 32 bits two's
    complement).  In binary64 [&] is just as exact, and is read off the
    bits of the float; [Math.floor] and [**] are used over the reals
    only. *)

Class JSFloor (num : Type) : Type := {
  Math_floor : num -> num
}.

Class JSPower (num : Type) : Type := {
  square : num -> num               (* x ** 2 *)
}.

Class JSBitwise (num : Type) : Type := {
  bitand : num -> num -> num        (* a & b *)
}.

(** [ToInt32] on an integer: modulo [2^32], into [-2^31 .. 2^31 - 1]. *)
Definition wrap32 (z : Z) : Z :=
  let m := (z mod 4294967296)%Z in
  if (m >=? 2147483648)%Z then (m - 4294967296)%Z else m.

(** The integer part of a float, towards zero; 0 for NaN and the
    infinities, as [ToInt32] has it. *)
Definition float_truncate (x : float) : Z :=
  match Prim2SF x with
  | S754_finite s m e =>
      let magnitude :=
        match e with
        | Z0 => Zpos m
        | Zpos p => (Zpos m * 2 ^ Zpos p)%Z
        | Zneg p => (Zpos m / 2 ^ Zpos p)%Z
        end in
      if s then (- magnitude)%Z else magnitude
  | _ => 0%Z
  end.

Definition float_bitand (a b : float) : float :=
  float_of_Z (Z.land (wrap32 (float_truncate a)) (wrap32 (float_truncate b))).

#[export] Instance Binary64Bitwise : JSBitwise float := {|
  bitand := float_bitand
|}.

(** The integer part of a real, towards zero. *)
Definition Rtruncate (x : R) : Z :=
  if Rle_dec 0 x then Int_part x else (- Int_part (- x))%Z.

#[export] Instance ExactFloor : JSFloor R := {|
  Math_floor := fun x => IZR (Int_part x)
|}.

#[export] Instance ExactPower : JSPower R := {|
  square := fun x => (x * x)%R
|}.

#[export] Instance ExactBitwise : JSBitwise R := {|
  bitand := fun a b => IZR (Z.land (wrap32 (Rtruncate a)) (wrap32 (Rtruncate b)))
|}.

(** [a <= b] on numbers: [a < b] or [a === b], [false] when either is
    NaN. *)
Definition lessOrEqual {num : Type} `{JSNumber num} `{JSCompare num}
    (a b : num) : bool :=
  ltb a b || strictEq a b.

(** [value || fallback] on numbers: zero and NaN are falsy. *)
Definition truthy {num : Type} `{JSNumber num} `{JSCompare num}
    (value : num) : bool :=
  negb (strictEq value (lit 0)) && strictEq value value.

(** The values of the variable of
    [for (let v = start; continue(v); v += step)], if the loop is over
    within [fuel] tests. *)
Fixpoint countUp {num : Type} `{JSNumber num} (fuel : nat)
    (continue : num -> bool) (step v : num) : option (list num) :=
  match fuel with
  | O => None
  | S fuel' =>
      if continue v then
        match countUp fuel' continue step (add v step) with
        | Some rest => Some (v :: rest)
        | None => None
        end
      else Some []
  end.

(** ** level.js

    A text is a string literal of the source or one of the two strings
    that the program builds from numbers: the template [`Niveau ${id}`],
    and the value of [generateDescription(levelId, massCount)] of
    generator.js, a pure function of its arguments whose text is not
    modelled.  Both are never empty. *)

Inductive Text (num : Type) : Type :=
| Literal (s : String.string)
| Niveau (id : num)
| Description (levelId : num) (massCount : nat).

Arguments Literal {num} s.
Arguments Niveau {num} id.
Arguments Description {num} levelId massCount.

(** [config.maxAttempts || Infinity] *)
Inductive Attempts (num : Type) : Type :=
| Limited (n : num)
| Infinity.

Arguments Limited {num} n.
Arguments Infinity {num}.

(** The [config] object: a property that is absent is [None]. *)
Module LevelConfig.

Record t (num : Type) : Type := mk {
  id : option num;
  name : option (Text num);
  description : option (Text num);
  bounds : option (Bounds num);
  startPos : option (Vec2 num);
  goalPos : option (Vec2 num);
  goalRadius : option num;
  masses : option (list (Mass num));
  difficulty : option num;
  maxAttempts : option num;
  parShots : option num
}.

End LevelConfig.

Module Level.

Import String.

Section Class.

Context {num : Type} `{JSNumber num} `{JSCompare num}.

Record t : Type := mk {
  id : num;
  name : Text num;
  description : Text num;
  bounds : Bounds num;
  startPos : Vec2 num;
  goalPos : Vec2 num;
  goalRadius : num;
  masses : list (Mass num);
  difficulty : num;
  maxAttempts : Attempts num;
  parShots : num
}.

(** [value || fallback] on a number that may be absent. *)
Definition numberOr (value : option num) (fallback : num) : num :=
  match value with
  | Some v => if truthy v then v else fallback
  | None => fallback
  end.

(** [value || fallback] on a text: the empty string is falsy. *)
Definition textOr (value : option (Text num)) (fallback : Text num) : Text num :=
  match value with
  | Some (Literal s) => if String.eqb s ""%string then fallback else Literal s
  | Some text => text
  | None => fallback
  end.

(** [value || fallback] on an object or an array, which is truthy. *)
Definition objectOr {A : Type} (value : option A) (fallback : A) : A :=
  match value with
  | Some v => v
  | None => fallback
  end.

Definition constructor (config : LevelConfig.t num) : t :=
  let id := numberOr (LevelConfig.id config) (lit 1) in
  {| id := id;
     name := textOr (LevelConfig.name config) (Niveau id);
     description := textOr (LevelConfig.description config) (Literal ""%string);
     bounds := objectOr (LevelConfig.bounds config)
                 (mkBounds (lit (-5)) (lit 5) (lit (-5)) (lit 5));
     startPos := objectOr (LevelConfig.startPos config) (vec2 (lit (-3)) (lit (-3)));
     goalPos := objectOr (LevelConfig.goalPos config) (vec2 (lit 3) (lit 3));
     goalRadius := numberOr (LevelConfig.goalRadius config) (lit 0.4);
     masses := objectOr (LevelConfig.masses config) [];
     difficulty := numberOr (LevelConfig.difficulty config) (lit 1);
     maxAttempts :=
       match LevelConfig.maxAttempts config with
       | Some n => if truthy n then Limited n else Infinity
       | None => Infinity
       end;
     parShots := numberOr (LevelConfig.parShots config) (lit 1) |}.

(** [{masses, startPos, goalPos, goalRadius, bounds}] *)
Record GameState : Type := mkGameState {
  gs_masses : list (Mass num);
  gs_startPos : Vec2 num;
  gs_goalPos : Vec2 num;
  gs_goalRadius : num;
  gs_bounds : Bounds num
}.

Definition toGameState (this : t) : GameState :=
  {| gs_masses := masses this;
     gs_startPos := startPos this;
     gs_goalPos := goalPos this;
     gs_goalRadius := goalRadius this;
     gs_bounds := bounds this |}.

Definition level1 : t :=
  constructor
    {| LevelConfig.id := Some (lit 1);
       LevelConfig.name := Some (Literal "Premier Contact"%string);
       LevelConfig.description :=
         Some (Literal "Une seule masse entre vous et la sortie. Observez comment l'espace se courbe."%string);
       LevelConfig.bounds := None;
       LevelConfig.startPos := Some (vec2 (lit (-3.5)) (lit 0));
       LevelConfig.goalPos := Some (vec2 (lit 3.5) (lit 0));
       LevelConfig.goalRadius := Some (lit 0.5);
       LevelConfig.masses := Some [mkMass (lit 0) (lit 0) (lit 1.5)];
       LevelConfig.difficulty := Some (lit 1);
       LevelConfig.maxAttempts := None;
       LevelConfig.parShots := Some (lit 1) |}.

Definition level2 : t :=
  constructor
    {| LevelConfig.id := Some (lit 2);
       LevelConfig.name := Some (Literal "Danse Binaire"%string);
       LevelConfig.description :=
         Some (Literal "Deux masses créent un couloir gravitationnel. Trouvez le chemin."%string);
       LevelConfig.bounds := None;
       LevelConfig.startPos := Some (vec2 (lit (-3.5)) (lit (-2)));
       LevelConfig.goalPos := Some (vec2 (lit 3.5) (lit 2));
       LevelConfig.goalRadius := Some (lit 0.45);
       LevelConfig.masses :=
         Some [mkMass (lit (-1)) (lit 1) (lit 1.2); mkMass (lit 1) (lit (-1)) (lit 1.2)];
       LevelConfig.difficulty := Some (lit 2);
       LevelConfig.maxAttempts := None;
       LevelConfig.parShots := Some (lit 1) |}.

Definition level3 : t :=
  constructor
    {| LevelConfig.id := Some (lit 3);
       LevelConfig.name := Some (Literal "Assistance Gravitationnelle"%string);
       LevelConfig.description :=
         Some (Literal "Utilisez la gravité à votre avantage pour atteindre l'objectif."%string);
       LevelConfig.bounds := None;
       LevelConfig.startPos := Some (vec2 (lit (-4)) (lit (-3)));
       LevelConfig.goalPos := Some (vec2 (lit (-4)) (lit 3));
       LevelConfig.goalRadius := Some (lit 0.4);
       LevelConfig.masses := Some [mkMass (lit 0) (lit 0) (lit 2.0)];
       LevelConfig.difficulty := Some (lit 3);
       LevelConfig.maxAttempts := None;
       LevelConfig.parShots := Some (lit 1) |}.

Definition level4 : t :=
  constructor
    {| LevelConfig.id := Some (lit 4);
       LevelConfig.name := Some (Literal "Slalom Cosmique"%string);
       LevelConfig.description :=
         Some (Literal "Naviguez entre plusieurs masses sans vous faire capturer."%string);
       LevelConfig.bounds := None;
       LevelConfig.startPos := Some (vec2 (lit (-4)) (lit 0));
       LevelConfig.goalPos := Some (vec2 (lit 4) (lit 0));
       LevelConfig.goalRadius := Some (lit 0.4);
       LevelConfig.masses :=
         Some [mkMass (lit (-2)) (lit 1.5) (lit 1.0);
               mkMass (lit 0) (lit (-1.5)) (lit 1.0);
               mkMass (lit 2) (lit 1.5) (lit 1.0)];
       LevelConfig.difficulty := Some (lit 4);
       LevelConfig.maxAttempts := None;
       LevelConfig.parShots := Some (lit 1) |}.

Definition level5 : t :=
  constructor
    {| LevelConfig.id := Some (lit 5);
       LevelConfig.name := Some (Literal "Horizon des Événements"%string);
       LevelConfig.description :=
         Some (Literal "Une masse dominante. Ne vous approchez pas trop près."%string);
       LevelConfig.bounds := None;
       LevelConfig.startPos := Some (vec2 (lit (-4)) (lit (-4)));
       LevelConfig.goalPos := Some (vec2 (lit 4) (lit 4));
       LevelConfig.goalRadius := Some (lit 0.35);
       LevelConfig.masses :=
         Some [mkMass (lit 0) (lit 0) (lit 3.0); mkMass (lit 3) (lit (-2)) (lit 0.5)];
       LevelConfig.difficulty := Some (lit 5);
       LevelConfig.maxAttempts := None;
       LevelConfig.parShots := Some (lit 1) |}.

Definition predefinedLevels : list t := [level1; level2; level3; level4; level5].

(** [predefinedLevels.find(l => l.id === id) || null] *)
Definition getLevelById (wanted : num) : option t :=
  find (fun l => strictEq (id l) wanted) predefinedLevels.

End Class.

Arguments t : clear implicits.
Arguments GameState : clear implicits.

End Level.

(** ** generator.js

    A [SeededRandom] object is its [seed]; a method takes the seed and
    returns its value with the seed it leaves.  The functions that are
    handed an [rng] take the seed and return the one they leave.
    [generateMasses] and [validateLevel] loop on a number; their loops are
    run on fuel and give [None] if it runs out. *)

Module SeededRandom.

Section Class.

Context {num : Type} `{JSNumber num} `{JSBitwise num} `{JSFloor num}.
Local Open Scope num_scope.

Definition next (seed : num) : num * num :=
  let seed := bitand (seed * lit 1103515245 + lit 12345) (lit 2147483647) in
  (seed / lit 2147483647, seed).

Definition range (min max : num) (seed : num) : num * num :=
  let '(value, seed) := next seed in
  (min + value * (max - min), seed).

Definition int (min max : num) (seed : num) : num * num :=
  let '(value, seed) := range min (max + lit 1) seed in
  (Math_floor value, seed).

End Class.

End SeededRandom.

Module Generator.

Import String.

Section Functions.

Context {num : Type} `{JSNumber num} `{JSCompare num} `{JSTrig num}
        `{JSFloor num} `{JSPower num} `{JSBitwise num}.
Local Open Scope num_scope.

Record Params : Type := mkParams {
  baseMassCount : num;
  massCountGrowth : num;
  maxMasses : num;
  baseStrength : num;
  strengthGrowth : num;
  maxStrength : num;
  baseGoalRadius : num;
  goalRadiusShrink : num;
  minGoalRadius : num;
  baseDistance : num;
  distanceGrowth : num;
  maxDistance : num;
  bounds : Bounds num;
  margin : num
}.

Definition generationParams : Params :=
  {| baseMassCount := lit 1;
     massCountGrowth := lit 0.3;
     maxMasses := lit 6;
     baseStrength := lit 1.0;
     strengthGrowth := lit 0.1;
     maxStrength := lit 3.5;
     baseGoalRadius := lit 0.5;
     goalRadiusShrink := lit 0.02;
     minGoalRadius := lit 0.25;
     baseDistance := lit 6;
     distanceGrowth := lit 0.2;
     maxDistance := lit 8;
     bounds := mkBounds (lit (-5)) (lit 5) (lit (-5)) (lit 5);
     margin := lit 0.8 |}.

(** The local [clamp] of [generateStartAndGoal]. *)
Definition clampToMargin (p : Params) (pos : Vec2 num) : Vec2 num :=
  vec2 (Math_max (minX (bounds p) + margin p)
                 (Math_min (maxX (bounds p) - margin p) (vec_x pos)))
       (Math_max (minY (bounds p) + margin p)
                 (Math_min (maxY (bounds p) - margin p) (vec_y pos))).

(** The value is [{startPos, goalPos}], here a pair. *)
Definition generateStartAndGoal (rng : num) (levelId : num) (params : Params)
    : (Vec2 num * Vec2 num) * num :=
  let p := params in
  let distance :=
    Math_min (baseDistance p + distanceGrowth p * levelId) (maxDistance p) in
  let '(angle, rng) := SeededRandom.range (lit 0) (Math_PI * lit 2) rng in
  let halfDist := distance / lit 2 in
  let '(centerX, rng) := SeededRandom.range (lit (-1)) (lit 1) rng in
  let '(centerY, rng) := SeededRandom.range (lit (-1)) (lit 1) rng in
  let startPos :=
    vec2 (centerX - Math_cos angle * halfDist)
         (centerY - Math_sin angle * halfDist) in
  let goalPos :=
    vec2 (centerX + Math_cos angle * halfDist)
         (centerY + Math_sin angle * halfDist) in
  ((clampToMargin p startPos, clampToMargin p goalPos), rng).

(** [Math.sqrt((x - to.x) ** 2 + (y - to.y) ** 2)] *)
Definition distanceTo (x y toX toY : num) : num :=
  Math_sqrt (square (x - toX) + square (y - toY)).

(** The [while (attempts < 50)] loop, with [n = 50 - attempts] rounds
    left: the mass found, if any, and the seed left. *)
Fixpoint placeMass (n : nat) (rng : num) (masses : list (Mass num))
    (startPos goalPos : Vec2 num) (dist dirX dirY avgStrength : num)
    : option (Mass num) * num :=
  match n with
  | O => (None, rng)
  | S n' =>
      let '(t, rng) := SeededRandom.range (lit 0.2) (lit 0.8) rng in
      let '(perpOffset, rng) := SeededRandom.range (lit (-2)) (lit 2) rng in
      let x := vec_x startPos + dirX * dist * t - dirY * perpOffset in
      let y := vec_y startPos + dirY * dist * t + dirX * perpOffset in
      let distToStart := distanceTo x y (vec_x startPos) (vec_y startPos) in
      let distToGoal := distanceTo x y (vec_x goalPos) (vec_y goalPos) in
      if (distToStart >? lit 1.0) && (distToGoal >? lit 1.0) then
        let tooClose :=
          existsb (fun m => distanceTo x y (mass_x m) (mass_y m) <? lit 1.5)
                  masses in
        if negb tooClose then
          let '(factor, rng) := SeededRandom.range (lit 0.7) (lit 1.3) rng in
          let strength := avgStrength * factor in
          (Some (mkMass x y strength), rng)
        else placeMass n' rng masses startPos goalPos dist dirX dirY avgStrength
      else placeMass n' rng masses startPos goalPos dist dirX dirY avgStrength
  end.

(** The [for (let i = 0; i < massCount; i++)] loop from [i] on. *)
Fixpoint placeMasses (fuel : nat) (i : nat) (massCount : num) (rng : num)
    (masses : list (Mass num)) (startPos goalPos : Vec2 num)
    (dist dirX dirY avgStrength : num) : option (list (Mass num) * num) :=
  match fuel with
  | O => None
  | S fuel' =>
      if lit (inject_Z (Z.of_nat i)) <? massCount then
        let '(mass, rng) :=
          placeMass 50 rng masses startPos goalPos dist dirX dirY avgStrength in
        let masses :=
          match mass with
          | Some m => (masses ++ [m])%list
          | None => masses
          end in
        placeMasses fuel' (S i) massCount rng masses startPos goalPos
          dist dirX dirY avgStrength
      else Some (masses, rng)
  end.

Definition generateMasses (fuel : nat) (rng : num) (levelId : num)
    (startPos goalPos : Vec2 num) (params : Params)
    : option (list (Mass num) * num) :=
  let p := params in
  let massCount :=
    Math_min (Math_floor (baseMassCount p + massCountGrowth p * levelId))
             (maxMasses p) in
  let avgStrength :=
    Math_min (baseStrength p + strengthGrowth p * levelId) (maxStrength p) in
  let dx := vec_x goalPos - vec_x startPos in
  let dy := vec_y goalPos - vec_y startPos in
  let dist := Math_sqrt (dx * dx + dy * dy) in
  let dirX := dx / dist in
  let dirY := dy / dist in
  placeMasses fuel 0 massCount rng [] startPos goalPos dist dirX dirY avgStrength.

(** The angles and the powers that [validateLevel] tries. *)
Definition trialAngles (fuel : nat) : option (list num) :=
  countUp fuel (fun angle => angle <? lit 360) (lit 15) (lit 0).

Definition trialPowers (fuel : nat) : option (list num) :=
  countUp fuel (fun power => lessOrEqual power (lit 5)) (lit 0.5) (lit 1).

(** One trial of [validateLevel]: the [reachedGoal] of the trajectory. *)
Definition trial (level : Level.t num) (angle power : num) : bool :=
  let radAngle := angle * Math_PI / lit 180 in
  let vel := vec2 (Math_cos radAngle * power) (Math_sin radAngle * power) in
  let result :=
    computeTrajectory (Level.masses level) (Level.startPos level) vel
      (mkOptions 2000 (lit 0.01) (Level.bounds level)
         (Some (Level.goalPos level)) (Level.goalRadius level)) in
  reachedGoal result.

(** The value, and the configuration of physics.js that [validateLevel]
    leaves: the masses of the level. *)
Definition validateLevel (fuel : nat) (level : Level.t num)
    : option (list (Mass num) * bool) :=
  match trialAngles fuel, trialPowers fuel with
  | Some angles, Some powers =>
      Some (Level.masses level,
            existsb (fun angle => existsb (fun power => trial level angle power) powers)
                    angles)
  | _, _ => None
  end.

(** The level of one attempt of [generateLevel]. *)
Definition candidateLevel (levelId goalRadius : num) (startPos goalPos : Vec2 num)
    (masses : list (Mass num)) (params : Params) : Level.t num :=
  Level.constructor
    {| LevelConfig.id := Some levelId;
       LevelConfig.name := Some (Niveau levelId);
       LevelConfig.description := Some (Description levelId (List.length masses));
       LevelConfig.bounds := Some (bounds params);
       LevelConfig.startPos := Some startPos;
       LevelConfig.goalPos := Some goalPos;
       LevelConfig.goalRadius := Some goalRadius;
       LevelConfig.masses := Some masses;
       LevelConfig.difficulty := Some levelId;
       LevelConfig.maxAttempts := None;
       LevelConfig.parShots := Some (lit 1) |}.

(** The fallback of [generateLevel]. *)
Definition fallbackLevel (levelId goalRadius : num) (params : Params)
    : Level.t num :=
  Level.constructor
    {| LevelConfig.id := Some levelId;
       LevelConfig.name := Some (Niveau levelId);
       LevelConfig.description :=
         Some (Literal "Un défi cosmique vous attend."%string);
       LevelConfig.bounds := Some (bounds params);
       LevelConfig.startPos := Some (vec2 (lit (-3)) (lit 0));
       LevelConfig.goalPos := Some (vec2 (lit 3) (lit 0));
       LevelConfig.goalRadius := Some goalRadius;
       LevelConfig.masses := Some [mkMass (lit 0) (lit 0) (lit 1.5)];
       LevelConfig.difficulty := Some levelId;
       LevelConfig.maxAttempts := None;
       LevelConfig.parShots := Some (lit 1) |}.

(** The [while (attempts < maxAttempts)] loop of [generateLevel], with
    [n = 20 - attempts] rounds left.  [configured] is the configuration of
    physics.js.  The value is the configuration left and the level found,
    if any. *)
Fixpoint tryLevels (fuel : nat) (n : nat) (attempts : nat)
    (actualSeed rng levelId goalRadius : num) (params : Params)
    (configured : list (Mass num))
    : option (list (Mass num) * option (Level.t num)) :=
  match n with
  | O => Some (configured, None)
  | S n' =>
      let '((startPos, goalPos), rng) := generateStartAndGoal rng levelId params in
      match generateMasses fuel rng levelId startPos goalPos params with
      | None => None
      | Some (masses, rng) =>
          let candidate :=
            candidateLevel levelId goalRadius startPos goalPos masses params in
          match validateLevel fuel candidate with
          | None => None
          | Some (configured, true) => Some (configured, Some candidate)
          | Some (configured, false) =>
              let attempts := S attempts in
              let rng :=
                actualSeed + lit (inject_Z (Z.of_nat attempts)) * lit 1000 in
              tryLevels fuel n' attempts actualSeed rng levelId goalRadius
                params configured
          end
      end
  end.

(** [seed = null] is [None].  The value is the level, with the
    configuration of physics.js that the call leaves. *)
Definition generateLevel (fuel : nat) (configured : list (Mass num))
    (levelId : num) (seed : option num)
    : option (list (Mass num) * Level.t num) :=
  let actualSeed :=
    match seed with
    | Some seed => seed
    | None => levelId * lit 12345
    end in
  let rng := actualSeed in
  let params := generationParams in
  let goalRadius :=
    Math_max (baseGoalRadius params - goalRadiusShrink params * levelId)
             (minGoalRadius params) in
  match tryLevels fuel 20 0 actualSeed rng levelId goalRadius params configured with
  | None => None
  | Some (configured, Some level) => Some (configured, level)
  | Some (configured, None) =>
      Some (configured, fallbackLevel levelId goalRadius params)
  end.

End Functions.

Arguments Params : clear implicits.

End Generator.

(** The position of a mass. *)
Definition massPos {num : Type} (m : Mass num) : Vec2 num :=
  vec2 (mass_x m) (mass_y m).

(** Every mass of the list satisfies [Q] with the masses before it in the
    list. *)
Definition placedWith {num : Type} (Q : list (Mass num) -> Mass num -> Prop)
    (masses : list (Mass num)) : Prop :=
  forall before m after, masses = before ++ m :: after -> Q before m.

(** What [generateMasses] checks before it keeps a mass, over the reals:
    more than 1 from the start and from the goal, not less than 1.5 from
    every mass kept before; and what strength it gives it. *)
Definition keptMass (startPos goalPos : Vec2 R) (avgStrength : R)
    (earlier : list (Mass R)) (m : Mass R) : Prop :=
  (1 < distance2D (massPos m) startPos)%R /\
  (1 < distance2D (massPos m) goalPos)%R /\
  Forall (fun e => (15 / 10 <= distance2D (massPos e) (massPos m))%R) earlier /\
  exists factor : R,
    (7 / 10 <= factor <= 13 / 10)%R /\ strength m = (avgStrength * factor)%R.

(** ** [computeTrajectory], statement by statement

    The function once more, as the sequence of its statements.  Every
    variable that it assigns is a cell of a store, beside the module's
    [masses], and every statement is a step on that store.  In JavaScript
    a call gets fresh variables; here a call starts on whatever store it
    is given, so that what an earlier call left in a variable is there to
    be read, if the code read it before assigning it.  The functions it
    calls ([gravitationalHeight], [integrateRK4], [length2D]) are given the
    [masses] that the store holds when they are called.  The [for] loop is
    run on fuel: [None] if the fuel is used up before the loop is left. *)

Section Activation.

Context {num : Type} `{JSNumber num}.
Local Open Scope num_scope.

Record Store : Type := mkStore {
  moduleMasses : list (Mass num);       (* [let masses] of the module *)
  var_trajectory : list (Point3 num);   (* [const trajectory] *)
  var_pos : Vec2 num;                   (* [let pos] *)
  var_vel : Vec2 num;                   (* [let vel] *)
  var_reachedGoal : bool;               (* [let reachedGoal] *)
  var_outOfBounds : bool;               (* [let outOfBounds] *)
  var_i : nat;                          (* [let i] *)
  var_tooClose : bool                   (* [let tooClose] *)
}.

Definition setTrajectory (value : list (Point3 num)) (s : Store) : Store :=
  mkStore (moduleMasses s) value (var_pos s) (var_vel s)
          (var_reachedGoal s) (var_outOfBounds s) (var_i s) (var_tooClose s).

Definition setPos (value : Vec2 num) (s : Store) : Store :=
  mkStore (moduleMasses s) (var_trajectory s) value (var_vel s)
          (var_reachedGoal s) (var_outOfBounds s) (var_i s) (var_tooClose s).

Definition setVel (value : Vec2 num) (s : Store) : Store :=
  mkStore (moduleMasses s) (var_trajectory s) (var_pos s) value
          (var_reachedGoal s) (var_outOfBounds s) (var_i s) (var_tooClose s).

Definition setReachedGoal (value : bool) (s : Store) : Store :=
  mkStore (moduleMasses s) (var_trajectory s) (var_pos s) (var_vel s)
          value (var_outOfBounds s) (var_i s) (var_tooClose s).

Definition setOutOfBounds (value : bool) (s : Store) : Store :=
  mkStore (moduleMasses s) (var_trajectory s) (var_pos s) (var_vel s)
          (var_reachedGoal s) value (var_i s) (var_tooClose s).

Definition setI (value : nat) (s : Store) : Store :=
  mkStore (moduleMasses s) (var_trajectory s) (var_pos s) (var_vel s)
          (var_reachedGoal s) (var_outOfBounds s) value (var_tooClose s).

Definition setTooClose (value : bool) (s : Store) : Store :=
  mkStore (moduleMasses s) (var_trajectory s) (var_pos s) (var_vel s)
          (var_reachedGoal s) (var_outOfBounds s) (var_i s) value.

(** [for (const mass of masses) { ... if (dist < 0.3) { tooClose = true; break; } }],
    with [rest] the masses still to come. *)
Fixpoint massLoop (rest : list (Mass num)) (s : Store) : Store :=
  match rest with
  | [] => s
  | mass :: rest' =>
      let dist :=
        length2D (vec2 (vec_x (var_pos s) - mass_x mass)
                       (vec_y (var_pos s) - mass_y mass)) in
      if dist <? lit 0.3 then setTooClose true s else massLoop rest' s
  end.

(** One pass through the body of the [for] loop: the store it leaves, and
    whether it left by a [break]. *)
Definition iteration (options : Options num) (s : Store) : Store * bool :=
  (* trajectory.push({ x: pos.x, y: pos.y, z: gravitationalHeight(pos.x, pos.y) }) *)
  let s :=
    setTrajectory
      (var_trajectory s
       ++ [point3 (vec_x (var_pos s)) (vec_y (var_pos s))
             (gravitationalHeight (moduleMasses s)
                (vec_x (var_pos s)) (vec_y (var_pos s)))]) s in
  (* if (goalPos) { ... if (distToGoal < goalRadius) { reachedGoal = true; break; } } *)
  if goalReached options (var_pos s) then (setReachedGoal true s, true)
  (* if (pos.x < bounds.minX || ...) { outOfBounds = true; break; } *)
  else if outsideBounds (bounds options) (var_pos s) then
    (setOutOfBounds true s, true)
  else
    (* const result = integrateRK4(pos, vel, dt); pos = result.pos; vel = result.vel *)
    let result :=
      integrateRK4 (moduleMasses s) (var_pos s) (var_vel s) (dt options) in
    let s := setPos (st_pos result) s in
    let s := setVel (st_vel result) s in
    (* let tooClose = false; for (const mass of masses) { ... } *)
    let s := setTooClose false s in
    let s := massLoop (moduleMasses s) s in
    (* if (tooClose) break *)
    (s, var_tooClose s).

(** [for (...; i < maxSteps; i++) { ... }], from the test on. *)
Fixpoint forLoop (options : Options num) (fuel : nat) (s : Store) : option Store :=
  if Nat.ltb (var_i s) (maxSteps options) then
    match fuel with
    | O => None
    | S fuel' =>
        let '(s, broke) := iteration options s in
        if broke then Some s
        else forLoop options fuel' (setI (S (var_i s)) s)
    end
  else Some s.

(** A call of [computeTrajectory] on the store it finds: the object
    returned and the store left.  [maxSteps] passes are fuel enough. *)
Definition computeTrajectoryOn (startPos startVel : Vec2 num)
    (options : Options num) (found : Store)
    : option (TrajectoryResult num * Store) :=
  (* const trajectory = [] *)
  let s := setTrajectory [] found in
  (* let pos = { ...startPos }; let vel = { ...startVel } *)
  let s := setPos (vec2 (vec_x startPos) (vec_y startPos)) s in
  let s := setVel (vec2 (vec_x startVel) (vec_y startVel)) s in
  (* let reachedGoal = false; let outOfBounds = false *)
  let s := setReachedGoal false s in
  let s := setOutOfBounds false s in
  (* let i = 0 *)
  let s := setI 0 s in
  match forLoop options (maxSteps options) s with
  | Some s =>
      (* return { points: trajectory, reachedGoal, outOfBounds, finalPos: pos } *)
      Some (mkResult (var_trajectory s) (var_reachedGoal s) (var_outOfBounds s)
              (var_pos s),
            s)
  | None => None
  end.

End Activation.

Arguments Store : clear implicits.

(** ** The height at the centre of a mass, in binary64 *)

(** A mass whose coordinates and strength are finite numbers. *)
Definition finiteMass (mass : Mass float) : bool :=
  finite (mass_x mass) && finite (mass_y mass) && finite (strength mass).

(** Scenario 2 of the specification: queried at the centre of one of its
    masses, a field of finite masses has a finite height. *)
Definition centreHeightFinite : Prop :=
  forall masses mass,
    forallb finiteMass masses = true -> In mass masses ->
    finite (gravitationalHeight masses (mass_x mass) (mass_y mass)) = true.

(** A mass so strong that [strength / 0.5] is beyond the largest binary64
    number. *)
Definition overflowMass : list (Mass float) := [mkMass 0 0 1e308]%float.

(** A mass strong enough for the determinant to cancel to zero at its own
    centre. *)
Definition strongMass : list (Mass float) := [mkMass 0 0 1e8]%float.

(** ** [update] on any number

    [Projectile.update] above is given its speed as an integer.  The
    method itself adds whatever number it is given to
    [currentTrajectoryIndex], and what it does then depends on the number
    the index has become.  [Flight] is the object as [update] sees it, in
    binary64: the fields that the method reads or assigns, with the index
    the number it is.  [trajectory.length] is the number of the points, a
    whole number below 2^32, which binary64 holds exactly;
    [Math.floor] of a finite number is an integer, and [trajectory[idx]] is
    the point at that integer if there is one ([-0] reads the first point);
    at NaN, at an infinity and at any other number it is [undefined]. *)

(** [Math.floor(x)] for a finite [x]. *)
Definition float_floor (x : float) : option Z :=
  match Prim2SF x with
  | S754_zero _ => Some 0%Z
  | S754_finite s m e =>
      let numerator := if s then Zneg m else Zpos m in
      Some match e with
           | Z0 => numerator
           | Zpos p => (numerator * 2 ^ Zpos p)%Z
           | Zneg p => (numerator / 2 ^ Zpos p)%Z
           end
  | _ => None
  end.

(** [array[Math.floor(index)]] *)
Definition elementAtFloor {A : Type} (array : list A) (index : float) : option A :=
  match float_floor index with
  | Some idx => element array idx
  | None => None
  end.

Module Flight.

Record t : Type := mk {
  pos : Vec2 float;
  state : ProjectileState;
  trajectory : list (Point3 float);
  currentTrajectoryIndex : float;
  previewResult : option (TrajectoryResult float)
}.

(** What [launch] leaves in these fields. *)
Definition launched (pos : Vec2 float) (result : TrajectoryResult float) : t :=
  {| pos := pos;
     state := FLYING;
     trajectory := points result;
     currentTrajectoryIndex := 0%float;
     previewResult := Some result |}.

Definition update (dt speed : float) (this : t) : t * UpdateResult float :=
  match state this with
  | FLYING =>
      let index := (currentTrajectoryIndex this + speed)%float in
      if (float_of_Z (Z.of_nat (length (trajectory this))) <=? index)%float then
        ({| pos := pos this;
            state := FINISHED;
            trajectory := trajectory this;
            currentTrajectoryIndex := index;
            previewResult := previewResult this |},
         UpdateFinished
           match previewResult this with
           | Some result => reachedGoal result
           | None => false
           end)
      else
        match elementAtFloor (trajectory this) index with
        | Some point =>
            ({| pos := vec2 (pt_x point) (pt_y point);
                state := FLYING;
                trajectory := trajectory this;
                currentTrajectoryIndex := index;
                previewResult := previewResult this |},
             UpdateMoved (point3 (pt_x point) (pt_y point) (pt_z point)))
        | None =>
            ({| pos := pos this;
                state := FLYING;
                trajectory := trajectory this;
                currentTrajectoryIndex := index;
                previewResult := previewResult this |},
             UpdateTypeError)
        end
  | _ => (this, UpdateNull)
  end.

End Flight.

(** * Theorems *)

(** ** The trajectory loop, over any arithmetic *)

Section LoopFacts.

Context {num : Type} `{JSNumber num}.
Variable masses : list (Mass num).
Variable options : Options num.

Lemma state_eta (s : State num) : mkState (st_pos s) (st_vel s) = s.
Proof. destruct s; reflexivity. Qed.

(** Taking the first step first or last reaches the same state. *)
Lemma orbit_shift (k : nat) (s : State num) :
  orbit masses options (S k) s
  = orbit masses options k (integrateRK4 masses (st_pos s) (st_vel s) (dt options)).
Proof.
  induction k as [|k IH].
  - reflexivity.
  - change (orbit masses options (S (S k)) s)
      with (integrateRK4 masses (st_pos (orbit masses options (S k) s))
              (st_vel (orbit masses options (S k) s)) (dt options)).
    rewrite IH. reflexivity.
Qed.

Lemma sample_shift (k : nat) (s : State num) :
  sample masses options s (S k)
  = sample masses options
      (integrateRK4 masses (st_pos s) (st_vel s) (dt options)) k.
Proof. unfold sample. now rewrite orbit_shift. Qed.

Lemma samples_shift (m : nat) (s : State num) :
  map (sample masses options s) (seq 0 (S m))
  = sample masses options s 0
    :: map (sample masses options
              (integrateRK4 masses (st_pos s) (st_vel s) (dt options)))
         (seq 0 m).
Proof.
  cbn [seq map]. f_equal.
  rewrite <- seq_shift, map_map.
  apply map_ext. intros k. apply sample_shift.
Qed.

(** One iteration, unfolded: the four exits in the order of the source. *)
Lemma trajectoryLoop_step (n : nat) (trajectory : list (Point3 num)) (pos vel : Vec2 num) :
  trajectoryLoop masses options (S n) trajectory pos vel =
  let recorded := trajectory ++ [recordPoint masses pos] in
  if goalReached options pos then (Success, mkResult recorded true false pos)
  else if outsideBounds (bounds options) pos then
    (OutOfBounds, mkResult recorded false true pos)
  else
    let next := integrateRK4 masses pos vel (dt options) in
    if tooClose masses (st_pos next) then
      (Captured, mkResult recorded false false (st_pos next))
    else trajectoryLoop masses options n recorded (st_pos next) (st_vel next).
Proof. reflexivity. Qed.

(** Every run of the loop stops, in one of the four ways, after recording a
    prefix of the path. *)
Lemma trajectoryLoop_stops (n : nat) :
  forall (trajectory : list (Point3 num)) (pos vel : Vec2 num),
  exists m,
    stoppedAfter masses options (mkState pos vel) n trajectory
      (trajectoryLoop masses options n trajectory pos vel) m.
Proof.
  induction n as [|n IH]; intros trajectory pos vel.
  - exists 0%nat. unfold stoppedAfter. cbn.
    rewrite app_nil_r. repeat split; auto. intros C; now destruct C.
  - rewrite trajectoryLoop_step. cbv zeta.
    destruct (goalReached options pos) eqn:Hgoal.
    { exists 1%nat. unfold stoppedAfter. cbn.
      repeat split; [lia|]. exists 0%nat. cbn. auto. }
    destruct (outsideBounds (bounds options) pos) eqn:Hout.
    { exists 1%nat. unfold stoppedAfter. cbn.
      repeat split; [lia|]. exists 0%nat. cbn. auto 6. }
    set (next := integrateRK4 masses pos vel (dt options)).
    destruct (tooClose masses (st_pos next)) eqn:Hclose.
    { exists 1%nat. unfold stoppedAfter. cbn.
      repeat split; [lia|]. exists 0%nat. cbn. fold next. auto. }
    destruct (IH (trajectory ++ [recordPoint masses pos]) (st_pos next) (st_vel next))
      as [m Hm].
    exists (S m). revert Hm. rewrite state_eta. unfold stoppedAfter.
    set (run := trajectoryLoop masses options n _ _ _).
    intros (Hle & Hpts & Hout').
    split; [lia|]. split.
    + rewrite Hpts, samples_shift, <- app_assoc. reflexivity.
    + assert (Hshift : forall k,
                 orbit masses options k next
                 = orbit masses options (S k) (mkState pos vel))
        by (intros k; rewrite orbit_shift; reflexivity).
      destruct (fst run).
      * destruct Hout' as (j & -> & Hf & Hrest). exists (S j).
        rewrite Hf, Hshift in *. auto.
      * destruct Hout' as (j & -> & Hf & Hrest). exists (S j).
        rewrite Hf, Hshift in *. auto.
      * destruct Hout' as (j & -> & Hf & Hrest). exists (S j).
        rewrite Hf, Hshift in *. auto.
      * destruct Hout' as (Hmn & Hf & Hr & Ho & Hc).
        repeat split; auto.
        { now rewrite Hf, Hshift. }
        intros _. destruct m as [|m'].
        { rewrite Hf. exact Hclose. }
        apply Hc. discriminate.
Qed.

End LoopFacts.

Section RunInvariants.

Context {num : Type} `{JSNumber num}.
Variable masses : list (Mass num).
Variable options : Options num.

Lemma pointPos_recordPoint (pos : Vec2 num) :
  pointPos (recordPoint masses pos) = pos.
Proof. destruct pos; reflexivity. Qed.

(** What the loop has pushed when it stops: points of the surface, all but
    the last of them past both checks, all but the first clear of the
    masses. *)
Lemma trajectoryLoop_points (n : nat) :
  forall (trajectory : list (Point3 num)) (pos vel : Vec2 num),
  exists new,
    points (snd (trajectoryLoop masses options n trajectory pos vel))
    = trajectory ++ new /\
    match new with
    | [] => n = 0%nat
    | p :: _ => p = recordPoint masses pos
    end /\
    Forall (onSurface masses) new /\
    Forall (passedChecks options) (removelast new) /\
    Forall (clearOfMasses masses) (tl new).
Proof.
  induction n as [|n IH]; intros trajectory pos vel.
  - exists []. cbn. rewrite app_nil_r. auto.
  - rewrite trajectoryLoop_step. cbv zeta.
    assert (Hsurf : onSurface masses (recordPoint masses pos)) by reflexivity.
    destruct (goalReached options pos) eqn:Hgoal;
      [exists [recordPoint masses pos]; cbn; auto 6|].
    destruct (outsideBounds (bounds options) pos) eqn:Hout;
      [exists [recordPoint masses pos]; cbn; auto 6|].
    set (next := integrateRK4 masses pos vel (dt options)).
    destruct (tooClose masses (st_pos next)) eqn:Hclose;
      [exists [recordPoint masses pos]; cbn; auto 6|].
    destruct (IH (trajectory ++ [recordPoint masses pos]) (st_pos next) (st_vel next))
      as (new & Hpts & Hhd & Hs & Hp & Hc).
    exists (recordPoint masses pos :: new).
    split; [now rewrite Hpts, <- app_assoc|].
    split; [reflexivity|]. split; [constructor; assumption|].
    assert (Hpass : passedChecks options (recordPoint masses pos))
      by (unfold passedChecks; rewrite pointPos_recordPoint; auto).
    destruct new as [|p rest].
    + cbn. auto.
    + split.
      * change (removelast (recordPoint masses pos :: p :: rest))
          with (recordPoint masses pos :: removelast (p :: rest)).
        constructor; assumption.
      * cbn [tl]. constructor.
        { subst p. unfold clearOfMasses. now rewrite pointPos_recordPoint. }
        exact Hc.
Qed.

End RunInvariants.

Section RunTheorems.

Context {num : Type} `{JSNumber num}.
Local Open Scope num_scope.

(** The run as a whole: [computeTrajectory] records a prefix of the path
    and stops in one of the four ways. *)
Lemma runTrajectory_stops (masses : list (Mass num)) (startPos startVel : Vec2 num)
    (options : Options num) :
  exists m,
    stoppedAfter masses options (mkState startPos startVel) (maxSteps options) []
      (runTrajectory masses startPos startVel options) m.
Proof. apply trajectoryLoop_stops. Qed.

Lemma samples_length (masses : list (Mass num)) (options : Options num)
    (start : State num) (m : nat) :
  length (map (sample masses options start) (seq 0 m)) = m.
Proof. now rewrite length_map, length_seq. Qed.

(** The acceleration, term by term, as the source computes it. *)
Lemma totalAcceleration_unfolded (masses : list (Mass num)) (pos vel : Vec2 num) :
  let G := computeChristoffel masses (vec_x pos) (vec_y pos) (lit 0.02) in
  let gr := computeGradient masses (vec_x pos) (vec_y pos) (lit 0.01) in
  let vx := vec_x vel in
  let vy := vec_y vel in
  let speed := Math_sqrt (vx * vx + vy * vy) in
  let geodesic :=
    if speed <? lit 0.001 then vec2 (lit 0) (lit 0)
    else vec2 (- (G111 G * vx * vx + lit 2 * G112 G * vx * vy + G122 G * vy * vy))
              (- (G211 G * vx * vx + lit 2 * G212 G * vx * vy + G222 G * vy * vy)) in
  let gravity := vec2 (- dzdx gr * lit 2.0) (- dzdy gr * lit 2.0) in
  geodesicAcceleration masses pos vel = geodesic /\
  computeEffectiveGravity masses pos = gravity /\
  totalAcceleration masses pos vel
  = vec2 (vec_x geodesic + vec_x gravity) (vec_y geodesic + vec_y gravity) /\
  forall dt, integrateRK4 masses pos vel dt
             = rk4Step (totalAcceleration masses) pos vel dt.
Proof.
  cbv zeta.
  split; [reflexivity|]. split; [reflexivity|]. split; [reflexivity|].
  intros dt. reflexivity.
Qed.

(** C3. An iteration entered at [pos] records [(x, y, height(x, y))]
    first; it ends the run as a success when the goal test holds, whatever
    the bounds test says; failing that, as out of bounds when the bounds
    test holds; failing both, it takes one Runge-Kutta step.  A position
    within the goal radius and outside the bounds gives
    [reachedGoal = true] and [outOfBounds = false]. *)
Theorem trajectory_check_priority :
  forall (masses : list (Mass num)) (options : Options num) (n : nat)
         (trajectory : list (Point3 num)) (pos vel : Vec2 num),
    let recorded :=
      trajectory ++ [point3 (vec_x pos) (vec_y pos)
                       (gravitationalHeight masses (vec_x pos) (vec_y pos))] in
    let run := trajectoryLoop masses options (S n) trajectory pos vel in
    let next := integrateRK4 masses pos vel (dt options) in
    (goalReached options pos = true ->
       run = (Success, mkResult recorded true false pos)) /\
    (goalReached options pos = false ->
     outsideBounds (bounds options) pos = true ->
       run = (OutOfBounds, mkResult recorded false true pos)) /\
    (goalReached options pos = false ->
     outsideBounds (bounds options) pos = false ->
       run = if tooClose masses (st_pos next)
             then (Captured, mkResult recorded false false (st_pos next))
             else trajectoryLoop masses options n recorded (st_pos next) (st_vel next)) /\
    (goalReached options pos = true ->
     outsideBounds (bounds options) pos = true ->
       reachedGoal (snd run) = true /\ outOfBounds (snd run) = false).
Proof.
  intros masses options n trajectory pos vel. cbv zeta.
  rewrite trajectoryLoop_step. cbv zeta. unfold recordPoint.
  split; [|split; [|split]].
  - intros Hgoal. now rewrite Hgoal.
  - intros Hgoal Hout. now rewrite Hgoal, Hout.
  - intros Hgoal Hout. now rewrite Hgoal, Hout.
  - intros Hgoal _. rewrite Hgoal. split; reflexivity.
Qed.

(** C5. The loop is bounded by [maxSteps]: [computeTrajectory] returns, and
    its points are the first [m] samples of the path, in order of simulated
    time, for some [m <= maxSteps]; so there are at most [maxSteps + 1]. *)
Theorem computeTrajectory_bounded :
  forall (masses : list (Mass num)) (startPos startVel : Vec2 num)
         (options : Options num),
    let r := computeTrajectory masses startPos startVel options in
    (length (points r) <= maxSteps options + 1)%nat /\
    exists m, (m <= maxSteps options)%nat /\
      points r = map (sample masses options (mkState startPos startVel)) (seq 0 m).
Proof.
  intros masses startPos startVel options. cbv zeta.
  destruct (runTrajectory_stops masses startPos startVel options)
    as (m & Hle & Hpts & _).
  unfold computeTrajectory. cbn [app] in Hpts. split.
  - rewrite Hpts, samples_length. lia.
  - exists m. auto.
Qed.

(** The bound is not attained: at most [maxSteps] points. *)
Lemma computeTrajectory_length (masses : list (Mass num))
    (startPos startVel : Vec2 num) (options : Options num) :
  (length (points (computeTrajectory masses startPos startVel options))
   <= maxSteps options)%nat.
Proof.
  destruct (runTrajectory_stops masses startPos startVel options)
    as (m & Hle & Hpts & _).
  unfold computeTrajectory. cbn [app] in Hpts.
  now rewrite Hpts, samples_length.
Qed.

(** C4, as the code has it.  The flags tell a success and an exit from the
    bounds; a capture returns both flags [false], as an exhausted run does,
    and differs from it in [finalPos] lying within 0.3 of a mass. *)
Theorem outcome_and_flags :
  forall (masses : list (Mass num)) (startPos startVel : Vec2 num)
         (options : Options num),
    let r := computeTrajectory masses startPos startVel options in
    match trajectoryOutcome masses startPos startVel options with
    | Success => reachedGoal r = true /\ outOfBounds r = false
    | OutOfBounds => reachedGoal r = false /\ outOfBounds r = true
    | Captured =>
        reachedGoal r = false /\ outOfBounds r = false /\
        tooClose masses (finalPos r) = true
    | Exhausted =>
        reachedGoal r = false /\ outOfBounds r = false /\
        length (points r) = maxSteps options /\
        match maxSteps options with
        | O => finalPos r = startPos
        | S _ => tooClose masses (finalPos r) = false
        end
    end.
Proof.
  intros masses startPos startVel options. cbv zeta.
  destruct (runTrajectory_stops masses startPos startVel options)
    as (m & Hle & Hpts & Hout).
  unfold computeTrajectory, trajectoryOutcome.
  destruct (fst (runTrajectory masses startPos startVel options)).
  - destruct Hout as (j & _ & _ & Hr & Ho & _). auto.
  - destruct Hout as (j & _ & _ & Hr & Ho & _). auto.
  - destruct Hout as (j & _ & _ & Hr & Ho & Hc). auto.
  - destruct Hout as (Hm & Hf & Hr & Ho & Hc).
    cbn [app] in Hpts. repeat split; auto.
    + now rewrite Hpts, samples_length.
    + rewrite <- Hm. destruct m as [|m']; [exact Hf | apply Hc; discriminate].
Qed.

(** C10, as the code has it.  The points are the samples [0 .. m-1] of the
    path.  After a success or an exit from the bounds [finalPos] is the
    position of the last sample, [m-1].  After a capture or an exhausted
    loop it is the position one Runge-Kutta step after the last sample,
    which is position [m] of the path and was not pushed. *)
Theorem finalPos_and_points :
  forall (masses : list (Mass num)) (startPos startVel : Vec2 num)
         (options : Options num),
    let start := mkState startPos startVel in
    let r := computeTrajectory masses startPos startVel options in
    let m := length (points r) in
    let beyond (j : nat) :=
      let s := orbit masses options j start in
      points r = map (sample masses options start) (seq 0 j)
                 ++ [recordPoint masses (st_pos s)] /\
      finalPos r = st_pos (integrateRK4 masses (st_pos s) (st_vel s) (dt options)) in
    let atLast (j : nat) :=
      points r = map (sample masses options start) (seq 0 j)
                 ++ [recordPoint masses (finalPos r)] /\
      finalPos r = st_pos (orbit masses options j start) in
    points r = map (sample masses options start) (seq 0 m) /\
    match trajectoryOutcome masses startPos startVel options with
    | Success => exists j, m = S j /\ atLast j
    | OutOfBounds => exists j, m = S j /\ atLast j
    | Captured => exists j, m = S j /\ beyond j
    | Exhausted =>
        m = maxSteps options /\
        match m with
        | O => finalPos r = startPos
        | S j => beyond j
        end
    end.
Proof.
  intros masses startPos startVel options. cbv zeta.
  destruct (runTrajectory_stops masses startPos startVel options)
    as (m & Hle & Hpts & Hout).
  unfold computeTrajectory, trajectoryOutcome.
  cbn [app] in Hpts. rewrite Hpts, samples_length. split; [reflexivity|].
  destruct (fst (runTrajectory masses startPos startVel options)).
  - destruct Hout as (j & -> & Hf & _). exists j. split; [reflexivity|].
    rewrite seq_S, map_app, Hf. cbn. auto.
  - destruct Hout as (j & -> & Hf & _). exists j. split; [reflexivity|].
    rewrite seq_S, map_app, Hf. cbn. auto.
  - destruct Hout as (j & -> & Hf & _). exists j. split; [reflexivity|].
    rewrite seq_S, map_app, Hf. cbn. auto.
  - destruct Hout as (Hm & Hf & _). split; [exact Hm|].
    destruct m as [|j]; [exact Hf|].
    rewrite seq_S, map_app, Hf. cbn. auto.
Qed.

(** A session that never calls [setMasses] leaves [masses] as it was. *)
Lemma session_keeps_masses (calls : list (Call num)) :
  forall masses,
    forallb (fun c => negb (isSetMasses c)) calls = true ->
    fst (session masses calls) = masses.
Proof.
  induction calls as [|c rest IH]; intros masses Hq; [reflexivity|].
  cbn in Hq. apply andb_prop in Hq. destruct Hq as [Hc Hrest].
  cbn [session].
  assert (Hexec : fst (exec masses c) = masses)
    by (destruct c; [discriminate Hc | reflexivity ..]).
  destruct (exec masses c) as [masses1 r]. cbn in Hexec. subst masses1.
  specialize (IH masses Hrest).
  destruct (session masses rest) as [masses2 rs]. exact IH.
Qed.

End RunTheorems.

(** ** The store of [computeTrajectory] *)

Section ActivationFacts.

Context {num : Type} `{JSNumber num}.

Lemma vec2_eta_any (v : Vec2 num) : vec2 (vec_x v) (vec_y v) = v.
Proof. destruct v; reflexivity. Qed.

(** The loop over the masses assigns [tooClose] alone, and leaves it
    [true] when a mass is within 0.3 of [pos]. *)
Lemma massLoop_tooClose (rest : list (Mass num)) (s : Store num) :
  massLoop rest s
  = setTooClose (tooClose rest (var_pos s) || var_tooClose s) s.
Proof.
  induction rest as [|mass rest IH].
  - destruct s; reflexivity.
  - cbn [massLoop tooClose existsb]. cbv zeta.
    destruct (ltb _ _); [reflexivity | exact IH].
Qed.

(** The loop on the store and the loop of [trajectoryLoop] go together:
    with [maxSteps - i] passes of fuel the loop on the store is left, the
    module's [masses] are as they were, and from flags that are [false]
    the four variables returned are the fields of the result. *)
Lemma forLoop_refines (options : Options num) (fuel : nat) :
  forall s : Store num,
    var_reachedGoal s = false -> var_outOfBounds s = false ->
    (var_i s + fuel)%nat = maxSteps options ->
    exists s',
      forLoop options fuel s = Some s' /\
      moduleMasses s' = moduleMasses s /\
      mkResult (var_trajectory s') (var_reachedGoal s') (var_outOfBounds s')
               (var_pos s')
      = snd (trajectoryLoop (moduleMasses s) options fuel (var_trajectory s)
               (var_pos s) (var_vel s)).
Proof.
  induction fuel as [|fuel IH]; intros s Hr Ho Hi.
  - exists s. cbn [forLoop trajectoryLoop snd].
    replace (Nat.ltb (var_i s) (maxSteps options)) with false
      by (symmetry; apply Nat.ltb_ge; lia).
    rewrite Hr, Ho. auto.
  - cbn [forLoop].
    replace (Nat.ltb (var_i s) (maxSteps options)) with true
      by (symmetry; apply Nat.ltb_lt; lia).
    rewrite trajectoryLoop_step. cbv zeta.
    unfold iteration, recordPoint. cbv zeta.
    rewrite massLoop_tooClose.
    unfold setTrajectory, setPos, setVel, setReachedGoal, setOutOfBounds,
      setI, setTooClose.
    cbn [moduleMasses var_trajectory var_pos var_vel var_reachedGoal
         var_outOfBounds var_i var_tooClose].
    rewrite orb_false_r.
    destruct (goalReached options (var_pos s)) eqn:Hgoal.
    + eexists. split; [reflexivity|].
      cbn [moduleMasses var_trajectory var_pos var_reachedGoal
           var_outOfBounds snd].
      rewrite Ho. auto.
    + destruct (outsideBounds (bounds options) (var_pos s)) eqn:Hout.
      * eexists. split; [reflexivity|].
        cbn [moduleMasses var_trajectory var_pos var_reachedGoal
             var_outOfBounds snd].
        rewrite Hr. auto.
      * destruct (tooClose (moduleMasses s)
                    (st_pos (integrateRK4 (moduleMasses s) (var_pos s)
                               (var_vel s) (dt options)))) eqn:Hclose.
        { eexists. split; [reflexivity|].
          cbn [moduleMasses var_trajectory var_pos var_reachedGoal
               var_outOfBounds snd].
          rewrite Hr, Ho. auto. }
        { match goal with
          | |- context [forLoop options fuel ?t] =>
              destruct (IH t Hr Ho) as (s' & Hrun & Hm & Hres);
                [cbn [var_i]; lia|];
              cbn [moduleMasses var_trajectory var_pos var_vel] in Hm, Hres;
              exists s'; auto
          end. }
Qed.

(** A call on any store returns, and returns what [computeTrajectory]
    gives on the [masses] of that store, leaving these [masses] as they
    were. *)
Lemma computeTrajectoryOn_refines (startPos startVel : Vec2 num)
    (options : Options num) (found : Store num) :
  exists left : Store num,
    computeTrajectoryOn startPos startVel options found
    = Some (computeTrajectory (moduleMasses found) startPos startVel options,
            left) /\
    moduleMasses left = moduleMasses found.
Proof.
  unfold computeTrajectoryOn. cbv zeta.
  set (s0 := setI 0
               (setOutOfBounds false
                  (setReachedGoal false
                     (setVel (vec2 (vec_x startVel) (vec_y startVel))
                        (setPos (vec2 (vec_x startPos) (vec_y startPos))
                           (setTrajectory [] found)))))).
  destruct (@forLoop_refines options (maxSteps options) s0 eq_refl eq_refl
              eq_refl) as (s' & Hrun & Hm & Hres).
  exists s'. rewrite Hrun, Hres, Hm. split; [|reflexivity].
  unfold computeTrajectory, runTrajectory.
  cbn [s0 moduleMasses var_trajectory var_pos var_vel setI setOutOfBounds
       setReachedGoal setVel setPos setTrajectory].
  now rewrite !vec2_eta_any.
Qed.

(** C6. A call of [computeTrajectory] keeps nothing and uses nothing kept.
    On any store the call returns.  Run on two stores that hold the same
    [masses], whatever else they hold (the variables as an earlier call
    left them, or anything), two calls with the same [startPos],
    [startVel] and [options] return the same object: points, flags and
    [finalPos].  In particular a second call, made on the store that the
    first one left, returns what the first one returned.  The call leaves
    the module's [masses] as it found them, and the object it returns is
    the value of [computeTrajectory] on these masses: the step of the
    module's state machine, [exec], which has [masses] for its whole state,
    is this call.  So after any session of calls of the module other than
    [setMasses], on whatever store holds the [masses] that the session
    left, the call returns what the first one returned. *)
Theorem computeTrajectory_deterministic :
  forall (startPos startVel : Vec2 num) (options : Options num)
         (found found' : Store num),
    moduleMasses found = moduleMasses found' ->
    exists (result : TrajectoryResult num) (left left' left'' : Store num),
      computeTrajectoryOn startPos startVel options found = Some (result, left) /\
      computeTrajectoryOn startPos startVel options found' = Some (result, left') /\
      computeTrajectoryOn startPos startVel options left = Some (result, left'') /\
      moduleMasses left = moduleMasses found /\
      moduleMasses left'' = moduleMasses found /\
      result = computeTrajectory (moduleMasses found) startPos startVel options /\
      exec (moduleMasses found) (CallComputeTrajectory startPos startVel options)
      = (moduleMasses left, ReplyTrajectory result) /\
      (forall (between : list (Call num)) (later : Store num),
         forallb (fun c => negb (isSetMasses c)) between = true ->
         moduleMasses later = fst (session (moduleMasses left) between) ->
         exists left3 : Store num,
           computeTrajectoryOn startPos startVel options later
           = Some (result, left3)).
Proof.
  intros startPos startVel options found found' Hsame.
  destruct (computeTrajectoryOn_refines startPos startVel options found)
    as (left & R1 & M1).
  destruct (computeTrajectoryOn_refines startPos startVel options found')
    as (left' & R2 & _).
  destruct (computeTrajectoryOn_refines startPos startVel options left)
    as (left'' & R3 & M3).
  exists (computeTrajectory (moduleMasses found) startPos startVel options),
    left, left', left''.
  rewrite M1 in R3. rewrite <- Hsame in R2.
  split; [exact R1|]. split; [exact R2|]. split; [exact R3|].
  split; [exact M1|]. split; [now rewrite M3|]. split; [reflexivity|].
  split; [cbn [exec]; now rewrite M1|].
  intros between later Hquiet Hlater.
  destruct (computeTrajectoryOn_refines startPos startVel options later)
    as (left3 & R4 & _).
  exists left3. rewrite R4, Hlater, (session_keeps_masses between _ Hquiet), M1.
  reflexivity.
Qed.

End ActivationFacts.

(** ** The height as a sum, over any arithmetic in which [a - b] is
    [a + (-b)] *)

Section HeightSum.

Context {num : Type} `{JSNumber num}.
Local Open Scope num_scope.
Hypothesis sub_add_neg : forall a b : num, a - b = a + - b.

Lemma height_is_sum (masses : list (Mass num)) (x y : num) :
  gravitationalHeight masses x y = spec_height masses x y.
Proof.
  unfold gravitationalHeight, spec_height, sumOver.
  generalize (lit 0 : num).
  induction masses as [|mass rest IH]; intros total; cbn [fold_left].
  - reflexivity.
  - rewrite <- IH. f_equal. unfold heightStep, wellTerm, distanceToMass.
    apply sub_add_neg.
Qed.

End HeightSum.

(** ** The program over the real numbers *)

Section ExactArithmetic.

Local Open Scope R_scope.

Lemma lit_0 : (lit 0 : R) = 0.
Proof. cbn. unfold Q2R. cbn. lra. Qed.

Lemma lit_1 : (lit 1 : R) = 1.
Proof. cbn. unfold Q2R. cbn. lra. Qed.

Lemma lit_2 : (lit 2 : R) = 2.
Proof. cbn. unfold Q2R. cbn. lra. Qed.

Lemma lit_2_0 : (lit 2.0 : R) = 2.
Proof. cbn. unfold Q2R. cbn. lra. Qed.

Lemma lit_half : (lit 0.5 : R) = / 2.
Proof. cbn. unfold Q2R. cbn. lra. Qed.

Lemma lit_milli : (lit 0.001 : R) = / 1000.
Proof. cbn. unfold Q2R. cbn. lra. Qed.

Lemma lessThan_Rlt (a b : R) : lessThan a b <-> a < b.
Proof.
  unfold lessThan. cbn. unfold Rltb.
  destruct (Rlt_dec a b); split; auto; discriminate.
Qed.

Lemma metric_symmetric (masses : list (Mass R)) (x y : R) :
  g21 (computeMetric masses x y) = g12 (computeMetric masses x y).
Proof. reflexivity. Qed.

(** The determinant of the induced metric is [1 + dzdx^2 + dzdy^2]: the
    metric of a graph surface is never singular in exact arithmetic. *)
Lemma metric_det (masses : list (Mass R)) (x y : R) :
  let gr := computeGradient masses x y (lit 0.01) in
  spec_det masses x y = 1 + dzdx gr * dzdx gr + dzdy gr * dzdy gr.
Proof.
  cbv zeta. unfold spec_det, computeMetric. cbv zeta.
  generalize (computeGradient masses x y (lit 0.01)). intros gr.
  cbn [g11 g12 g21 g22]. rewrite lit_1. cbn [add sub mul Exact]. ring.
Qed.

Lemma metric_det_ge_1 (masses : list (Mass R)) (x y : R) :
  1 <= spec_det masses x y.
Proof.
  rewrite metric_det. cbv zeta.
  generalize (computeGradient masses x y (lit 0.01)). intros gr. nra.
Qed.

(** C1. For every query point and step, [computeChristoffel] evaluates the
    metric on the five-point stencil, differences it with step [2 eps],
    inverts it in closed form with [det = g11 g22 - g12 g21], and returns
    for each of its six fields the contraction
    [1/2 g^il (d_k g_lj + d_j g_lk - d_l g_jk)] summed over [l = 1] and
    [l = 2], the off-diagonal [g^12], [g^21] included.  The equality is
    one of real numbers (the source writes the sum simplified); the
    symbols are symmetric in the lower indices and the closed form is the
    inverse of the metric. *)
Theorem computeChristoffel_full_contraction :
  forall (masses : list (Mass R)) (x y eps : R),
    computeChristoffel masses x y eps =
    {| G111 := spec_Gamma masses x y eps X1 X1 X1;
       G112 := spec_Gamma masses x y eps X1 X1 X2;
       G122 := spec_Gamma masses x y eps X1 X2 X2;
       G211 := spec_Gamma masses x y eps X2 X1 X1;
       G212 := spec_Gamma masses x y eps X2 X1 X2;
       G222 := spec_Gamma masses x y eps X2 X2 X2 |} /\
    (forall i, spec_Gamma masses x y eps i X2 X1 = spec_Gamma masses x y eps i X1 X2) /\
    (forall i j,
       component (computeMetric masses x y) i X1 * spec_inverseMetric masses x y X1 j
       + component (computeMetric masses x y) i X2 * spec_inverseMetric masses x y X2 j
       = match i, j with X1, X1 | X2, X2 => 1 | _, _ => 0 end).
Proof.
  intros masses x y eps. split; [|split].
  - unfold computeChristoffel, spec_Gamma, spec_bracket, spec_dMetric,
      spec_inverseMetric, spec_det, component.
    cbv zeta. rewrite !metric_symmetric.
    generalize (computeMetric masses x y)
      (computeMetric masses (x + eps)%num y) (computeMetric masses (x - eps)%num y)
      (computeMetric masses x (y + eps)%num) (computeMetric masses x (y - eps)%num).
    intros g gxp gxm gyp gym.
    rewrite lit_2. cbn [add sub mul div neg Exact].
    f_equal; unfold Rdiv; ring.
  - intros i.
    unfold spec_Gamma, spec_bracket, spec_dMetric, spec_inverseMetric, component.
    rewrite !metric_symmetric.
    generalize (spec_det masses x y) (computeMetric masses x y)
      (computeMetric masses (x + eps)%num y) (computeMetric masses (x - eps)%num y)
      (computeMetric masses x (y + eps)%num) (computeMetric masses x (y - eps)%num).
    intros det g gxp gxm gyp gym.
    cbn [add sub mul div neg Exact].
    destruct i; unfold Rdiv; ring.
  - intros i j.
    pose proof (metric_det_ge_1 masses x y) as Hdet.
    unfold spec_inverseMetric, component. revert Hdet. unfold spec_det.
    rewrite !metric_symmetric.
    generalize (computeMetric masses x y). intros g.
    cbn [add sub mul div neg Exact]. intros Hdet.
    destruct i, j; field; lra.
Qed.

(** The total acceleration in exact arithmetic, in the form of the geodesic
    equation. *)
Lemma totalAcceleration_exact (masses : list (Mass R)) (pos vel : Vec2 R) :
  let G := computeChristoffel masses (vec_x pos) (vec_y pos) (lit 0.02) in
  let gr := computeGradient masses (vec_x pos) (vec_y pos) (lit 0.01) in
  let vx := vec_x vel in
  let vy := vec_y vel in
  totalAcceleration masses pos vel =
  if Rlt_dec (R_sqrt.sqrt (vx * vx + vy * vy)) (/ 1000)
  then vec2 (- 2 * dzdx gr) (- 2 * dzdy gr)
  else vec2 (- (G111 G * vx ^ 2 + 2 * G112 G * vx * vy + G122 G * vy ^ 2)
             - 2 * dzdx gr)
            (- (G211 G * vx ^ 2 + 2 * G212 G * vx * vy + G222 G * vy ^ 2)
             - 2 * dzdy gr).
Proof.
  cbv zeta. unfold totalAcceleration, geodesicAcceleration, computeEffectiveGravity.
  cbv zeta.
  generalize (computeChristoffel masses (vec_x pos) (vec_y pos) (lit 0.02))
    (computeGradient masses (vec_x pos) (vec_y pos) (lit 0.01)).
  intros G gr.
  rewrite lit_milli, lit_0, lit_2, lit_2_0.
  cbn [add sub mul div neg Math_sqrt ltb Exact]. unfold Rltb.
  destruct (Rlt_dec _ _); cbn [vec_x vec_y]; f_equal; ring.
Qed.

(** The earlier revision computes the diagonal-only shortcut: of the sum
    over [l] it keeps the term [l = i]. *)
Lemma earlier_revision_diagonal_only (masses : list (Mass R)) (x y eps : R) :
  Rev1.computeChristoffel masses x y eps =
  {| G111 := diagonal_Gamma masses x y eps X1 X1 X1;
     G112 := diagonal_Gamma masses x y eps X1 X1 X2;
     G122 := diagonal_Gamma masses x y eps X1 X2 X2;
     G211 := diagonal_Gamma masses x y eps X2 X1 X1;
     G212 := diagonal_Gamma masses x y eps X2 X1 X2;
     G222 := diagonal_Gamma masses x y eps X2 X2 X2 |}.
Proof.
  unfold Rev1.computeChristoffel, diagonal_Gamma, spec_bracket, spec_dMetric,
    spec_inverseMetric, spec_det, component.
  cbv zeta. rewrite !metric_symmetric.
  generalize (computeMetric masses x y)
    (computeMetric masses (x + eps)%num y) (computeMetric masses (x - eps)%num y)
    (computeMetric masses x (y + eps)%num) (computeMetric masses x (y - eps)%num).
  intros g gxp gxm gyp gym.
  rewrite lit_2. cbn [add sub mul div neg Exact].
  f_equal; unfold Rdiv; ring.
Qed.

Lemma real_sub_add_neg (a b : R) : (a - b)%num = (a + - b)%num.
Proof. reflexivity. Qed.

Lemma distanceToMass_nonneg (x y : R) (mass : Mass R) :
  0 <= distanceToMass x y mass.
Proof. unfold distanceToMass. cbn [Math_sqrt Exact]. apply sqrt_pos. Qed.

Lemma distanceToMass_centre (mass : Mass R) :
  distanceToMass (mass_x mass) (mass_y mass) mass = 0.
Proof.
  unfold distanceToMass. cbn [add sub mul Math_sqrt Exact].
  replace (_ + _) with 0 by ring. apply sqrt_0.
Qed.

(** The height in exact arithmetic: the sum, its denominators, and the
    value at the centre of a mass. *)
Lemma height_exact (masses : list (Mass R)) (x y : R) :
  gravitationalHeight masses x y = spec_height masses x y /\
  (forall mass,
     0 <= distanceToMass x y mass /\
     lit 0.5 <= distanceToMass x y mass + lit 0.5 /\
     0 < distanceToMass x y mass + lit 0.5) /\
  (forall mass,
     x = mass_x mass -> y = mass_y mass ->
     distanceToMass x y mass = 0 /\
     wellTerm x y mass = - (strength mass / lit 0.5)).
Proof.
  split; [|split].
  - apply height_is_sum, real_sub_add_neg.
  - intros mass. pose proof (distanceToMass_nonneg x y mass) as Hd.
    rewrite lit_half. cbn [add Exact]. repeat split; lra.
  - intros mass -> ->. pose proof (distanceToMass_centre mass) as Hd.
    split; [exact Hd|]. unfold wellTerm. rewrite Hd, lit_half.
    cbn [add div neg Exact]. f_equal. f_equal. ring.
Qed.

Lemma single_well_height (mass : Mass R) (x y : R) :
  gravitationalHeight [mass] x y
  = - (strength mass / (distanceToMass x y mass + / 2)).
Proof.
  unfold gravitationalHeight. cbn [fold_left]. unfold heightStep.
  fold (distanceToMass x y mass).
  rewrite lit_0, lit_half. cbn [add sub div neg Exact]. ring.
Qed.

Lemma single_well_increasing (s dp dq : R) :
  0 < s -> 0 <= dp -> dp < dq ->
  - (s / (dp + / 2)) < - (s / (dq + / 2)).
Proof.
  intros Hs Hp Hd.
  assert (Hinv : / (dq + / 2) < / (dp + / 2))
    by (apply Rinv_lt_contravar; nra).
  unfold Rdiv. nra.
Qed.

(** The well is monotone in the real-number reading, in the vocabulary of
    the interface. *)
Lemma monotoneWell_exact : monotoneWell R.
Proof.
  intros mass px py qx qy Hs Hd.
  apply lessThan_Rlt. apply lessThan_Rlt in Hs, Hd. rewrite lit_0 in Hs.
  rewrite !single_well_height.
  apply single_well_increasing; auto using distanceToMass_nonneg.
Qed.

(** C9 in exact arithmetic: for one mass of positive strength the height is
    strictly lower at the point strictly nearer to the mass. *)
Theorem monotone_well_exact :
  forall (mass : Mass R) (px py qx qy : R),
    0 < strength mass ->
    distanceToMass px py mass < distanceToMass qx qy mass ->
    gravitationalHeight [mass] px py < gravitationalHeight [mass] qx qy.
Proof.
  intros mass px py qx qy Hs Hd.
  rewrite !single_well_height.
  apply single_well_increasing; auto using distanceToMass_nonneg.
Qed.

End ExactArithmetic.

(** C2. Over any arithmetic, binary64 included: the geodesic term is
    exactly (0, 0) when the speed [sqrt(vx*vx + vy*vy)] is below 0.001 and
    minus the quadratic form of the Christoffel symbols at [pos] in the
    velocity otherwise; the effective gravity is minus the gradient at
    [pos] times 2.0; the acceleration that every stage of the integrator
    evaluates is their sum.  Over the reals that sum is
    [-(G111 vx^2 + 2 G112 vx vy + G122 vy^2) - 2 dzdx] (and the like in
    [y]) at speed 0.001 or more and [-2 dzdx] below. *)
Theorem totalAcceleration_formula :
  (forall (num : Type) (arithmetic : JSNumber num)
          (masses : list (Mass num)) (pos vel : Vec2 num),
     let G := computeChristoffel masses (vec_x pos) (vec_y pos) (lit 0.02) in
     let gr := computeGradient masses (vec_x pos) (vec_y pos) (lit 0.01) in
     let vx := vec_x vel in
     let vy := vec_y vel in
     let speed := Math_sqrt (vx * vx + vy * vy) in
     let geodesic :=
       if speed <? lit 0.001 then vec2 (lit 0) (lit 0)
       else vec2 (- (G111 G * vx * vx + lit 2 * G112 G * vx * vy + G122 G * vy * vy))
                 (- (G211 G * vx * vx + lit 2 * G212 G * vx * vy + G222 G * vy * vy)) in
     let gravity := vec2 (- dzdx gr * lit 2.0) (- dzdy gr * lit 2.0) in
     geodesicAcceleration masses pos vel = geodesic /\
     computeEffectiveGravity masses pos = gravity /\
     totalAcceleration masses pos vel
     = vec2 (vec_x geodesic + vec_x gravity) (vec_y geodesic + vec_y gravity) /\
     forall dt, integrateRK4 masses pos vel dt
                = rk4Step (totalAcceleration masses) pos vel dt)%num /\
  (forall (masses : list (Mass R)) (pos vel : Vec2 R),
     let G := computeChristoffel masses (vec_x pos) (vec_y pos) (lit 0.02) in
     let gr := computeGradient masses (vec_x pos) (vec_y pos) (lit 0.01) in
     let vx := vec_x vel in
     let vy := vec_y vel in
     totalAcceleration masses pos vel =
     if Rlt_dec (R_sqrt.sqrt (vx * vx + vy * vy)) (/ 1000)
     then vec2 (- 2 * dzdx gr) (- 2 * dzdy gr)
     else vec2 (- (G111 G * vx ^ 2 + 2 * G112 G * vx * vy + G122 G * vy ^ 2)
                - 2 * dzdx gr)
               (- (G211 G * vx ^ 2 + 2 * G212 G * vx * vy + G222 G * vy ^ 2)
                - 2 * dzdy gr))%R.
Proof.
  split.
  - intros num arithmetic masses pos vel.
    exact (totalAcceleration_unfolded masses pos vel).
  - exact totalAcceleration_exact.
Qed.

(** ** The program over binary64 *)

Section Binary64Arithmetic.

Local Open Scope float_scope.

(** The literals of the source are the binary64 values the parser gives
    them. *)
Lemma float_literals :
  (lit 0 : float) = 0 /\ (lit 1 : float) = 1 /\ (lit 2 : float) = 2 /\
  (lit 2.0 : float) = 2 /\ (lit 4 : float) = 4 /\ (lit 6 : float) = 6 /\
  (lit 0.5 : float) = 0.5 /\ (lit 0.3 : float) = 0.3 /\
  (lit 0.01 : float) = 0.01 /\ (lit 0.02 : float) = 0.02 /\
  (lit 0.001 : float) = 0.001 /\ (lit (-5) : float) = -5 /\ (lit 5 : float) = 5.
Proof. repeat split. Qed.

Lemma finite_spec (x : float) :
  finite x = true ->
  (exists s, Prim2SF x = S754_zero s) \/
  (exists s m e, Prim2SF x = S754_finite s m e).
Proof.
  unfold finite, PrimFloat.is_finite, PrimFloat.is_nan, PrimFloat.is_infinity.
  rewrite !FloatAxioms.eqb_spec, abs_spec.
  destruct (Prim2SF x) as [s|s| |s m e] eqn:E; cbn.
  - eauto.
  - destruct s; cbn; discriminate.
  - discriminate.
  - eauto 6.
Qed.

(** [x - x] is [+0] for every finite [x]. *)
Lemma float_sub_diag (x : float) : finite x = true -> x - x = 0.
Proof.
  intros Hx. apply Prim2SF_inj. rewrite sub_spec.
  destruct (finite_spec x Hx) as [[s ->] | (s & m & e & ->)].
  - destruct s; reflexivity.
  - unfold SF64sub, SFsub. rewrite Z.sub_diag. reflexivity.
Qed.

(** [x - y] is [x + (-y)], bit for bit. *)
Lemma float_sub_add_opp (x y : float) : x - y = x + - y.
Proof.
  apply Prim2SF_inj. rewrite sub_spec, add_spec, opp_spec.
  destruct (Prim2SF x) as [sx|sx| |sx mx ex], (Prim2SF y) as [sy|sy| |sy my ey];
    try reflexivity.
  - destruct sx, sy; reflexivity.
  - destruct sx, sy; reflexivity.
  - unfold SF64sub, SF64add, SFsub, SFadd, SFopp.
    destruct sy; reflexivity.
Qed.

(** Scenario 2 in binary64: at the centre of a mass with finite
    coordinates the distance is 0, the denominator 0.5, and the height of
    that mass [0 - strength / 0.5]. *)
Lemma height_at_centre (mx my s : float) :
  finite mx = true -> finite my = true ->
  gravitationalHeight [mkMass mx my s] mx my = 0 - s / 0.5.
Proof.
  intros Hx Hy. unfold gravitationalHeight. cbn [fold_left]. unfold heightStep.
  cbn [mass_x mass_y strength]. cbn [sub Binary64].
  rewrite (float_sub_diag _ Hx), (float_sub_diag _ Hy).
  reflexivity.
Qed.

(** On the predefined levels the height at the centre of every mass is a
    finite number. *)
Lemma predefined_centres_finite :
  forallb (fun masses => allFinite (centreHeights masses)) predefinedMasses = true.
Proof. vm_compute. reflexivity. Qed.

Example level1_centre_height : gravitationalHeight level1Masses 0 0 = -3.
Proof. vm_compute. reflexivity. Qed.

(** With no mass the field is flat: height 0, the identity metric, all
    symbols 0, at every query point. *)
Lemma flat_field (x y : float) :
  gravitationalHeight [] x y = 0 /\
  computeMetric [] x y = mkMetric 1 0 0 1 /\
  computeChristoffel [] x y (lit 0.02) = mkChristoffel 0 0 0 0 0 0.
Proof. repeat split. Qed.

(** C3, witnessed: level 1, a goal at (6, 0) outside the play area, the
    particle at the goal. *)
Lemma trajectory_check_priority_witness :
  reachedGoal (snd (trajectoryLoop level1Masses farGoalOptions 3 [] (vec2 6 0) atRest))
  = true /\
  outOfBounds (snd (trajectoryLoop level1Masses farGoalOptions 3 [] (vec2 6 0) atRest))
  = false.
Proof.
  apply (proj2 (proj2 (proj2
           (trajectory_check_priority level1Masses farGoalOptions 2 []
              (vec2 6 0) atRest)))).
  - vm_compute. reflexivity.
  - vm_compute. reflexivity.
Defined.

(** C6, witnessed: the preview of level 1, called on a store that holds
    nothing yet and on one that holds what a run might have left. *)
Lemma computeTrajectory_deterministic_witness :
  let clean := mkStore level1Masses [] origin atRest false false 0 false in
  let used :=
    mkStore level1Masses [point3 1 2 3] (vec2 4 5) (vec2 6 7) true true 7 true in
  moduleMasses clean = moduleMasses used /\
  exists result left left',
    computeTrajectoryOn (vec2 (-3.5) 0) (vec2 2 0) previewOptions clean
    = Some (result, left) /\
    computeTrajectoryOn (vec2 (-3.5) 0) (vec2 2 0) previewOptions used
    = Some (result, left').
Proof.
  cbv zeta. split; [reflexivity|].
  destruct (@computeTrajectory_deterministic float Binary64
              (vec2 (-3.5) 0) (vec2 2 0) previewOptions
              (mkStore level1Masses [] origin atRest false false 0 false)
              (mkStore level1Masses [point3 1 2 3] (vec2 4 5) (vec2 6 7)
                 true true 7 true)
              eq_refl)
    as (result & left & left' & _ & R1 & R2 & _).
  exists result, left, left'. split; [exact R1 | exact R2].
Defined.

(** C4 refuted as worded.  At rest at the origin, one step on the empty
    field exhausts [maxSteps = 1]; with a mass of strength zero at the
    origin the same step is a capture, 1999 iterations early.  The two
    returned objects are equal. *)
Lemma capture_not_readable : ~ outcomeReadable float.
Proof.
  intros [classify Hc].
  pose proof (Hc [] origin atRest (plainOptions 1) ltac:(cbn; lia)) as HA.
  pose proof (Hc ghostMass origin atRest (plainOptions 2000) ltac:(cbn; lia)) as HB.
  assert (E : computeTrajectory [] origin atRest (plainOptions 1)
              = computeTrajectory ghostMass origin atRest (plainOptions 2000))
    by (vm_compute; reflexivity).
  assert (OA : trajectoryOutcome [] origin atRest (plainOptions 1) = Exhausted)
    by (vm_compute; reflexivity).
  assert (OB : trajectoryOutcome ghostMass origin atRest (plainOptions 2000) = Captured)
    by (vm_compute; reflexivity).
  rewrite E, HB, OB in HA. rewrite OA in HA. discriminate HA.
Qed.

(** C10 refuted as worded.  A particle at rest on the empty field does not
    move: after an exhausted run [finalPos] is the [(x, y)] of every
    recorded point. *)
Lemma finalPos_can_be_recorded : ~ finalPosNeverRecorded float.
Proof.
  intros Hclaim.
  apply (Hclaim [] origin atRest (plainOptions 3)
           ltac:(cbn; lia) ltac:(right; vm_compute; reflexivity)
           (point3 0 0 0)).
  - vm_compute. auto.
  - vm_compute. auto.
Qed.

(** C9 refuted as worded.  Level 1's mass; [p] at its centre and [q] at
    distance [2^-60]: the distances are 0 and [2^-60], and both heights
    are -3, since [2^-60 + 0.5] rounds to 0.5. *)
Lemma monotone_well_binary64_fails : ~ monotoneWell float.
Proof.
  intros Hclaim.
  specialize (Hclaim (mkMass 0 0 1.5) 0 0 0x1p-60 0).
  cut (lessThan (gravitationalHeight [mkMass 0 0 1.5] 0 0)
                (gravitationalHeight [mkMass 0 0 1.5] 0x1p-60 0)).
  - vm_compute. discriminate.
  - apply Hclaim; vm_compute; reflexivity.
Qed.

(** C8 refuted as worded.  With no mass configured the height and the six
    symbols at the origin are finite. *)
Lemma degenerate_can_be_finite : ~ degenerateIsNonFinite.
Proof.
  intros Hclaim.
  destruct (Hclaim [] 0 0 (NoMasses 0 0 eq_refl)) as [Hh | HG];
    vm_compute in *; discriminate.
Qed.

(** Nor at the centre of a mass: on level 1, queried at the mass, the
    height and the six symbols are finite. *)
Example centre_query_is_finite :
  Degenerate level1Masses 0 0 /\
  finite (gravitationalHeight level1Masses 0 0) = true /\
  finiteChristoffel (computeChristoffel level1Masses 0 0 0.02) = true.
Proof.
  split.
  - apply AtMassCentre. exists (mkMass 0 0 1.5). cbn. auto.
  - vm_compute. auto.
Qed.

(** *** Values that are not finite *)

(** [finite] read off the representation. *)
Lemma finite_representation (x : float) :
  finite x = match Prim2SF x with
             | S754_nan | S754_infinity _ => false
             | _ => true
             end.
Proof.
  unfold finite, PrimFloat.is_finite, PrimFloat.is_nan, PrimFloat.is_infinity.
  rewrite !FloatAxioms.eqb_spec, abs_spec.
  destruct (Prim2SF x) as [s|s| |s m e]; cbn; try reflexivity.
  - destruct s; reflexivity.
  - unfold SFeqb, SFcompare.
    destruct s; rewrite Z.compare_refl, Pos.compare_cont_refl; reflexivity.
Qed.

Lemma zero_representation (d : float) :
  PrimFloat.eqb d 0 = true -> exists s, Prim2SF d = S754_zero s.
Proof.
  rewrite FloatAxioms.eqb_spec.
  destruct (Prim2SF d) as [s|s| |s m e]; cbn; try discriminate; eauto;
    destruct s; discriminate.
Qed.

(** A division by zero gives an infinity or NaN, whatever is divided. *)
Lemma div_by_zero_not_finite (a d : float) :
  PrimFloat.eqb d 0 = true -> finite (a / d) = false.
Proof.
  intros Hd. destruct (zero_representation Hd) as [s Hs].
  rewrite finite_representation, div_spec, Hs.
  destruct (Prim2SF a) as [sa|sa| |sa ma ea]; reflexivity.
Qed.

Lemma mul_not_finite_l (a b : float) :
  finite a = false -> finite (a * b) = false.
Proof.
  rewrite !finite_representation, mul_spec.
  destruct (Prim2SF a) as [sa|sa| |sa ma ea]; try discriminate; intros _;
    destruct (Prim2SF b) as [sb|sb| |sb mb eb]; reflexivity.
Qed.

Lemma mul_not_finite_r (a b : float) :
  finite b = false -> finite (a * b) = false.
Proof.
  rewrite !finite_representation, mul_spec.
  destruct (Prim2SF b) as [sb|sb| |sb mb eb]; try discriminate; intros _;
    destruct (Prim2SF a) as [sa|sa| |sa ma ea]; reflexivity.
Qed.

Lemma add_not_finite_l (a b : float) :
  finite a = false -> finite (a + b) = false.
Proof.
  rewrite !finite_representation, add_spec.
  destruct (Prim2SF a) as [sa|sa| |sa ma ea]; try discriminate; intros _;
    destruct (Prim2SF b) as [sb|sb| |sb mb eb]; try reflexivity.
  destruct sa, sb; reflexivity.
Qed.

(** [0 - a] is finite exactly when [a] is. *)
Lemma zero_sub_finite (a : float) : finite (0 - a) = finite a.
Proof.
  rewrite !finite_representation, sub_spec.
  destruct (Prim2SF a) as [sa|sa| |sa ma ea]; try reflexivity.
  destruct sa; reflexivity.
Qed.

(** NaN goes through every operation and fails every comparison. *)
Lemma add_nan_l (b : float) : nan + b = nan.
Proof.
  apply Prim2SF_inj. rewrite add_spec.
  destruct (Prim2SF b); reflexivity.
Qed.

Lemma sub_nan_l (b : float) : nan - b = nan.
Proof.
  apply Prim2SF_inj. rewrite sub_spec.
  destruct (Prim2SF b); reflexivity.
Qed.

Lemma sub_nan_r (b : float) : b - nan = nan.
Proof.
  apply Prim2SF_inj. rewrite sub_spec.
  destruct (Prim2SF b); reflexivity.
Qed.

Lemma div_nan_r (b : float) : b / nan = nan.
Proof.
  apply Prim2SF_inj. rewrite div_spec.
  destruct (Prim2SF b); reflexivity.
Qed.

Lemma ltb_nan_l (b : float) : PrimFloat.ltb nan b = false.
Proof. rewrite ltb_spec. destruct (Prim2SF b); reflexivity. Qed.

Lemma ltb_nan_r (b : float) : PrimFloat.ltb b nan = false.
Proof. rewrite ltb_spec. destruct (Prim2SF b); reflexivity. Qed.

Lemma opp_finite (a : float) : finite (- a) = finite a.
Proof.
  rewrite !finite_representation, opp_spec.
  destruct (Prim2SF a) as [sa|sa| |sa ma ea]; reflexivity.
Qed.

Lemma add_not_finite_r (a b : float) :
  finite b = false -> finite (a + b) = false.
Proof.
  rewrite !finite_representation, add_spec.
  destruct (Prim2SF b) as [sb|sb| |sb mb eb]; try discriminate; intros _;
    destruct (Prim2SF a) as [sa|sa| |sa ma ea]; try reflexivity.
  destruct sa, sb; reflexivity.
Qed.

Lemma sub_not_finite_l (a b : float) :
  finite a = false -> finite (a - b) = false.
Proof.
  rewrite !finite_representation, sub_spec.
  destruct (Prim2SF a) as [sa|sa| |sa ma ea]; try discriminate; intros _;
    destruct (Prim2SF b) as [sb|sb| |sb mb eb]; try reflexivity.
  destruct sa, sb; reflexivity.
Qed.

Lemma div_not_finite_l (a b : float) :
  finite a = false -> finite (a / b) = false.
Proof.
  rewrite !finite_representation, div_spec.
  destruct (Prim2SF a) as [sa|sa| |sa ma ea]; try discriminate; intros _;
    destruct (Prim2SF b) as [sb|sb| |sb mb eb]; reflexivity.
Qed.

(** The distance from a point with a coordinate that is not finite is NaN
    or [+Infinity]: below no radius. *)
Lemma distance_not_below (dx b r : float) :
  finite dx = false -> PrimFloat.ltb (PrimFloat.sqrt (dx * dx + b)) r = false.
Proof.
  rewrite finite_representation, ltb_spec, sqrt_spec, add_spec, mul_spec.
  destruct (Prim2SF dx) as [s|s| |s m e]; try discriminate; intros _.
  - replace (SF64mul (S754_infinity s) (S754_infinity s))
      with (S754_infinity false) by (destruct s; reflexivity).
    destruct (Prim2SF b) as [sb|sb| |sb mb eb]; try (destruct sb);
      destruct (Prim2SF r) as [sr|sr| |sr mr er]; try (destruct sr); reflexivity.
  - destruct (Prim2SF b), (Prim2SF r); reflexivity.
Qed.

Ltac not_finite :=
  repeat first
    [ assumption
    | apply div_by_zero_not_finite; assumption
    | rewrite opp_finite
    | apply mul_not_finite_l
    | apply add_not_finite_l
    | apply div_not_finite_l
    | apply sub_not_finite_l ].

(** A determinant that is zero leaves none of the six symbols finite. *)
Lemma singular_metric_symbols (masses : list (Mass float)) (x y eps : float) :
  PrimFloat.eqb (spec_det masses x y) 0 = true ->
  Forall (fun G => finite G = false) (symbols (computeChristoffel masses x y eps)).
Proof.
  unfold spec_det. cbv zeta. intros Hdet.
  unfold symbols, computeChristoffel. cbv zeta.
  cbn [G111 G112 G122 G211 G212 G222].
  cbn [add sub mul div neg Binary64] in *.
  repeat constructor; apply mul_not_finite_r; not_finite.
Qed.

(** Past the low-speed test, a singular metric leaves neither component of
    the acceleration finite. *)
Lemma singular_metric_acceleration (masses : list (Mass float)) (pos vel : Vec2 float) :
  PrimFloat.eqb (spec_det masses (vec_x pos) (vec_y pos)) 0 = true ->
  (length2D vel <? lit 0.001)%num = false ->
  finite (vec_x (totalAcceleration masses pos vel)) = false /\
  finite (vec_y (totalAcceleration masses pos vel)) = false.
Proof.
  intros Hdet Hspeed.
  pose proof (singular_metric_symbols (lit 0.02) Hdet)
    as HG.
  unfold symbols in HG.
  inversion HG as [|? ? H111 HG1]; subst. inversion HG1 as [|? ? H112 HG2]; subst.
  inversion HG2 as [|? ? H122 HG3]; subst. inversion HG3 as [|? ? H211 HG4]; subst.
  clear HG HG1 HG2 HG3 HG4.
  unfold totalAcceleration, geodesicAcceleration. cbv zeta.
  unfold length2D in Hspeed. rewrite Hspeed.
  cbn [vec_x vec_y]. cbn [add sub mul div neg Binary64].
  split; not_finite.
Qed.

(** One Runge-Kutta step from an acceleration that is not finite: nothing
    of the new position and velocity is finite. *)
Lemma rk4Step_not_finite (acc : Vec2 float -> Vec2 float -> Vec2 float)
    (pos vel : Vec2 float) (dt : float) :
  finite (vec_x (acc pos vel)) = false ->
  finite (vec_y (acc pos vel)) = false ->
  let next := rk4Step acc pos vel dt in
  finite (vec_x (st_pos next)) = false /\ finite (vec_y (st_pos next)) = false /\
  finite (vec_x (st_vel next)) = false /\ finite (vec_y (st_vel next)) = false.
Proof.
  intros Hx Hy. unfold rk4Step. cbv zeta.
  cbn [st_pos st_vel vec_x vec_y scale2D add2D].
  cbn [add sub mul div neg Binary64].
  repeat split.
  - apply add_not_finite_r, div_not_finite_l.
    do 2 apply add_not_finite_l. apply add_not_finite_r, mul_not_finite_r.
    apply mul_not_finite_l, add_not_finite_r. not_finite.
  - apply add_not_finite_r, div_not_finite_l.
    do 2 apply add_not_finite_l. apply add_not_finite_r, mul_not_finite_r.
    apply mul_not_finite_l, add_not_finite_r. not_finite.
  - apply add_not_finite_r. not_finite.
  - apply add_not_finite_r. not_finite.
Qed.

(** A position with a coordinate that is not finite is within no goal
    radius and too close to no mass. *)
Lemma not_finite_no_goal (options : Options float) (pos : Vec2 float) :
  finite (vec_x pos) = false -> goalReached options pos = false.
Proof.
  intros Hx. unfold goalReached. destruct (goalPos options) as [goal|]; [|reflexivity].
  unfold length2D. cbn [vec_x vec_y]. cbn [add sub mul Math_sqrt ltb Binary64].
  apply distance_not_below, sub_not_finite_l, Hx.
Qed.

Lemma not_finite_not_tooClose (masses : list (Mass float)) (pos : Vec2 float) :
  finite (vec_x pos) = false -> tooClose masses pos = false.
Proof.
  intros Hx. unfold tooClose.
  induction masses as [|mass rest IH]; [reflexivity|].
  cbn [existsb]. rewrite IH, orb_false_r.
  unfold length2D. cbn [vec_x vec_y]. cbn [add sub mul Math_sqrt ltb Binary64].
  apply distance_not_below, sub_not_finite_l, Hx.
Qed.

(** One step from a singular metric, past the low-speed test: nothing of
    the new position and velocity is finite. *)
Lemma singular_metric_step (masses : list (Mass float)) (pos vel : Vec2 float)
    (dt : float) :
  PrimFloat.eqb (spec_det masses (vec_x pos) (vec_y pos)) 0 = true ->
  (length2D vel <? lit 0.001)%num = false ->
  let next := integrateRK4 masses pos vel dt in
  finite (vec_x (st_pos next)) = false /\ finite (vec_y (st_pos next)) = false /\
  finite (vec_x (st_vel next)) = false /\ finite (vec_y (st_vel next)) = false.
Proof.
  intros Hdet Hspeed.
  destruct (@singular_metric_acceleration masses pos vel Hdet Hspeed) as [Hax Hay].
  exact (@rk4Step_not_finite (totalAcceleration masses) pos vel dt Hax Hay).
Qed.

(** With two passes left, the position after that step is recorded in the
    trajectory returned. *)
Lemma singular_metric_recorded (masses : list (Mass float)) (options : Options float)
    (n : nat) (trajectory : list (Point3 float)) (pos vel : Vec2 float) :
  PrimFloat.eqb (spec_det masses (vec_x pos) (vec_y pos)) 0 = true ->
  (length2D vel <? lit 0.001)%num = false ->
  goalReached options pos = false ->
  outsideBounds (bounds options) pos = false ->
  In (recordPoint masses (st_pos (integrateRK4 masses pos vel (dt options))))
     (points (snd (trajectoryLoop masses options (S (S n)) trajectory pos vel))).
Proof.
  intros Hdet Hspeed Hgoal Hout.
  destruct (@singular_metric_step masses pos vel (dt options) Hdet Hspeed)
    as (Hpx & _).
  rewrite trajectoryLoop_step. cbv zeta. rewrite Hgoal, Hout.
  rewrite (@not_finite_not_tooClose masses _ Hpx).
  destruct (@trajectoryLoop_points _ _ masses options (S n)
              (trajectory ++ [recordPoint masses pos])
              (st_pos (integrateRK4 masses pos vel (dt options)))
              (st_vel (integrateRK4 masses pos vel (dt options))))
    as (new & Hpts & Hhead & _).
  rewrite Hpts. destruct new as [|p rest]; [discriminate Hhead|].
  subst p. apply in_or_app. right. left. reflexivity.
Qed.

(** *** NaN *)

Lemma height_nan (masses : list (Mass float)) :
  masses <> [] -> gravitationalHeight masses nan nan = nan.
Proof.
  assert (Hstep : forall h mass, heightStep nan nan h mass = nan).
  { intros h mass. unfold heightStep. cbv zeta.
    cbn [add sub mul div Math_sqrt Binary64].
    rewrite !sub_nan_l.
    replace (PrimFloat.sqrt (nan * nan + nan * nan)) with nan by reflexivity.
    rewrite add_nan_l, div_nan_r. apply sub_nan_r. }
  assert (Hfold : forall rest, fold_left (heightStep nan nan) rest nan = nan).
  { induction rest as [|mass rest IH]; [reflexivity|].
    cbn [fold_left]. now rewrite Hstep. }
  destruct masses as [|mass rest]; [congruence|]. intros _.
  unfold gravitationalHeight. cbn [fold_left]. now rewrite Hstep.
Qed.

Lemma integrateRK4_nan (masses : list (Mass float)) (vel : Vec2 float) (dt : float) :
  st_pos (integrateRK4 masses (vec2 nan nan) vel dt) = vec2 nan nan.
Proof.
  unfold integrateRK4, rk4Step. cbv zeta. cbn [st_pos vec_x vec_y].
  cbn [add Binary64]. now rewrite !add_nan_l.
Qed.

Lemma outsideBounds_nan (b : Bounds float) : outsideBounds b (vec2 nan nan) = false.
Proof.
  unfold outsideBounds. cbn [vec_x vec_y]. cbn [ltb Binary64].
  now rewrite !ltb_nan_l, !ltb_nan_r.
Qed.

(** From a NaN position the loop runs to the end: every pass records the
    same NaN point and takes no exit. *)
Lemma trajectoryLoop_nan (masses : list (Mass float)) (options : Options float)
    (n : nat) :
  forall (trajectory : list (Point3 float)) (vel : Vec2 float),
    trajectoryLoop masses options n trajectory (vec2 nan nan) vel
    = (Exhausted,
       mkResult (trajectory ++ repeat (recordPoint masses (vec2 nan nan)) n)
                false false (vec2 nan nan)).
Proof.
  induction n as [|n IH]; intros trajectory vel.
  - cbn [trajectoryLoop repeat]. now rewrite app_nil_r.
  - rewrite trajectoryLoop_step. cbv zeta.
    rewrite not_finite_no_goal by reflexivity.
    rewrite outsideBounds_nan, integrateRK4_nan.
    rewrite not_finite_not_tooClose by reflexivity.
    rewrite IH. cbn [repeat]. now rewrite <- app_assoc.
Qed.

(** At its centre a mass with finite coordinates is at distance 0, and its
    term of the sum is [-(strength / 0.5)], finite when the quotient is. *)
Lemma wellTerm_at_centre (mass : Mass float) :
  finite (mass_x mass) = true -> finite (mass_y mass) = true ->
  distanceToMass (mass_x mass) (mass_y mass) mass = 0 /\
  wellTerm (mass_x mass) (mass_y mass) mass = - (strength mass / 0.5) /\
  finite (wellTerm (mass_x mass) (mass_y mass) mass) = finite (strength mass / 0.5).
Proof.
  intros Hx Hy.
  assert (Hd : distanceToMass (mass_x mass) (mass_y mass) mass = 0).
  { unfold distanceToMass. cbn [add sub mul Math_sqrt Binary64].
    rewrite (float_sub_diag _ Hx), (float_sub_diag _ Hy). reflexivity. }
  assert (Hw : wellTerm (mass_x mass) (mass_y mass) mass = - (strength mass / 0.5)).
  { unfold wellTerm. rewrite Hd. reflexivity. }
  split; [exact Hd|]. split; [exact Hw|].
  rewrite Hw. apply opp_finite.
Qed.

Lemma height_at_centre_finite (mx my s : float) :
  finite mx = true -> finite my = true ->
  finite (gravitationalHeight [mkMass mx my s] mx my) = finite (s / 0.5).
Proof.
  intros Hx Hy. rewrite (@height_at_centre mx my s Hx Hy). apply zero_sub_finite.
Qed.

(** C8, as the code has it.  No function of physics.js has an error
    result: each returns a number or a record of numbers on every input,
    and every run of [computeTrajectory] stops in one of the four ways of
    its loop.  A NaN or an infinity is a number like any other; whether a
    degenerate input gives one depends on the input.

    - No mass: the height is 0 and the six symbols are 0, at every query
      point.
    - The determinant: over the reals it is at least 1; in binary64 it
      can be 0 (a mass of strength 1e9 seen from (1, 1)).  Where it is,
      none of the six symbols is finite, whatever the masses, the point
      and [eps]; under a particle that is past the low-speed test, nothing
      of the position and velocity after one Runge-Kutta step is finite,
      and if the particle is not at the goal and inside the bounds, with
      two passes left that position is recorded in the trajectory
      returned.  A position that is not finite is within no goal radius
      and too close to no mass; from a NaN position the loop records NaN
      points to the end and returns with both flags [false], as after any
      run that took no exit.
    - The centre of a mass with finite coordinates, alone in the field:
      the height is [0 - strength / 0.5], finite when the quotient is. *)
Theorem degenerate_inputs_binary64 :
  (forall (masses : list (Mass float)) (startPos startVel : Vec2 float)
          (options : Options float),
     exists m,
       stoppedAfter masses options (mkState startPos startVel)
         (maxSteps options) []
         (runTrajectory masses startPos startVel options) m) /\
  (forall (masses : list (Mass R)) (x y : R), (1 <= spec_det masses x y)%R) /\
  spec_det heavyMass 1 1 = 0 /\
  (forall x y,
     gravitationalHeight [] x y = 0 /\
     computeChristoffel [] x y 0.02 = mkChristoffel 0 0 0 0 0 0) /\
  (forall masses x y eps,
     PrimFloat.eqb (spec_det masses x y) 0 = true ->
     Forall (fun G => finite G = false)
       (symbols (computeChristoffel masses x y eps))) /\
  (forall masses pos vel dt,
     PrimFloat.eqb (spec_det masses (vec_x pos) (vec_y pos)) 0 = true ->
     (length2D vel <? lit 0.001)%num = false ->
     let next := integrateRK4 masses pos vel dt in
     finite (vec_x (st_pos next)) = false /\ finite (vec_y (st_pos next)) = false /\
     finite (vec_x (st_vel next)) = false /\ finite (vec_y (st_vel next)) = false) /\
  (forall masses options n trajectory pos vel,
     PrimFloat.eqb (spec_det masses (vec_x pos) (vec_y pos)) 0 = true ->
     (length2D vel <? lit 0.001)%num = false ->
     goalReached options pos = false ->
     outsideBounds (bounds options) pos = false ->
     In (recordPoint masses (st_pos (integrateRK4 masses pos vel (dt options))))
        (points (snd (trajectoryLoop masses options (S (S n)) trajectory pos vel)))) /\
  (forall masses options pos,
     finite (vec_x pos) = false ->
     goalReached options pos = false /\ tooClose masses pos = false) /\
  (forall masses options n trajectory vel,
     trajectoryLoop masses options n trajectory (vec2 nan nan) vel
     = (Exhausted,
        mkResult
          (trajectory
           ++ repeat (point3 nan nan (gravitationalHeight masses nan nan)) n)
          false false (vec2 nan nan))) /\
  (forall masses, masses <> [] -> gravitationalHeight masses nan nan = nan) /\
  (forall mx my s,
     finite mx = true -> finite my = true ->
     gravitationalHeight [mkMass mx my s] mx my = 0 - s / 0.5 /\
     finite (gravitationalHeight [mkMass mx my s] mx my) = finite (s / 0.5)).
Proof.
  split; [|split; [|split; [|split; [|split; [|split; [|split; [|split; [|split; [|split]]]]]]]]].
  - intros masses startPos startVel options. apply runTrajectory_stops.
  - exact metric_det_ge_1.
  - vm_compute. reflexivity.
  - intros x y. split; reflexivity.
  - intros masses x y eps. apply singular_metric_symbols.
  - intros masses pos vel dt. apply singular_metric_step.
  - intros masses options n trajectory pos vel.
    apply singular_metric_recorded.
  - intros masses options pos Hx. split.
    + apply not_finite_no_goal, Hx.
    + apply not_finite_not_tooClose, Hx.
  - intros masses options n trajectory vel. apply trajectoryLoop_nan.
  - exact height_nan.
  - intros mx my s Hx Hy. split.
    + apply height_at_centre; assumption.
    + apply height_at_centre_finite; assumption.
Qed.

(** Each of the three inputs, in numbers.  The determinant is 0 for a mass
    of strength 1e9 seen from (1, 1), and for one of strength 1e8 seen
    from its centre; at the centre of level 1's mass it is not, and the
    height and the symbols there are finite.  The height at the centre of a
    mass of strength 1e308 is [-Infinity]. *)
Example degenerate_inputs_in_numbers :
  (spec_det heavyMass 1 1 = 0 /\
   symbols (computeChristoffel heavyMass 1 1 0.02) = [nan; nan; nan; nan; nan; nan] /\
   runTrajectory heavyMass (vec2 1 1) atRest (plainOptions 3) =
   (Exhausted,
    mkResult [point3 1 1 (gravitationalHeight heavyMass 1 1);
              point3 nan nan nan; point3 nan nan nan]
             false false (vec2 nan nan))) /\
  (spec_det strongMass 0 0 = 0 /\
   symbols (computeChristoffel strongMass 0 0 0.02)
   = [neg_infinity; nan; infinity; infinity; nan; neg_infinity]) /\
  (finite (gravitationalHeight level1Masses 0 0) = true /\
   finiteChristoffel (computeChristoffel level1Masses 0 0 0.02) = true) /\
  gravitationalHeight overflowMass 0 0 = neg_infinity.
Proof. repeat split; vm_compute; reflexivity. Qed.

(** C8, witnessed: a mass of strength 1e9 seen from (1, 1) by a particle
    of velocity (1, 0), which is inside the play area and at no goal. *)
Lemma degenerate_inputs_binary64_witness :
  let next := integrateRK4 heavyMass (vec2 1 1) (vec2 1 0) 0.01 in
  (PrimFloat.eqb (spec_det heavyMass 1 1) 0 = true /\
   (length2D (vec2 1 0) <? lit 0.001)%num = false /\
   goalReached (plainOptions 3) (vec2 1 1) = false /\
   outsideBounds levelBounds (vec2 1 1) = false) /\
  Forall (fun G => finite G = false)
    (symbols (computeChristoffel heavyMass 1 1 0.02)) /\
  (finite (vec_x (st_pos next)) = false /\ finite (vec_y (st_pos next)) = false /\
   finite (vec_x (st_vel next)) = false /\ finite (vec_y (st_vel next)) = false) /\
  In (recordPoint heavyMass (st_pos next))
     (points (snd (trajectoryLoop heavyMass (plainOptions 3) 3 []
                     (vec2 1 1) (vec2 1 0)))).
Proof.
  cbv zeta. split; [repeat split; vm_compute; reflexivity|]. split.
  - apply (proj1 (proj2 (proj2 (proj2 (proj2 degenerate_inputs_binary64))))
             heavyMass 1 1 0.02).
    vm_compute. reflexivity.
  - split.
    + apply (proj1 (proj2 (proj2 (proj2 (proj2 (proj2
               degenerate_inputs_binary64)))))
               heavyMass (vec2 1 1) (vec2 1 0) 0.01);
        vm_compute; reflexivity.
    + apply (proj1 (proj2 (proj2 (proj2 (proj2 (proj2 (proj2
               degenerate_inputs_binary64))))))
               heavyMass (plainOptions 3) 1%nat [] (vec2 1 1) (vec2 1 0));
        vm_compute; reflexivity.
Defined.

(** The two revisions on level 1 at (1, 1): the current
    [computeChristoffel] returns the value of the full contraction, the
    earlier revision that of the diagonal shortcut. *)
Example revisions_differ :
  let G := computeChristoffel level1Masses 1 1 0.02 in
  let G1 := Rev1.computeChristoffel level1Masses 1 1 0.02 in
  G111 G = -0.017470197738078123 /\
  spec_Gamma level1Masses 1 1 0.02 X1 X1 X1 = -0.017470197738078123 /\
  G111 G1 = -0.018927347122154665 /\
  diagonal_Gamma level1Masses 1 1 0.02 X1 X1 X1 = -0.018927347122154665.
Proof. vm_compute. repeat split. Qed.

(** In the earlier revision, without effective gravity, a particle at rest
    stays where it is; in the current one it starts to fall. *)
Example earlier_revision_at_rest :
  Rev1.integrateRK4 level1Masses (vec2 3 0) atRest 0.01
  = mkState (vec2 3 0) (vec2 0 0) /\
  (vec_x (st_pos (integrateRK4 level1Masses (vec2 3 0) atRest 0.01)) <? 3) = true.
Proof. vm_compute. repeat split. Qed.

(** Scenario 3: at rest at (3, 0) on level 1 the geodesic term is (0, 0)
    and the effective gravity pulls towards the mass at the origin. *)
Example at_rest_falls :
  geodesicAcceleration level1Masses (vec2 3 0) atRest = vec2 0 0 /\
  totalAcceleration level1Masses (vec2 3 0) atRest
  = computeEffectiveGravity level1Masses (vec2 3 0) /\
  (vec_x (totalAcceleration level1Masses (vec2 3 0) atRest) <? 0) = true.
Proof. vm_compute. repeat split. Qed.

(** Scenario 4: released at rest at distance 3 from level 1's mass, the
    particle is captured, after 416 recorded points. *)
Example at_rest_is_captured :
  let run := runTrajectory level1Masses (vec2 3 0) atRest (plainOptions 2000) in
  fst run = Captured /\
  length (points (snd run)) = 416%nat /\
  reachedGoal (snd run) = false /\ outOfBounds (snd run) = false /\
  tooClose level1Masses (finalPos (snd run)) = true.
Proof. vm_compute. repeat split. Qed.

(** The preview of level 1 for the straight shot from (-3.5, 0) with
    velocity (2, 0): the path runs into the mass at the origin and the run
    ends in capture, after 154 recorded points. *)
Example straight_shot_is_captured :
  let run := runTrajectory level1Masses (vec2 (-3.5) 0) (vec2 2 0) previewOptions in
  fst run = Captured /\
  length (points (snd run)) = 154%nat /\
  reachedGoal (snd run) = false /\ outOfBounds (snd run) = false.
Proof. vm_compute. repeat split. Qed.

End Binary64Arithmetic.

(** C9, witnessed: a unit mass at the origin, the origin against (1, 0). *)
Lemma monotone_well_exact_witness :
  (gravitationalHeight [mkMass 0 0 1] 0 0
   < gravitationalHeight [mkMass 0 0 1] 1 0)%R.
Proof.
  apply monotone_well_exact.
  - cbn. lra.
  - unfold distanceToMass. cbn.
    apply sqrt_lt_1_alt. lra.
Defined.

(** C7 refuted as worded.  A single mass at the origin with strength
    1e308, a finite number: at its centre [strength / 0.5] overflows and
    the height is [-Infinity]. *)
Lemma centre_height_can_overflow : ~ centreHeightFinite.
Proof.
  intros Hclaim.
  specialize (Hclaim overflowMass (mkMass 0 0 1e308)%float eq_refl
                (or_introl eq_refl)).
  vm_compute in Hclaim. discriminate Hclaim.
Qed.

(** Where the overflow begins: the height at the centre is finite up to a
    strength of half the largest binary64 number, and [-Infinity] from the
    next number on. *)
Example centre_height_boundary :
  (gravitationalHeight [mkMass 0 0 0x1.fffffffffffffp1022] 0 0
   = -0x1.fffffffffffffp1023 /\
   gravitationalHeight [mkMass 0 0 0x1p1023] 0 0 = neg_infinity)%float.
Proof. split; vm_compute; reflexivity. Qed.

(** C7, as the code has it.  The height is the sum over the masses of
    [-strength / (distance + 0.5)], in binary64 (the terms added in the
    order of the collection) as over the reals, in every configuration and
    at every point.  Over the reals every denominator is at least 0.5, so
    no term divides by zero, and at the centre of a mass the distance is 0
    and the mass contributes [-strength / 0.5].  In binary64, at the centre
    of a mass with finite coordinates, the distance is 0 and the term of
    that mass is [-(strength / 0.5)], finite when the quotient is; the
    height of that mass alone is [0 - strength / 0.5], finite when the
    quotient is.  It is finite at every centre of the predefined levels,
    and [-Infinity] at the centre of a mass of strength 1e308. *)
Theorem gravitationalHeight_sum :
  (forall (masses : list (Mass float)) (x y : float),
     gravitationalHeight masses x y = spec_height masses x y) /\
  (forall mass : Mass float,
     finite (mass_x mass) = true -> finite (mass_y mass) = true ->
     distanceToMass (mass_x mass) (mass_y mass) mass = 0%float /\
     wellTerm (mass_x mass) (mass_y mass) mass
     = (- (strength mass / 0.5))%float /\
     finite (wellTerm (mass_x mass) (mass_y mass) mass)
     = finite (strength mass / 0.5)%float) /\
  (forall mx my s : float,
     finite mx = true -> finite my = true ->
     gravitationalHeight [mkMass mx my s] mx my = (0 - s / 0.5)%float /\
     finite (gravitationalHeight [mkMass mx my s] mx my)
     = finite (s / 0.5)%float) /\
  forallb (fun masses => allFinite (centreHeights masses)) predefinedMasses = true /\
  gravitationalHeight overflowMass 0%float 0%float = neg_infinity /\
  (forall (masses : list (Mass R)) (x y : R),
     gravitationalHeight masses x y = spec_height masses x y /\
     (forall mass,
        0 <= distanceToMass x y mass /\
        lit 0.5 <= distanceToMass x y mass + lit 0.5 /\
        0 < distanceToMass x y mass + lit 0.5) /\
     (forall mass,
        x = mass_x mass -> y = mass_y mass ->
        distanceToMass x y mass = 0 /\
        wellTerm x y mass = - (strength mass / lit 0.5)))%R.
Proof.
  split; [|split; [|split; [|split; [|split]]]].
  - intros masses x y. apply height_is_sum. exact float_sub_add_opp.
  - exact wellTerm_at_centre.
  - intros mx my s Hx Hy. split.
    + apply height_at_centre; assumption.
    + apply height_at_centre_finite; assumption.
  - exact predefined_centres_finite.
  - vm_compute. reflexivity.
  - exact height_exact.
Qed.

(** C7, witnessed: level 1's mass seen from its centre. *)
Lemma gravitationalHeight_sum_witness :
  (gravitationalHeight [mkMass 0 0 1.5] 0 0 = 0 - 1.5 / 0.5 /\
   finite (gravitationalHeight [mkMass 0 0 1.5] 0 0) = finite (1.5 / 0.5))%float.
Proof.
  apply (proj1 (proj2 (proj2 gravitationalHeight_sum)) 0 0 1.5)%float;
    vm_compute; reflexivity.
Defined.

(** * More of the code *)

(** ** Runs of [computeTrajectory], over any arithmetic *)

Section RunProperties.

Context {num : Type} `{JSNumber num}.

(** X1. Every point that [computeTrajectory] returns has
    [z = gravitationalHeight(x, y)]; every point but the last is inside the
    bounds and not within the goal radius (the loop went on from it); every
    point but the first is not within 0.3 of any mass (the step that led to
    it was not a capture). *)
Theorem trajectory_points_invariant :
  forall (masses : list (Mass num)) (startPos startVel : Vec2 num)
         (options : Options num),
    let pts := points (computeTrajectory masses startPos startVel options) in
    Forall (onSurface masses) pts /\
    Forall (passedChecks options) (removelast pts) /\
    Forall (clearOfMasses masses) (tl pts).
Proof.
  intros masses startPos startVel options. cbv zeta.
  destruct (trajectoryLoop_points masses options (maxSteps options) [] startPos startVel)
    as (new & Hpts & _ & Hs & Hp & Hc).
  unfold computeTrajectory, runTrajectory. rewrite Hpts. cbn [app]. auto.
Qed.

(** X2. With [maxSteps = 0] the loop body never runs: no point, both flags
    [false], [finalPos] the start.  With [maxSteps >= 1] the first point is
    the start position with its height, whatever happens next (so the
    preview of [projectile.js], which asks for 2000 steps, is never
    empty). *)
Theorem trajectory_first_point :
  forall (masses : list (Mass num)) (startPos startVel : Vec2 num)
         (dt : num) (bounds : Bounds num) (goalPos : option (Vec2 num))
         (goalRadius : num),
    computeTrajectory masses startPos startVel
      (mkOptions 0 dt bounds goalPos goalRadius)
    = mkResult [] false false startPos /\
    forall n, exists rest,
      points (computeTrajectory masses startPos startVel
                (mkOptions (S n) dt bounds goalPos goalRadius))
      = point3 (vec_x startPos) (vec_y startPos)
          (gravitationalHeight masses (vec_x startPos) (vec_y startPos))
        :: rest.
Proof.
  intros masses startPos startVel dt bounds goalPos goalRadius.
  split; [reflexivity|]. intros n.
  destruct (trajectoryLoop_points masses
              (mkOptions (S n) dt bounds goalPos goalRadius) (S n) []
              startPos startVel)
    as (new & Hpts & Hhd & _).
  unfold computeTrajectory, runTrajectory. cbn [maxSteps]. rewrite Hpts.
  destruct new as [|p rest]; [discriminate Hhd|].
  exists rest. now subst p.
Qed.

(** X3. The two flags are never both set.  [reachedGoal] is set only when a
    goal is given and [finalPos] is within the goal radius of it;
    [outOfBounds] only when [finalPos] is outside the bounds and not within
    the goal radius; without a goal [reachedGoal] stays [false]. *)
Theorem trajectory_flags_meaning :
  forall (masses : list (Mass num)) (startPos startVel : Vec2 num)
         (options : Options num),
    let r := computeTrajectory masses startPos startVel options in
    match reachedGoal r, outOfBounds r with
    | true, true => False
    | true, false => goalReached options (finalPos r) = true
    | false, true =>
        outsideBounds (bounds options) (finalPos r) = true /\
        goalReached options (finalPos r) = false
    | false, false => True
    end /\
    match goalPos options with
    | None => reachedGoal r = false
    | Some _ => True
    end.
Proof.
  intros masses startPos startVel options. cbv zeta.
  destruct (runTrajectory_stops masses startPos startVel options)
    as (m & _ & _ & Hout).
  unfold computeTrajectory.
  set (run := runTrajectory masses startPos startVel options) in *.
  assert (Hgoal : reachedGoal (snd run) = true ->
                  goalReached options (finalPos (snd run)) = true).
  { destruct (fst run).
    - destruct Hout as (j & _ & _ & _ & _ & Hg). auto.
    - destruct Hout as (j & _ & _ & Hr & _). congruence.
    - destruct Hout as (j & _ & _ & Hr & _). congruence.
    - destruct Hout as (_ & _ & Hr & _). congruence. }
  split.
  - destruct (fst run).
    + destruct Hout as (j & _ & _ & -> & -> & Hg). exact Hg.
    + destruct Hout as (j & _ & _ & -> & -> & Hg & Ho). auto.
    + destruct Hout as (j & _ & _ & -> & -> & _). exact I.
    + destruct Hout as (_ & _ & -> & -> & _). exact I.
  - destruct (goalPos options) eqn:Hg; [exact I|].
    destruct (reachedGoal (snd run)) eqn:Hr; [|reflexivity].
    specialize (Hgoal eq_refl). unfold goalReached in Hgoal.
    rewrite Hg in Hgoal. discriminate.
Qed.

Lemma session_last (calls : list (Call num)) (c : Call num) :
  forall masses,
    fst (session masses calls) = configuredAfter masses calls /\
    session masses (calls ++ [c])
    = (fst (exec (configuredAfter masses calls) c),
       snd (session masses calls) ++ [snd (exec (configuredAfter masses calls) c)]).
Proof.
  induction calls as [|c0 rest IH]; intros masses.
  - cbn. destruct (exec masses c). auto.
  - cbn [session app configuredAfter fold_left].
    assert (Hexec : fst (exec masses c0)
                    = match c0 with
                      | CallSetMasses newMasses => newMasses
                      | _ => masses
                      end) by (destruct c0; reflexivity).
    destruct (exec masses c0) as [masses1 r]. cbn [fst] in Hexec. subst masses1.
    destruct (IH (match c0 with
                  | CallSetMasses newMasses => newMasses
                  | _ => masses
                  end)) as [IH1 IH2].
    unfold configuredAfter in *. rewrite IH2.
    destruct (session _ rest) as [masses2 rs]. cbn [fst snd] in *. split.
    + exact IH1.
    + reflexivity.
Qed.

(** X4. The configuration is what the last [setMasses] passed: after any
    sequence of calls, [getMasses] returns the argument of the last
    [setMasses] of the sequence (the initial array if there was none), and a
    [computeTrajectory] or [gravitationalHeight] call made then is answered
    from that configuration. *)
Theorem setMasses_last_wins :
  forall (masses : list (Mass num)) (calls : list (Call num)) (c : Call num),
    let current := configuredAfter masses calls in
    fst (session masses calls) = current /\
    snd (exec (fst (session masses calls)) CallGetMasses) = ReplyMasses current /\
    last (snd (session masses (calls ++ [c]))) ReplyUndefined
    = snd (exec current c) /\
    forall newMasses,
      configuredAfter masses (calls ++ [CallSetMasses newMasses]) = newMasses.
Proof.
  intros masses calls c. cbv zeta.
  destruct (session_last calls c masses) as [H1 H2].
  split; [exact H1|]. split; [now rewrite H1|]. split.
  - rewrite H2. cbn [snd]. apply last_last.
  - intros newMasses. unfold configuredAfter. now rewrite fold_left_app.
Qed.

End RunProperties.

(** ** The geometry under a mirror, over any arithmetic whose sum and
    product commute *)

Section Mirror.

Context {num : Type} `{JSNumber num}.
Local Open Scope num_scope.
Hypothesis add_comm : forall a b : num, a + b = b + a.
Hypothesis mul_comm : forall a b : num, a * b = b * a.

Lemma height_swap (masses : list (Mass num)) (x y : num) :
  gravitationalHeight (map swapMass masses) y x = gravitationalHeight masses x y.
Proof.
  unfold gravitationalHeight. generalize (lit 0 : num).
  induction masses as [|m ms IH]; intros acc; cbn [map fold_left]; [reflexivity|].
  rewrite IH. f_equal. unfold heightStep, swapMass. cbv zeta.
  cbn [mass_x mass_y strength].
  now rewrite (add_comm ((y - mass_y m) * (y - mass_y m))).
Qed.

Lemma gradient_swap (masses : list (Mass num)) (x y eps : num) :
  computeGradient (map swapMass masses) y x eps
  = swapGradient (computeGradient masses x y eps).
Proof.
  unfold computeGradient, swapGradient. cbv zeta. cbn [dzdx dzdy].
  now rewrite !height_swap.
Qed.

Lemma metric_swap (masses : list (Mass num)) (x y : num) :
  computeMetric (map swapMass masses) y x = swapMetric (computeMetric masses x y).
Proof.
  unfold computeMetric, swapMetric. cbv zeta. rewrite gradient_swap.
  cbn [dzdx dzdy swapGradient g11 g12 g21 g22].
  now rewrite (mul_comm (dzdy _) (dzdx _)).
Qed.

Lemma metric_g21 (masses : list (Mass num)) (x y : num) :
  g21 (computeMetric masses x y) = g12 (computeMetric masses x y).
Proof. reflexivity. Qed.

Lemma christoffel_swap (masses : list (Mass num)) (x y eps : num) :
  computeChristoffel (map swapMass masses) y x eps
  = swapChristoffel (computeChristoffel masses x y eps).
Proof.
  unfold computeChristoffel, swapChristoffel. cbv zeta.
  rewrite !metric_swap. unfold swapMetric.
  cbn [g11 g12 g21 g22 G111 G112 G122 G211 G212 G222].
  rewrite !metric_g21.
  generalize (computeMetric masses x y)
    (computeMetric masses (x + eps) y) (computeMetric masses (x - eps) y)
    (computeMetric masses x (y + eps)) (computeMetric masses x (y - eps)).
  intros g gxp gxm gyp gym.
  rewrite (mul_comm (g22 g) (g11 g)).
  f_equal; f_equal; apply add_comm.
Qed.

End Mirror.

(** ** The geometry over the real numbers *)

Section ExactGeometry.

Local Open Scope R_scope.

Lemma lit_6 : (lit 6 : R) = 6.
Proof. cbn. unfold Q2R. cbn. lra. Qed.

Lemma lit_centi : (lit 0.01 : R) = / 100.
Proof. cbn. unfold Q2R. cbn. lra. Qed.

(** X10. In exact arithmetic, for one mass of positive strength and a
    positive step, the forward difference of [computeGradient] has the sign
    of the change of distance: [dzdx] is positive when the point
    [(x + eps, y)] is farther from the mass than [(x, y)] and negative when
    it is nearer, and likewise [dzdy]; the [x] component of
    [computeEffectiveGravity] (step 0.01) is negative in the first case and
    positive in the second: it pulls back towards the mass. *)
Theorem gradient_points_away_from_mass (mass : Mass R) (x y eps : R) :
  0 < strength mass -> 0 < eps ->
  (distanceToMass x y mass < distanceToMass (x + eps) y mass ->
   0 < dzdx (computeGradient [mass] x y eps)) /\
  (distanceToMass (x + eps) y mass < distanceToMass x y mass ->
   dzdx (computeGradient [mass] x y eps) < 0) /\
  (distanceToMass x y mass < distanceToMass x (y + eps) mass ->
   0 < dzdy (computeGradient [mass] x y eps)) /\
  (distanceToMass x (y + eps) mass < distanceToMass x y mass ->
   dzdy (computeGradient [mass] x y eps) < 0) /\
  (distanceToMass x y mass < distanceToMass (x + lit 0.01) y mass ->
   vec_x (computeEffectiveGravity [mass] (vec2 x y)) < 0) /\
  (distanceToMass (x + lit 0.01) y mass < distanceToMass x y mass ->
   0 < vec_x (computeEffectiveGravity [mass] (vec2 x y))).
Proof.
  intros Hs He.
  assert (Hx : forall e, 0 < e ->
            (distanceToMass x y mass < distanceToMass (x + e) y mass ->
             0 < dzdx (computeGradient [mass] x y e)) /\
            (distanceToMass (x + e) y mass < distanceToMass x y mass ->
             dzdx (computeGradient [mass] x y e) < 0)).
  { intros e Hpos. unfold computeGradient. cbv zeta. cbn [dzdx].
    cbn [add sub div Exact]. rewrite !single_well_height.
    assert (Hi : 0 < / e) by now apply Rinv_0_lt_compat.
    split; intros Hd;
      pose proof (single_well_increasing Hs
                    ltac:(apply distanceToMass_nonneg) Hd);
      unfold Rdiv in *; nra. }
  assert (Hy :
            (distanceToMass x y mass < distanceToMass x (y + eps) mass ->
             0 < dzdy (computeGradient [mass] x y eps)) /\
            (distanceToMass x (y + eps) mass < distanceToMass x y mass ->
             dzdy (computeGradient [mass] x y eps) < 0)).
  { unfold computeGradient. cbv zeta. cbn [dzdy].
    cbn [add sub div Exact]. rewrite !single_well_height.
    assert (Hi : 0 < / eps) by now apply Rinv_0_lt_compat.
    split; intros Hd;
      pose proof (single_well_increasing Hs
                    ltac:(apply distanceToMass_nonneg) Hd);
      unfold Rdiv in *; nra. }
  assert (Hc : 0 < lit 0.01) by (rewrite lit_centi; lra).
  destruct (Hx eps He) as [Hx1 Hx2]. destruct Hy as [Hy1 Hy2].
  destruct (Hx (lit 0.01) Hc) as [Hg1 Hg2].
  repeat split; auto.
  - intros Hd. specialize (Hg1 Hd). unfold computeEffectiveGravity. cbv zeta.
    cbn [vec_x vec_y]. rewrite lit_2_0. cbn [neg mul Exact].
    cbn [add Exact] in Hg1. lra.
  - intros Hd. specialize (Hg2 Hd). unfold computeEffectiveGravity. cbv zeta.
    cbn [vec_x vec_y]. rewrite lit_2_0. cbn [neg mul Exact].
    cbn [add Exact] in Hg2. lra.
Qed.

(** The height as a right fold. *)
Lemma height_fold_right (masses : list (Mass R)) (x y : R) :
  gravitationalHeight masses x y
  = fold_right (fun mass total => wellTerm x y mass + total) 0 masses.
Proof.
  rewrite (height_is_sum real_sub_add_neg). unfold spec_height, sumOver.
  rewrite lit_0. cbn [add Exact].
  set (f := wellTerm x y).
  assert (G : forall ms acc,
             fold_left (fun total mass => total + f mass) ms acc
             = acc + fold_right (fun mass total => f mass + total) 0 ms).
  { induction ms as [|m ms IH]; intros acc; cbn [fold_left fold_right].
    - ring.
    - rewrite IH. ring. }
  rewrite G. ring.
Qed.

Lemma height_app (ms1 ms2 : list (Mass R)) (x y : R) :
  gravitationalHeight (ms1 ++ ms2) x y
  = gravitationalHeight ms1 x y + gravitationalHeight ms2 x y.
Proof.
  rewrite !height_fold_right. induction ms1 as [|m ms1 IH]; cbn [app fold_right].
  - ring.
  - rewrite IH. ring.
Qed.

Lemma height_permutation (ms ms' : list (Mass R)) (x y : R) :
  Permutation ms ms' ->
  gravitationalHeight ms x y = gravitationalHeight ms' x y.
Proof.
  intros Hp. rewrite !height_fold_right.
  induction Hp; cbn [fold_right]; lra.
Qed.

Lemma wellTerm_bounds (x y : R) (mass : Mass R) :
  0 <= strength mass ->
  - (2 * strength mass) <= wellTerm x y mass <= 0.
Proof.
  intros Hs. unfold wellTerm. rewrite lit_half. cbn [add div neg Exact].
  pose proof (distanceToMass_nonneg x y mass) as Hd.
  set (d := distanceToMass x y mass) in *.
  assert (Hpos : 0 < d + / 2) by lra.
  assert (Hinv : / (d + / 2) <= 2).
  { replace 2 with (/ / 2) at 2 by field. apply Rinv_le_contravar; lra. }
  assert (Hinv0 : 0 < / (d + / 2)) by (apply Rinv_0_lt_compat; lra).
  unfold Rdiv. nra.
Qed.

(** X6. In exact arithmetic, when no strength is negative the height lies
    between minus twice the total strength and 0 at every point: the 0.5 in
    the denominator caps the depth of each well at [2 * strength]. *)
Theorem height_bounds (masses : list (Mass R)) (x y : R) :
  Forall (fun mass => 0 <= strength mass) masses ->
  - (2 * totalStrength masses) <= gravitationalHeight masses x y <= 0.
Proof.
  intros Hs. rewrite height_fold_right. unfold totalStrength. rewrite lit_0.
  induction Hs as [|m ms Hm _ IH]; cbn [fold_right add Exact].
  - lra.
  - pose proof (wellTerm_bounds x y m Hm). cbn [add Exact] in IH. lra.
Qed.

(** Translation. *)
Lemma height_translate (a b : R) (masses : list (Mass R)) (x y : R) :
  gravitationalHeight (map (translateMass a b) masses) (x + a) (y + b)
  = gravitationalHeight masses x y.
Proof.
  unfold gravitationalHeight. generalize (lit 0 : R).
  induction masses as [|m ms IH]; intros acc; cbn [map fold_left]; [reflexivity|].
  rewrite IH. f_equal. unfold heightStep, translateMass.
  cbn [mass_x mass_y strength add sub mul div Math_sqrt Exact].
  replace (x + a - (mass_x m + a)) with (x - mass_x m) by ring.
  replace (y + b - (mass_y m + b)) with (y - mass_y m) by ring.
  reflexivity.
Qed.

Lemma gradient_translate (a b : R) (masses : list (Mass R)) (x y eps : R) :
  computeGradient (map (translateMass a b) masses) (x + a) (y + b) eps
  = computeGradient masses x y eps.
Proof.
  unfold computeGradient. cbv zeta. cbn [add Exact].
  replace (x + a + eps) with (x + eps + a) by ring.
  replace (y + b + eps) with (y + eps + b) by ring.
  now rewrite !height_translate.
Qed.

Lemma metric_translate (a b : R) (masses : list (Mass R)) (x y : R) :
  computeMetric (map (translateMass a b) masses) (x + a) (y + b)
  = computeMetric masses x y.
Proof. unfold computeMetric. now rewrite gradient_translate. Qed.

Lemma christoffel_translate (a b : R) (masses : list (Mass R)) (x y eps : R) :
  computeChristoffel (map (translateMass a b) masses) (x + a) (y + b) eps
  = computeChristoffel masses x y eps.
Proof.
  unfold computeChristoffel. cbv zeta. cbn [add sub Exact].
  replace (x + a + eps) with (x + eps + a) by ring.
  replace (x + a - eps) with (x - eps + a) by ring.
  replace (y + b + eps) with (y + eps + b) by ring.
  replace (y + b - eps) with (y - eps + b) by ring.
  now rewrite !metric_translate.
Qed.

Lemma curvature_translate (a b : R) (masses : list (Mass R)) (x y eps : R) :
  computeGaussianCurvature (map (translateMass a b) masses) (x + a) (y + b) eps
  = computeGaussianCurvature masses x y eps.
Proof.
  unfold computeGaussianCurvature. cbv zeta. cbn [add sub Exact].
  replace (x + a + eps) with (x + eps + a) by ring.
  replace (x + a - eps) with (x - eps + a) by ring.
  replace (y + b + eps) with (y + eps + b) by ring.
  replace (y + b - eps) with (y - eps + b) by ring.
  rewrite !height_translate.
  pose proof (gradient_translate a b masses x y eps) as Hg.
  cbn [add Exact] in Hg. rewrite Hg. reflexivity.
Qed.

(** X8. In exact arithmetic the metric of [computeMetric] is symmetric
    positive definite: [g11 >= 1], [g22 >= 1], [g12 = g21], the determinant
    is [1 + dzdx^2 + dzdy^2], and the squared length it gives a vector
    [(vx, vy)] is [vx^2 + vy^2 + (dzdx vx + dzdy vy)^2], never less than the
    flat one. *)
Theorem metric_positive_definite (masses : list (Mass R)) (x y vx vy : R) :
  let g := computeMetric masses x y in
  let gr := computeGradient masses x y (lit 0.01) in
  1 <= g11 g /\ 1 <= g22 g /\ g12 g = g21 g /\
  g11 g * g22 g - g12 g * g21 g = 1 + dzdx gr * dzdx gr + dzdy gr * dzdy gr /\
  g11 g * vx * vx + 2 * g12 g * vx * vy + g22 g * vy * vy
  = vx * vx + vy * vy + (dzdx gr * vx + dzdy gr * vy) ^ 2 /\
  vx * vx + vy * vy <= g11 g * vx * vx + 2 * g12 g * vx * vy + g22 g * vy * vy.
Proof.
  cbv zeta. unfold computeMetric. cbv zeta.
  generalize (computeGradient masses x y (lit 0.01)). intros gr.
  cbn [g11 g12 g21 g22]. rewrite lit_1. cbn [add mul Exact].
  assert (E : (1 + dzdx gr * dzdx gr) * vx * vx + 2 * (dzdx gr * dzdy gr) * vx * vy
              + (1 + dzdy gr * dzdy gr) * vy * vy
              = vx * vx + vy * vy + (dzdx gr * vx + dzdy gr * vy) ^ 2) by ring.
  split; [nra|]. split; [nra|]. split; [reflexivity|]. split; [ring|].
  split; [exact E|]. rewrite E.
  pose proof (pow2_ge_0 (dzdx gr * vx + dzdy gr * vy)). lra.
Qed.

(** Flat field. *)
Lemma flat_acceleration (pos vel : Vec2 R) :
  totalAcceleration [] pos vel = vec2 0 0.
Proof.
  unfold totalAcceleration, geodesicAcceleration, computeEffectiveGravity,
    computeChristoffel, computeMetric, computeGradient, gravitationalHeight.
  cbv zeta. cbn [fold_left dzdx dzdy g11 g12 g21 g22 G111 G112 G122 G211 G212 G222].
  rewrite lit_0, lit_1, lit_2, lit_2_0, lit_half.
  cbn [add sub mul div neg Math_sqrt ltb Exact].
  destruct (Rltb _ _); cbn [vec_x vec_y]; f_equal; unfold Rdiv; ring.
Qed.

Lemma flat_step (pos vel : Vec2 R) (dt : R) :
  integrateRK4 [] pos vel dt
  = mkState (vec2 (vec_x pos + vec_x vel * dt) (vec_y pos + vec_y vel * dt)) vel.
Proof.
  unfold integrateRK4, rk4Step. cbv zeta. rewrite !flat_acceleration.
  unfold add2D, scale2D. cbn [vec_x vec_y].
  rewrite lit_2, lit_half. 
  assert (L6 : (lit 6 : R) = 6) by (cbn; unfold Q2R; cbn; lra). rewrite L6.
  cbn [add sub mul div neg Exact].
  destruct vel as [vx vy]. cbn [vec_x vec_y]. f_equal; f_equal; field.
Qed.

Lemma flat_orbit (options : Options R) (k : nat) (pos vel : Vec2 R) :
  orbit [] options k (mkState pos vel)
  = mkState (vec2 (vec_x pos + INR k * (vec_x vel * dt options))
                  (vec_y pos + INR k * (vec_y vel * dt options))) vel.
Proof.
  induction k as [|k IH].
  - destruct pos as [x y]. cbn [orbit INR vec_x vec_y]. f_equal. f_equal; ring.
  - change (orbit [] options (S k) (mkState pos vel))
      with (integrateRK4 [] (st_pos (orbit [] options k (mkState pos vel)))
              (st_vel (orbit [] options k (mkState pos vel))) (dt options)).
    rewrite IH, flat_step. cbn [st_pos st_vel vec_x vec_y]. rewrite S_INR.
    f_equal. f_equal; ring.
Qed.

(** X5. In exact arithmetic the height is additive over configurations and
    does not depend on the order of the masses: the height of [ms1 ++ ms2]
    is the sum of the two heights, and a permutation of the masses leaves
    the height at every point unchanged. *)
Theorem height_order_irrelevant :
  (forall (ms1 ms2 : list (Mass R)) (x y : R),
     gravitationalHeight (ms1 ++ ms2) x y
     = gravitationalHeight ms1 x y + gravitationalHeight ms2 x y) /\
  (forall (ms ms' : list (Mass R)) (x y : R),
     Permutation ms ms' ->
     gravitationalHeight ms x y = gravitationalHeight ms' x y).
Proof. split; [exact height_app | exact height_permutation]. Qed.

(** X7. In exact arithmetic the geometry moves with the configuration:
    translating every mass and the query point by [(a, b)] leaves the
    height, the gradient, the metric, the Christoffel symbols and the
    Gaussian curvature unchanged. *)
Theorem geometry_translation_invariant :
  forall (a b : R) (masses : list (Mass R)) (x y eps : R),
    let moved := map (translateMass a b) masses in
    gravitationalHeight moved (x + a) (y + b) = gravitationalHeight masses x y /\
    computeGradient moved (x + a) (y + b) eps = computeGradient masses x y eps /\
    computeMetric moved (x + a) (y + b) = computeMetric masses x y /\
    computeChristoffel moved (x + a) (y + b) eps
    = computeChristoffel masses x y eps /\
    computeGaussianCurvature moved (x + a) (y + b) eps
    = computeGaussianCurvature masses x y eps.
Proof.
  intros a b masses x y eps. cbv zeta.
  split; [apply height_translate|]. split; [apply gradient_translate|].
  split; [apply metric_translate|]. split; [apply christoffel_translate|].
  apply curvature_translate.
Qed.

(** X9. In exact arithmetic, with no mass configured the motion is
    inertial: one step of [integrateRK4] moves the position by [vel * dt]
    and keeps the velocity, and the points of [computeTrajectory] are
    [(x0 + k vx dt, y0 + k vy dt, 0)] for [k = 0, 1, ...]. *)
Theorem flat_field_inertial :
  (forall (pos vel : Vec2 R) (dt : R),
     integrateRK4 [] pos vel dt
     = mkState (vec2 (vec_x pos + vec_x vel * dt) (vec_y pos + vec_y vel * dt))
               vel) /\
  (forall (startPos startVel : Vec2 R) (options : Options R),
     let pts := points (computeTrajectory [] startPos startVel options) in
     pts = map (fun k =>
                  point3 (vec_x startPos + INR k * (vec_x startVel * dt options))
                         (vec_y startPos + INR k * (vec_y startVel * dt options))
                         0)
               (seq 0 (length pts))).
Proof.
  split; [exact flat_step|].
  intros startPos startVel options. cbv zeta.
  destruct (runTrajectory_stops [] startPos startVel options)
    as (m & _ & Hpts & _).
  unfold computeTrajectory. cbn [app] in Hpts.
  rewrite Hpts at 1. rewrite Hpts, samples_length.
  apply map_ext. intros k. unfold sample. rewrite flat_orbit.
  unfold recordPoint, gravitationalHeight. cbn [fold_left st_pos vec_x vec_y].
  now rewrite lit_0.
Qed.

End ExactGeometry.

(** X6, witnessed: level 1's mass seen from (1, 1). *)
Lemma height_bounds_witness :
  (- (2 * totalStrength [mkMass 0 0 (3 / 2)])
   <= gravitationalHeight [mkMass 0 0 (3 / 2)] 1 1 <= 0)%R.
Proof.
  apply height_bounds. repeat constructor. cbn. lra.
Defined.

(** X5, witnessed: the two masses of level 2 in either order. *)
Lemma height_order_irrelevant_witness :
  (gravitationalHeight [mkMass (-1) 1 (6 / 5); mkMass 1 (-1) (6 / 5)] 0 0
   = gravitationalHeight [mkMass 1 (-1) (6 / 5); mkMass (-1) 1 (6 / 5)] 0 0)%R.
Proof.
  apply (proj2 height_order_irrelevant). apply perm_swap.
Defined.

(** X10, witnessed: a unit mass at the origin seen from (1, 0) with the
    step 0.01 of [computeGradient]. *)
Lemma gradient_points_away_from_mass_witness :
  (0 < dzdx (computeGradient [mkMass 0 0 1] 1 0 (/ 100)))%R.
Proof.
  apply (proj1 (@gradient_points_away_from_mass (mkMass 0 0 1) 1 0 (/ 100)
                  ltac:(cbn; lra) ltac:(lra)))%R.
  unfold distanceToMass. cbn. apply sqrt_lt_1_alt. lra.
Defined.

(** ** The mirror symmetry in both readings *)

Section MirrorSymmetry.

Lemma float_add_comm (x y : float) : (x + y = y + x)%float.
Proof.
  apply Prim2SF_inj. rewrite !add_spec.
  destruct (Prim2SF x) as [sx|sx| |sx mx ex], (Prim2SF y) as [sy|sy| |sy my ey];
    try reflexivity; try (destruct sx, sy; reflexivity).
  unfold SF64add, SFadd. rewrite Z.min_comm, Z.add_comm. reflexivity.
Qed.

Lemma float_mul_comm (x y : float) : (x * y = y * x)%float.
Proof.
  apply Prim2SF_inj. rewrite !mul_spec.
  destruct (Prim2SF x) as [sx|sx| |sx mx ex], (Prim2SF y) as [sy|sy| |sy my ey];
    try reflexivity; try (destruct sx, sy; reflexivity).
  unfold SF64mul, SFmul. rewrite xorb_comm, Pos.mul_comm, Z.add_comm. reflexivity.
Qed.

Lemma binary64_add_comm (a b : float) : (a + b)%num = (b + a)%num.
Proof. apply float_add_comm. Qed.

Lemma binary64_mul_comm (a b : float) : (a * b)%num = (b * a)%num.
Proof. apply float_mul_comm. Qed.

Lemma real_add_comm (a b : R) : (a + b)%num = (b + a)%num.
Proof. apply Rplus_comm. Qed.

Lemma real_mul_comm (a b : R) : (a * b)%num = (b * a)%num.
Proof. apply Rmult_comm. Qed.

Lemma curvature_swap (masses : list (Mass R)) (x y eps : R) :
  computeGaussianCurvature (map swapMass masses) y x eps
  = computeGaussianCurvature masses x y eps.
Proof.
  unfold computeGaussianCurvature. cbv zeta.
  rewrite (gradient_swap real_add_comm), !(height_swap real_add_comm).
  cbn [swapGradient dzdx dzdy].
  generalize (computeGradient masses x y eps). intros gr.
  rewrite lit_1, lit_2. cbn [add sub mul div Exact].
  replace (1 + dzdy gr * dzdy gr + dzdx gr * dzdx gr)%R
    with (1 + dzdx gr * dzdx gr + dzdy gr * dzdy gr)%R by ring.
  unfold Rdiv. ring.
Qed.

(** X11. The geometry is symmetric under the mirror [x <-> y], in binary64
    to the last bit and over the reals: exchanging the coordinates of every
    mass and of the query point leaves the height unchanged, exchanges
    [dzdx] with [dzdy] and [g11] with [g22], and exchanges the indices 1 and
    2 of the Christoffel symbols ([G111] with [G222], [G112] with [G212],
    [G122] with [G211]).  Over the reals the Gaussian curvature is
    unchanged as well. *)
Theorem geometry_mirror_symmetric :
  (forall (masses : list (Mass float)) (x y eps : float),
     gravitationalHeight (map swapMass masses) y x
     = gravitationalHeight masses x y /\
     computeGradient (map swapMass masses) y x eps
     = swapGradient (computeGradient masses x y eps) /\
     computeMetric (map swapMass masses) y x
     = swapMetric (computeMetric masses x y) /\
     computeChristoffel (map swapMass masses) y x eps
     = swapChristoffel (computeChristoffel masses x y eps)) /\
  (forall (masses : list (Mass R)) (x y eps : R),
     gravitationalHeight (map swapMass masses) y x
     = gravitationalHeight masses x y /\
     computeGradient (map swapMass masses) y x eps
     = swapGradient (computeGradient masses x y eps) /\
     computeMetric (map swapMass masses) y x
     = swapMetric (computeMetric masses x y) /\
     computeChristoffel (map swapMass masses) y x eps
     = swapChristoffel (computeChristoffel masses x y eps) /\
     computeGaussianCurvature (map swapMass masses) y x eps
     = computeGaussianCurvature masses x y eps).
Proof.
  split; intros masses x y eps.
  - split; [apply (height_swap binary64_add_comm)|].
    split; [apply (gradient_swap binary64_add_comm)|].
    split; [apply (metric_swap binary64_add_comm binary64_mul_comm)|].
    apply (christoffel_swap binary64_add_comm binary64_mul_comm).
  - split; [apply (height_swap real_add_comm)|].
    split; [apply (gradient_swap real_add_comm)|].
    split; [apply (metric_swap real_add_comm real_mul_comm)|].
    split; [apply (christoffel_swap real_add_comm real_mul_comm)|].
    apply curvature_swap.
Qed.

(** In binary64 the order of the masses can change the height: three
    masses at distance 0.5 from the query, so that each term is minus the
    strength. *)
Example height_order_matters_binary64 :
  (gravitationalHeight [mkMass 0.5 0 1e16; mkMass 0 0.5 1; mkMass (-0.5) 0 1] 0 0
   = -1e16 /\
   gravitationalHeight [mkMass 0 0.5 1; mkMass (-0.5) 0 1; mkMass 0.5 0 1e16] 0 0
   = -10000000000000002)%float.
Proof. vm_compute. split; reflexivity. Qed.

End MirrorSymmetry.

(** ** The vector helpers of math.js, over the reals *)

Section ExactMath.

Local Open Scope R_scope.

Lemma sum_squares_nonneg (a b : R) : 0 <= a * a + b * b.
Proof. nra. Qed.

Lemma strictEq_Req (a b : R) : strictEq a b = true <-> a = b.
Proof.
  cbn. unfold Reqb. destruct (Req_dec_T a b); split; auto; discriminate.
Qed.

Lemma length2D_sqr (v : Vec2 R) :
  length2D v * length2D v = vec_x v * vec_x v + vec_y v * vec_y v.
Proof.
  unfold length2D. cbn [add mul Math_sqrt Exact]. apply sqrt_sqrt.
  apply sum_squares_nonneg.
Qed.

Lemma length2D_nonneg (v : Vec2 R) : 0 <= length2D v.
Proof. unfold length2D. cbn [Math_sqrt Exact]. apply sqrt_pos. Qed.

Lemma length2D_zero (v : Vec2 R) :
  length2D v = 0 <-> vec_x v = 0 /\ vec_y v = 0.
Proof.
  pose proof (length2D_sqr v) as Hs. split.
  - intros H0. rewrite H0 in Hs. split; nra.
  - intros [Hx Hy]. rewrite Hx, Hy in Hs. nra.
Qed.

(** X12. [normalize2D] over the reals: the zero vector is returned as the
    zero vector (no division takes place), and every other vector is
    returned as the vector of length 1 in the same direction, so that
    scaling the result by the original length gives the original vector
    back. *)
Theorem normalize2D_unit_or_zero :
  forall v : Vec2 R,
    (vec_x v = 0 /\ vec_y v = 0 -> normalize2D v = vec2 0 0) /\
    (~ (vec_x v = 0 /\ vec_y v = 0) ->
     length2D (normalize2D v) = 1 /\
     scale2D (normalize2D v) (length2D v) = v).
Proof.
  intros v. unfold normalize2D. cbv zeta. rewrite lit_0.
  pose proof (length2D_zero v) as Hz. pose proof (length2D_nonneg v) as Hn.
  destruct (strictEq (length2D v) 0) eqn:E.
  - apply strictEq_Req in E. split; [reflexivity|].
    intros Hnz. exfalso. apply Hnz, Hz, E.
  - assert (Hne : length2D v <> 0).
    { intros C. apply strictEq_Req in C. congruence. }
    split; [intros Hv; exfalso; apply Hne, Hz, Hv|]. intros _.
    split.
    + pose proof (length2D_sqr v) as Hs.
      unfold length2D at 1. cbn [vec_x vec_y add mul div Math_sqrt Exact].
      replace (vec_x v / length2D v * (vec_x v / length2D v)
               + vec_y v / length2D v * (vec_y v / length2D v))
        with 1; [apply sqrt_1|].
      field_simplify_eq; [|exact Hne]. nra.
    + unfold scale2D. cbn [vec_x vec_y mul div Exact]. destruct v as [x y].
      cbn [vec_x vec_y] in *. f_equal; field; exact Hne.
Qed.

Lemma norm3_sqr (v : Array3 R) :
  norm3 v * norm3 v = at0 v * at0 v + at1 v * at1 v + at2 v * at2 v.
Proof. unfold norm3. apply sqrt_sqrt. nra. Qed.

(** X13. [normalize] over the reals: [[0, 0, 0]] is returned as
    [[0, 0, 0]], and every other array is returned as the unit vector of the
    same direction: its dot product with itself is 1 and each original
    component is the returned one times the original length. *)
Theorem normalize_unit_or_zero :
  forall v : Array3 R,
    (at0 v = 0 /\ at1 v = 0 /\ at2 v = 0 -> normalize v = arr3 0 0 0) /\
    (~ (at0 v = 0 /\ at1 v = 0 /\ at2 v = 0) ->
     dot (normalize v) (normalize v) = 1 /\
     at0 v = at0 (normalize v) * norm3 v /\
     at1 v = at1 (normalize v) * norm3 v /\
     at2 v = at2 (normalize v) * norm3 v).
Proof.
  intros v. unfold normalize. cbv zeta. rewrite lit_0.
  cbn [add mul div Math_sqrt Exact]. fold (norm3 v).
  pose proof (norm3_sqr v) as Hs.
  assert (Hn : 0 <= norm3 v) by apply sqrt_pos.
  destruct (strictEq (norm3 v) 0) eqn:E.
  - apply strictEq_Req in E. split; [reflexivity|].
    intros Hnz. exfalso. apply Hnz. rewrite E in Hs. repeat split; nra.
  - assert (Hne : norm3 v <> 0).
    { intros C. apply strictEq_Req in C. congruence. }
    split.
    + intros (H0 & H1 & H2). exfalso. apply Hne. rewrite H0, H1, H2 in Hs. nra.
    + intros _. unfold dot. cbn [at0 at1 at2 add mul Exact].
      repeat split; try (field; exact Hne).
      field_simplify_eq; [|exact Hne]. nra.
Qed.

(** X14. [cross] and [dot] over the reals: the cross product is
    orthogonal to both of its arguments, vanishes on equal arguments and
    changes sign when they are exchanged; the dot product is symmetric; and
    the two are tied by Lagrange's identity
    [|a x b|^2 + (a . b)^2 = |a|^2 |b|^2]. *)
Theorem cross_dot_identities :
  forall a b : Array3 R,
    dot (cross a b) a = 0 /\
    dot (cross a b) b = 0 /\
    cross a a = arr3 0 0 0 /\
    cross b a = arr3 (- at0 (cross a b)) (- at1 (cross a b)) (- at2 (cross a b)) /\
    dot a b = dot b a /\
    dot (cross a b) (cross a b) + dot a b * dot a b = dot a a * dot b b.
Proof.
  intros [a0 a1 a2] [b0 b1 b2]. unfold dot, cross.
  cbn [at0 at1 at2 add sub mul Exact].
  repeat split; try ring; f_equal; ring.
Qed.

(** X15. [distance2D] over the reals is a metric on the plane, and is the
    [length2D] of the difference computed by [sub2D]: it is symmetric,
    never negative, zero exactly between equal points, and satisfies the
    triangle inequality. *)
Theorem distance2D_is_a_metric :
  forall a b c : Vec2 R,
    distance2D a b = length2D (sub2D b a) /\
    distance2D a b = distance2D b a /\
    0 <= distance2D a b /\
    (distance2D a b = 0 <-> a = b) /\
    distance2D a c <= distance2D a b + distance2D b c.
Proof.
  intros [ax ay] [bx by_] [cx cy]. unfold distance2D, length2D, sub2D.
  cbv zeta. cbn [vec_x vec_y add sub mul Math_sqrt Exact].
  split; [reflexivity|]. split; [f_equal; ring|]. split; [apply sqrt_pos|].
  split.
  - split.
    + intros H0.
      assert (Hs : (bx - ax) * (bx - ax) + (by_ - ay) * (by_ - ay) = 0).
      { apply sqrt_eq_0; [apply sum_squares_nonneg | exact H0]. }
      destruct (Rplus_sqr_eq_0 (bx - ax) (by_ - ay) Hs) as [Hx Hy].
      f_equal; lra.
    + intros E. inversion E. subst.
      replace ((bx - bx) * (bx - bx) + (by_ - by_) * (by_ - by_)) with 0 by ring.
      apply sqrt_0.
  - pose proof (triangle cx cy ax ay bx by_) as T. unfold dist_euc, Rsqr in T.
    lra.
Qed.

(** X16. [clamp] over the reals: the result never exceeds [max]; when
    [min <= max] it lies in [[min, max]], a value already in the interval
    is returned unchanged, and clamping twice is clamping once.  When the
    bounds are given in the wrong order the result is [max], whatever the
    value. *)
Theorem clamp_within :
  forall value min max : R,
    clamp value min max <= max /\
    (min <= max -> min <= clamp value min max) /\
    (min <= value <= max -> clamp value min max = value) /\
    (min <= max -> clamp (clamp value min max) min max = clamp value min max) /\
    (max < min -> clamp value min max = max).
Proof.
  intros value lo hi. unfold clamp. cbn [Math_min Math_max ExactCompare].
  unfold Rmin, Rmax.
  repeat split; intros; repeat (destruct (Rle_dec _ _)); lra.
Qed.

(** [lerp] over the reals: [t = 0] gives [a], [t = 1] gives [b], for
    [t] in [[0, 1]] the result lies between [a] and [b], and the result is
    the convex combination [(1 - t) a + t b]. *)
Lemma lerp_endpoints :
  forall a b t : R,
    lerp a b 0 = a /\ lerp a b 1 = b /\
    (a <= b -> 0 <= t <= 1 -> a <= lerp a b t <= b) /\
    lerp a b t = (1 - t) * a + t * b.
Proof.
  intros a b t. unfold lerp. cbn [add sub mul Exact].
  repeat split; intros; try ring; nra.
Qed.

Lemma lit_180 : (lit 180 : R) = 180.
Proof. cbn. unfold Q2R. cbn. lra. Qed.

(** X17. [degToRad] and [radToDeg] over the reals are inverse to each
    other, and exchange 180 degrees with [Math.PI]. *)
Theorem degrees_radians_round_trip :
  forall d r : R,
    radToDeg (degToRad d) = d /\
    degToRad (radToDeg r) = r /\
    degToRad 180 = PI /\
    radToDeg PI = 180.
Proof.
  intros d r. unfold radToDeg, degToRad. rewrite lit_180.
  cbn [mul div Math_PI Exact ExactTrig].
  pose proof PI_neq0.
  repeat split; field; assumption.
Qed.

(** X18. [rotateVectorAroundAxis] over the reals: the angles 0 and
    [2 PI] leave every vector unchanged, whatever the axis; and around an
    axis of length 1 the rotation fixes the axis, keeps the length of the
    rotated vector and keeps its component along the axis. *)
Theorem rotation_properties :
  forall (vec axis : Array3 R) (angle : R),
    rotateVectorAroundAxis vec axis 0 = vec /\
    rotateVectorAroundAxis vec axis (2 * PI) = vec /\
    (dot axis axis = 1 ->
     rotateVectorAroundAxis axis axis angle = axis /\
     dot (rotateVectorAroundAxis vec axis angle)
         (rotateVectorAroundAxis vec axis angle) = dot vec vec /\
     dot (rotateVectorAroundAxis vec axis angle) axis = dot vec axis).
Proof.
  intros [x y z] [ax ay az] angle. unfold rotateVectorAroundAxis, dot.
  cbv zeta. rewrite lit_1.
  cbn [at0 at1 at2 add sub mul Math_cos Math_sin Exact ExactTrig].
  split; [|split].
  - rewrite cos_0, sin_0. f_equal; ring.
  - rewrite cos_2PI, sin_2PI. f_equal; ring.
  - intros Hu. pose proof (sin2_cos2 angle) as Hsc. unfold Rsqr in Hsc.
    set (c := cos angle) in *. set (s := sin angle) in *.
    split; [|split].
    + f_equal; nsatz.
    + nsatz.
    + nsatz.
Qed.

End ExactMath.

(** A rotation about the unit axis [[0, 0, 1]]. *)
Lemma rotation_properties_witness :
  (dot (arr3 0 0 1) (arr3 0 0 1) = 1 /\
   dot (rotateVectorAroundAxis (arr3 1 2 3) (arr3 0 0 1) 1)
       (rotateVectorAroundAxis (arr3 1 2 3) (arr3 0 0 1) 1)
   = dot (arr3 1 2 3) (arr3 1 2 3))%R.
Proof.
  assert (Hu : (dot (arr3 0 0 1) (arr3 0 0 1) = 1)%R).
  { unfold dot. cbn [at0 at1 at2 add mul Exact]. ring. }
  split; [exact Hu|].
  exact (proj1 (proj2 (proj2 (proj2
           (rotation_properties (arr3 1 2 3) (arr3 0 0 1) 1)) Hu)))%R.
Defined.

(** ** The same helpers in binary64 *)

Section Binary64Math.

Lemma float_max_nan (a b : float) :
  PrimFloat.is_nan (float_max a b)
  = (PrimFloat.is_nan a || PrimFloat.is_nan b)%bool.
Proof.
  unfold float_max.
  destruct (PrimFloat.is_nan a) eqn:Ea; [reflexivity|].
  destruct (PrimFloat.is_nan b) eqn:Eb; [reflexivity|]. cbn [orb].
  destruct (PrimFloat.ltb a b); [exact Eb|].
  destruct (PrimFloat.ltb b a); [exact Ea|].
  destruct (PrimFloat.is_zero a); [|exact Ea].
  destruct (PrimFloat.get_sign a && PrimFloat.get_sign b)%bool; reflexivity.
Qed.

Lemma float_min_nan (a b : float) :
  PrimFloat.is_nan (float_min a b)
  = (PrimFloat.is_nan a || PrimFloat.is_nan b)%bool.
Proof.
  unfold float_min.
  destruct (PrimFloat.is_nan a) eqn:Ea; [reflexivity|].
  destruct (PrimFloat.is_nan b) eqn:Eb; [reflexivity|]. cbn [orb].
  destruct (PrimFloat.ltb a b); [exact Ea|].
  destruct (PrimFloat.ltb b a); [exact Eb|].
  destruct (PrimFloat.is_zero a); [|exact Ea].
  destruct (PrimFloat.get_sign a || PrimFloat.get_sign b)%bool; reflexivity.
Qed.

(** X19. [clamp] in binary64 does not repair a NaN: the result is NaN
    exactly when the value or one of the bounds is. *)
Theorem clamp_nan_binary64 :
  forall value min max : float,
    PrimFloat.is_nan (clamp value min max)
    = (PrimFloat.is_nan value || PrimFloat.is_nan min
       || PrimFloat.is_nan max)%bool.
Proof.
  intros. unfold clamp. cbn [Math_min Math_max Binary64Compare].
  rewrite float_min_nan, float_max_nan. reflexivity.
Qed.

(** In binary64 a vector that is not zero can be normalised to zero, when
    its squares underflow; and [lerp] at [t = 1] can miss [b]. *)
Example normalize2D_underflow :
  normalize2D (vec2 1e-200 0)%float = vec2 0%float 0%float.
Proof. vm_compute. reflexivity. Qed.

Example lerp_misses_endpoint :
  (lerp 1 0.3 1 = 0.30000000000000004)%float.
Proof. vm_compute. reflexivity. Qed.

End Binary64Math.

(** ** [update] on any binary64 number *)

Section FlightFacts.

Local Open Scope float_scope.

(** Rounding keeps the sign it is given. *)
Lemma binary_round_aux_sign (sx : bool) (mx ex : Z) (lx : location) :
  match binary_round_aux prec emax sx mx ex lx with
  | S754_zero s | S754_infinity s | S754_finite s _ _ => s = sx
  | S754_nan => True
  end.
Proof.
  unfold binary_round_aux.
  destruct (shr_fexp prec emax mx ex lx) as [mrs' e'].
  destruct (shr_fexp prec emax _ e' loc_Exact) as [mrs'' e''].
  destruct (shr_m mrs''); try exact I; try reflexivity.
  destruct (_ <=? _)%Z; reflexivity.
Qed.

(** The length of an array, as a number, is not negative. *)
Lemma length_sign (n : nat) :
  match Prim2SF (float_of_Z (Z.of_nat n)) with
  | S754_zero _ | S754_nan => True
  | S754_infinity s | S754_finite s _ _ => s = false
  end.
Proof.
  destruct n as [|n]; [exact I|].
  cbn [Z.of_nat float_of_Z]. rewrite of_uint63_spec.
  pose proof (Uint63.to_Z_bounded (Uint63.of_Z (Z.pos (Pos.of_succ_nat n)))) as Hb.
  unfold binary_normalize.
  destruct (Uint63.to_Z _) as [|m|m]; [exact I| |lia].
  unfold binary_round. destruct (shl_align _ _ _) as [mz ez].
  pose proof (binary_round_aux_sign false (Zpos mz) ez loc_Exact) as Hs.
  destruct (binary_round_aux _ _ _ _ _ _); auto.
Qed.

(** A number below zero: [-Infinity] or a finite number with the sign
    set. *)
Lemma negative_representation (x : float) :
  (x <? 0) = true ->
  Prim2SF x = S754_infinity true \/ exists m e, Prim2SF x = S754_finite true m e.
Proof.
  rewrite ltb_spec. change (Prim2SF 0) with (S754_zero false).
  destruct (Prim2SF x) as [s|s| |s m e]; cbn; try discriminate.
  - destruct s; [auto | discriminate].
  - destruct s; [eauto | discriminate].
Qed.

Lemma nan_representation (x : float) :
  PrimFloat.is_nan x = true -> x = nan.
Proof.
  unfold PrimFloat.is_nan. intros Hx. apply Prim2SF_inj.
  rewrite FloatAxioms.eqb_spec in Hx. change (Prim2SF nan) with S754_nan.
  destruct (Prim2SF x) as [s|s| |s m e]; try reflexivity; exfalso.
  - discriminate Hx.
  - destruct s; discriminate Hx.
  - unfold SFeqb, SFcompare in Hx.
    destruct s; rewrite Z.compare_refl, Pos.compare_cont_refl in Hx;
      discriminate Hx.
Qed.

(** An index that is NaN or below zero is not past the end, and there is
    no point at it. *)
Lemma index_not_served (A : Type) (array : list A) (index : float) :
  PrimFloat.is_nan index = true \/ (index <? 0) = true ->
  (float_of_Z (Z.of_nat (length array)) <=? index) = false /\
  elementAtFloor array index = None.
Proof.
  intros [Hnan | Hneg].
  - rewrite (@nan_representation index Hnan). split.
    + rewrite leb_spec. change (Prim2SF nan) with S754_nan.
      destruct (Prim2SF _); reflexivity.
    + reflexivity.
  - pose proof (length_sign (length array)) as Hlen.
    rewrite leb_spec. unfold elementAtFloor, float_floor.
    destruct (@negative_representation index Hneg) as [-> | (m & e & ->)].
    + split; [|reflexivity].
      destruct (Prim2SF _) as [s|s| |s m e]; try reflexivity.
      subst s. reflexivity.
    + split.
      * destruct (Prim2SF _) as [s|s| |s m' e']; try reflexivity;
          subst s; reflexivity.
      * unfold element.
        assert (Hlt : forall p, (Z.neg m / 2 ^ Z.pos p < 0)%Z).
        { intros p. apply Z.div_lt_upper_bound; lia. }
        destruct e as [|p|p].
        { reflexivity. }
        { destruct (Z.ltb_spec (Z.neg m * 2 ^ Z.pos p) 0) as [_|Hge];
            [reflexivity|]. exfalso. nia. }
        { specialize (Hlt p).
          destruct (Z.ltb_spec (Z.neg m / 2 ^ Z.pos p) 0) as [_|Hge];
            [reflexivity | lia]. }
Qed.

Lemma add_nan_r (a : float) : a + nan = nan.
Proof.
  apply Prim2SF_inj. rewrite add_spec.
  destruct (Prim2SF a); reflexivity.
Qed.

(** In flight, an index that has become NaN or negative makes [update]
    throw, the index moved and the state unchanged. *)
Lemma flight_update_throws (this : Flight.t) (dt speed : float) :
  Flight.state this = FLYING ->
  let index := Flight.currentTrajectoryIndex this + speed in
  PrimFloat.is_nan index = true \/ (index <? 0) = true ->
  Flight.update dt speed this
  = (Flight.mk (Flight.pos this) FLYING (Flight.trajectory this) index
       (Flight.previewResult this),
     UpdateTypeError).
Proof.
  intros Hs index Hi. unfold Flight.update. rewrite Hs. cbv zeta. fold index.
  destruct (@index_not_served _ (Flight.trajectory this) index Hi) as [-> ->].
  reflexivity.
Qed.

End FlightFacts.

(** ** The projectile *)

Section ProjectileTheorems.

Context {num : Type} `{JSNumber num}.

Import Projectile.

Lemma element_inside (A : Type) (array : list A) (index : Z) :
  (0 <= index < Z.of_nat (length array))%Z ->
  exists x, element array index = Some x /\
            nth_error array (Z.to_nat index) = Some x.
Proof.
  intros Hi. unfold element.
  destruct (Z.ltb_spec index 0) as [Hneg|_]; [lia|].
  destruct (nth_error array (Z.to_nat index)) as [x|] eqn:E.
  - exists x. auto.
  - apply nth_error_None in E. lia.
Qed.

Lemma slice_inside (A : Type) (array : list A) (index : Z) :
  (0 <= index <= Z.of_nat (length array))%Z ->
  slice array index = skipn (Z.to_nat index) array.
Proof.
  intros Hi. unfold slice.
  destruct (Z.ltb_spec index 0) as [Hneg|_]; [lia|].
  now rewrite Z.min_l by lia.
Qed.

Lemma point3_eta (p : Point3 num) : point3 (pt_x p) (pt_y p) (pt_z p) = p.
Proof. destruct p; reflexivity. Qed.

(** A run of at least one step returns at least one point, and every
    point it returns is on the surface. *)
Lemma computeTrajectory_surface (masses : list (Mass num))
    (startPos startVel : Vec2 num) (options : Options num) :
  (maxSteps options <> 0%nat ->
   points (computeTrajectory masses startPos startVel options) <> []) /\
  Forall (onSurface masses)
    (points (computeTrajectory masses startPos startVel options)).
Proof.
  destruct (trajectoryLoop_points masses options (maxSteps options) []
              startPos startVel) as (new & Hpts & Hhd & Hsurf & _).
  unfold computeTrajectory, runTrajectory. rewrite Hpts. cbn [app].
  split; [|exact Hsurf]. intros Hn. destruct new; [contradiction | discriminate].
Qed.

(** A run of at least two steps that passes the three tests of its first
    pass returns at least two points. *)
Lemma computeTrajectory_two_points (masses : list (Mass num))
    (startPos startVel : Vec2 num) (options : Options num) :
  (2 <= maxSteps options)%nat ->
  goalReached options startPos = false ->
  outsideBounds (bounds options) startPos = false ->
  tooClose masses (st_pos (integrateRK4 masses startPos startVel (dt options)))
  = false ->
  (2 <= length (points (computeTrajectory masses startPos startVel options)))%nat.
Proof.
  intros Hsteps Hgoal Hout Hclose. unfold computeTrajectory, runTrajectory.
  destruct (maxSteps options) as [|[|n]]; [lia | lia |].
  rewrite trajectoryLoop_step. cbv zeta. rewrite Hgoal, Hout, Hclose.
  destruct (@trajectoryLoop_points _ _ masses options (S n)
              ([] ++ [recordPoint masses startPos])
              (st_pos (integrateRK4 masses startPos startVel (dt options)))
              (st_vel (integrateRK4 masses startPos startVel (dt options))))
    as (new & Hpts & Hhead & _).
  cbn [snd]. rewrite Hpts. destruct new as [|p rest]; [discriminate Hhead|].
  cbn. lia.
Qed.

(** One [update] of a projectile in flight whose index stays in the
    trajectory. *)
Lemma update_moves (this : t num) (dt : num) (speed : Z) :
  state this = FLYING ->
  (0 <= currentTrajectoryIndex this + speed
   < Z.of_nat (length (trajectory this)))%Z ->
  exists point,
    nth_error (trajectory this)
      (Z.to_nat (currentTrajectoryIndex this + speed)) = Some point /\
    update dt speed this
    = ({| pos := pointPos point;
          vel := vel this;
          state := FLYING;
          trajectory := trajectory this;
          currentTrajectoryIndex := (currentTrajectoryIndex this + speed)%Z;
          previewTrajectory := previewTrajectory this;
          previewResult := previewResult this;
          startPos := startPos this;
          angle := angle this;
          power := power this |},
       UpdateMoved point).
Proof.
  intros Hs Hi. destruct (element_inside (trajectory this) Hi) as (point & He & Hn).
  exists point. split; [exact Hn|]. unfold update. rewrite Hs. cbv zeta.
  destruct (Z.geb_spec (currentTrajectoryIndex this + speed)
              (Z.of_nat (length (trajectory this)))) as [Hge|_]; [lia|].
  rewrite He, point3_eta. reflexivity.
Qed.

(** One [update] of a projectile in flight whose index leaves the
    trajectory at its end. *)
Lemma update_finishes (this : t num) (dt : num) (speed : Z) :
  state this = FLYING ->
  (Z.of_nat (length (trajectory this)) <= currentTrajectoryIndex this + speed)%Z ->
  snd (update dt speed this) = UpdateFinished (previewReachedGoal this) /\
  state (fst (update dt speed this)) = FINISHED /\
  trajectory (fst (update dt speed this)) = trajectory this.
Proof.
  intros Hs Hi. unfold update. rewrite Hs. cbv zeta.
  destruct (Z.geb_spec (currentTrajectoryIndex this + speed)
              (Z.of_nat (length (trajectory this)))) as [_|Hlt]; [|lia].
  cbn. auto.
Qed.

Lemma update_idle (this : t num) (dt : num) (speed : Z) :
  state this <> FLYING -> update dt speed this = (this, UpdateNull).
Proof. intros Hs. unfold update. destruct (state this); congruence. Qed.

(** The flight, update by update. *)
Lemma flight_state (this : t num) (dt : num) (speed : Z) :
  (1 <= speed)%Z -> state this = FLYING -> currentTrajectoryIndex this = 0%Z ->
  trajectory this <> [] ->
  forall k : nat,
    let after := updates dt speed k this in
    trajectory after = trajectory this /\
    previewResult after = previewResult this /\
    if (Z.of_nat k * speed <? Z.of_nat (length (trajectory this)))%Z then
      state after = FLYING /\
      currentTrajectoryIndex after = (Z.of_nat k * speed)%Z
    else state after = FINISHED.
Proof.
  intros Hsp Hs Hi Hne k. cbv zeta.
  assert (Hlen : (1 <= Z.of_nat (length (trajectory this)))%Z).
  { destruct (trajectory this); [congruence | cbn [length]; lia]. }
  induction k as [|k IH].
  - cbn [updates]. split; [reflexivity|]. split; [reflexivity|].
    destruct (Z.ltb_spec (Z.of_nat 0 * speed) (Z.of_nat (length (trajectory this))));
      [auto | lia].
  - destruct IH as (Ht & Hr & IH). cbn [updates].
    set (before := updates dt speed k this) in *.
    destruct (Z.ltb_spec (Z.of_nat k * speed) (Z.of_nat (length (trajectory this))))
      as [Hk|Hk].
    + destruct IH as [Hfly Hidx].
      destruct (Z.ltb_spec (Z.of_nat (S k) * speed)
                  (Z.of_nat (length (trajectory this)))) as [Hk1|Hk1].
      * destruct (update_moves before dt speed Hfly) as (point & _ & Hu).
        { rewrite Hidx, Ht. nia. }
        rewrite Hu. cbn [fst trajectory previewResult state currentTrajectoryIndex].
        repeat split; auto. rewrite Hidx. lia.
      * destruct (update_finishes before dt speed Hfly) as (_ & Hfin & Htr).
        { rewrite Hidx, Ht. nia. }
        split; [congruence|]. split; [|exact Hfin].
        unfold update. rewrite Hfly. cbv zeta.
        destruct (_ >=? _)%Z; [exact Hr|].
        destruct (element _ _); exact Hr.
    + assert (Hfin : state before <> FLYING) by congruence.
      rewrite (update_idle before dt speed Hfin). cbn [fst].
      destruct (Z.ltb_spec (Z.of_nat (S k) * speed)
                  (Z.of_nat (length (trajectory this)))) as [Hk1|Hk1]; [nia|].
      auto.
Qed.

(** Launching what [computePreview] left. *)
Lemma launch_preview (masses : list (Mass num)) (goalPos : option (Vec2 num))
    (goalRadius : num) (bounds : Bounds num) (aiming : t num)
    (r : TrajectoryResult num) :
  state aiming = AIMING ->
  r = computeTrajectory masses (pos aiming) (vel aiming)
        (previewOptions goalPos goalRadius bounds) ->
  points r <> [] ->
  launch (computePreview masses goalPos goalRadius bounds aiming)
  = {| pos := pos aiming;
       vel := vel aiming;
       state := FLYING;
       trajectory := points r;
       currentTrajectoryIndex := 0;
       previewTrajectory := points r;
       previewResult := Some r;
       startPos := startPos aiming;
       angle := angle aiming;
       power := power aiming |}.
Proof.
  intros Haim Hr Hne. unfold computePreview. rewrite Haim. cbv zeta.
  rewrite <- Hr. unfold launch. cbn [previewTrajectory].
  destruct (points r) eqn:E; [congruence|]. reflexivity.
Qed.

Lemma preview_length (masses : list (Mass num)) (goalPos : option (Vec2 num))
    (goalRadius : num) (bounds : Bounds num) (startPos startVel : Vec2 num) :
  (1 <= length (points (computeTrajectory masses startPos startVel
                          (previewOptions goalPos goalRadius bounds)))
   <= 2000)%nat.
Proof.
  pose proof (computeTrajectory_length masses startPos startVel
                (previewOptions goalPos goalRadius bounds)) as Hle.
  destruct (computeTrajectory_surface masses startPos startVel
              (previewOptions goalPos goalRadius bounds)) as [Hne _].
  assert (Hmax : maxSteps (previewOptions goalPos goalRadius bounds) = 2000%nat)
    by reflexivity.
  rewrite Hmax in Hle, Hne. specialize (Hne ltac:(discriminate)).
  split; [|exact Hle].
  destruct (points _); [congruence | cbn [length]; lia].
Qed.

(** X20. A flight, update by update.  A projectile that is aiming, given a
    preview and launched, flies the points of
    [computeTrajectory(pos, vel, {maxSteps: 2000, dt: 0.01, ...})]: between
    1 and 2000 of them.  With a speed of at least 1, the [k]-th [update]
    moves the projectile to the point of index [k * speed] as long as that
    index is inside the trajectory, and then [getPosition3D] is that point
    (while the masses are those of the preview) and [getCurrentTrajectory]
    the points from it on; the first [update] whose index is past the end
    reports [finished] with the [reachedGoal] of the preview and ends the
    flight; every later [update] returns [null] and changes nothing. *)
Theorem projectile_flight :
  forall (masses : list (Mass num)) (goalPos : option (Vec2 num))
         (goalRadius : num) (bounds : Bounds num) (aiming : t num)
         (dt : num) (speed : Z),
    state aiming = AIMING -> (1 <= speed)%Z ->
    let r := computeTrajectory masses (pos aiming) (vel aiming)
               (previewOptions goalPos goalRadius bounds) in
    let flying := launch (computePreview masses goalPos goalRadius bounds aiming) in
    let n := Z.of_nat (length (points r)) in
    state flying = FLYING /\ trajectory flying = points r /\
    (1 <= n <= 2000)%Z /\
    forall k : nat,
      let before := updates dt speed k flying in
      let index := (Z.of_nat (S k) * speed)%Z in
      if (index <? n)%Z then
        exists point,
          nth_error (points r) (Z.to_nat index) = Some point /\
          snd (update dt speed before) = UpdateMoved point /\
          state (fst (update dt speed before)) = FLYING /\
          getPosition3D masses (fst (update dt speed before)) = point /\
          getCurrentTrajectory (fst (update dt speed before))
          = skipn (Z.to_nat index) (points r)
      else if (Z.of_nat k * speed <? n)%Z then
        snd (update dt speed before) = UpdateFinished (reachedGoal r) /\
        state (fst (update dt speed before)) = FINISHED
      else update dt speed before = (before, UpdateNull).
Proof.
  intros masses goalPos goalRadius bounds aiming dt speed Haim Hsp. cbv zeta.
  pose proof (preview_length masses goalPos goalRadius bounds
                (pos aiming) (vel aiming)) as Hlen.
  destruct (computeTrajectory_surface masses (pos aiming) (vel aiming)
              (previewOptions goalPos goalRadius bounds)) as [_ Hsurf].
  remember (computeTrajectory masses (pos aiming) (vel aiming)
              (previewOptions goalPos goalRadius bounds)) as r eqn:Hr.
  assert (Hne : points r <> []).
  { destruct (points r); [cbn [length] in Hlen; lia | discriminate]. }
  rewrite (launch_preview masses goalPos goalRadius bounds aiming Haim Hr Hne).
  remember (mk (pos aiming) (vel aiming) FLYING (points r) 0 (points r)
               (Some r) (startPos aiming) (angle aiming) (power aiming))
    as flying eqn:Hflying.
  assert (Hst : state flying = FLYING) by (subst flying; reflexivity).
  assert (Htr : trajectory flying = points r) by (subst flying; reflexivity).
  assert (Hix : currentTrajectoryIndex flying = 0%Z) by (subst flying; reflexivity).
  assert (Hpr : previewResult flying = Some r) by (subst flying; reflexivity).
  clear Hflying.
  split; [exact Hst|]. split; [exact Htr|].
  split; [lia|]. intros k.
  destruct (@flight_state flying dt speed Hsp Hst Hix ltac:(congruence) k)
    as (Ht & Hres & Hk).
  rewrite Htr in Ht, Hk. rewrite Hpr in Hres.
  remember (updates dt speed k flying) as before eqn:Hbefore. clear Hbefore.
  destruct (Z.ltb_spec (Z.of_nat (S k) * speed) (Z.of_nat (length (points r))))
    as [Hk1|Hk1].
  - destruct (Z.ltb_spec (Z.of_nat k * speed) (Z.of_nat (length (points r))))
      as [Hk0|Hk0]; [|nia].
    destruct Hk as [Hfly Hidx].
    destruct (update_moves before dt speed Hfly) as (point & Hn & Hu).
    { rewrite Hidx, Ht. nia. }
    replace (currentTrajectoryIndex before + speed)%Z
      with (Z.of_nat (S k) * speed)%Z in * by lia.
    rewrite Ht in Hn, Hu.
    exists point. rewrite Hu. cbn [fst snd state].
    split; [exact Hn|]. split; [reflexivity|]. split; [reflexivity|]. split.
    + unfold getPosition3D. cbn [pos pointPos vec_x vec_y].
      assert (Hon : onSurface masses point).
      { apply nth_error_In in Hn. rewrite Forall_forall in Hsurf. auto. }
      unfold onSurface in Hon. rewrite <- Hon. apply point3_eta.
    + unfold getCurrentTrajectory. cbn [state trajectory currentTrajectoryIndex].
      apply slice_inside. lia.
  - destruct (Z.ltb_spec (Z.of_nat k * speed) (Z.of_nat (length (points r))))
      as [Hk0|Hk0].
    + destruct Hk as [Hfly Hidx].
      destruct (update_finishes before dt speed Hfly) as (Hfin1 & Hfin & _).
      { rewrite Hidx, Ht. nia. }
      split; [|exact Hfin]. rewrite Hfin1. unfold previewReachedGoal.
      now rewrite Hres.
    + apply update_idle. congruence.
Qed.

Lemma launch_cases (this : t num) :
  launch this = this \/
  (previewTrajectory this <> [] /\
   launch this
   = {| pos := pos this;
        vel := vel this;
        state := FLYING;
        trajectory := previewTrajectory this;
        currentTrajectoryIndex := 0;
        previewTrajectory := previewTrajectory this;
        previewResult := previewResult this;
        startPos := startPos this;
        angle := angle this;
        power := power this |}).
Proof.
  unfold launch. destruct (previewTrajectory this); [left|right]; auto.
  split; [discriminate | reflexivity].
Qed.

Lemma update_cases (this : t num) (dt : num) (speed : Z) :
  let after := fst (update dt speed this) in
  trajectory after = trajectory this /\
  previewTrajectory after = previewTrajectory this /\
  previewResult after = previewResult this /\
  (state after = FLYING -> state this = FLYING) /\
  (state this = FLYING ->
   currentTrajectoryIndex after = (currentTrajectoryIndex this + speed)%Z) /\
  (state this <> FLYING -> after = this).
Proof.
  cbv zeta. unfold update. destruct (state this) eqn:Hs;
    try (cbn [fst]; repeat split; auto; congruence).
  cbv zeta. destruct (_ >=? _)%Z.
  - cbn. repeat split; auto; congruence.
  - destruct (element _ _); cbn; repeat split; auto; congruence.
Qed.

Section Sessions.

Context `{JSTrig num}.

Lemma consistent_serve (world : list (Mass num) * t num) (r : Request num) :
  consistent (snd world) -> consistent (snd (fst (serve world r))).
Proof.
  destruct world as [masses this]. cbn [snd]. intros [Hprev Hfly].
  destruct r as [newMasses| |x y|angle0 power0| |goalPos goalRadius bounds| |dt0 speed];
    cbn [serve fst snd].
  - split; assumption.
  - split; [left; reflexivity | discriminate].
  - split; assumption.
  - split; assumption.
  - split; [assumption | discriminate].
  - unfold computePreview. destruct (state this) eqn:Hs;
      try (split; [assumption
                  | intros Hf; first [congruence | exact (Hfly eq_refl)]]).
    cbv zeta. split; cbn [previewTrajectory state]; [|congruence].
    right. eexists. split; [|split; reflexivity].
    unfold previewOf. do 6 eexists. reflexivity.
  - destruct (launch_cases this) as [->|[Hne ->]]; [split; assumption|].
    split; cbn [previewTrajectory state trajectory previewResult]; [assumption|].
    intros _. destruct Hprev as [Hnil|Hex]; [congruence | exact Hex].
  - destruct (update_cases this dt0 speed) as (Ht & Hp & Hr & Hs & _).
    destruct (update dt0 speed this) as [after result]. cbn [fst snd] in *.
    split.
    + rewrite Hp, Hr. exact Hprev.
    + intros Hf. rewrite Ht, Hr. auto.
Qed.

Lemma consistent_served (requests : list (Request num)) :
  forall world, consistent (snd world) -> consistent (snd (served world requests)).
Proof.
  induction requests as [|r rest IH]; intros world Hc; [exact Hc|].
  cbn [served fold_left]. apply IH, consistent_serve, Hc.
Qed.

Lemma consistent_constructor : consistent (constructor (num := num)).
Proof. split; [left; reflexivity | discriminate]. Qed.

(** X21. The verdict is that of the trajectory flown.  After any sequence
    of calls on a new projectile (the methods of the class, [setMasses],
    and the assignment of [AIMING] that main.js makes), whenever [update]
    reports [finished], the trajectory of the projectile is the [points] of
    a result of [computeTrajectory] on the preview's options, and the
    [reachedGoal] reported is the one of that same result. *)
Theorem verdict_of_flown_trajectory :
  forall (masses : list (Mass num)) (requests : list (Request num))
         (dt : num) (speed : Z),
    let this := snd (served (masses, constructor) requests) in
    match snd (update dt speed this) with
    | UpdateFinished reached =>
        exists masses0 pos0 vel0 goalPos goalRadius bounds,
          let r := computeTrajectory masses0 pos0 vel0
                     (previewOptions goalPos goalRadius bounds) in
          trajectory this = points r /\ reached = reachedGoal r
    | _ => True
    end.
Proof.
  intros masses requests dt speed. cbv zeta.
  pose proof (consistent_served requests (masses, constructor)
                consistent_constructor) as [_ Hfly].
  set (this := snd (served (masses, constructor) requests)) in *.
  unfold update. destruct (state this) eqn:Hs; try exact I.
  cbv zeta. destruct (_ >=? _)%Z.
  - cbn [snd]. destruct (Hfly eq_refl) as (r & Hprev & Ht & Hr).
    destruct Hprev as (m0 & p0 & v0 & g & gr & b & ->).
    exists m0, p0, v0, g, gr, b. cbv zeta. split; [exact Ht|].
    unfold previewReachedGoal. now rewrite Hr.
  - destruct (element _ _); exact I.
Qed.

Lemma index_served (requests : list (Request num)) :
  forwardOnly requests ->
  forall world,
    (0 <= currentTrajectoryIndex (snd world))%Z ->
    (0 <= currentTrajectoryIndex (snd (served world requests)))%Z.
Proof.
  induction 1 as [|r rest Hr _ IH]; intros world Hi; [exact Hi|].
  cbn [served fold_left]. apply IH.
  destruct world as [masses this]. cbn [snd] in *.
  destruct r as [newMasses| |x y|angle0 power0| |goalPos goalRadius bounds| |dt0 speed];
    cbn [serve fst snd]; try exact Hi; try (cbn; lia).
  - unfold computePreview. destruct (state this); exact Hi.
  - destruct (launch_cases this) as [->|[_ ->]]; [exact Hi | cbn; lia].
  - pose proof (update_cases this dt0 speed) as (_ & _ & _ & _ & Hidx & Hsame).
    destruct (update dt0 speed this) as [after result]. cbn [fst snd] in *.
    destruct (state this) eqn:Hs;
      try (rewrite Hsame by discriminate; exact Hi).
    rewrite Hidx by reflexivity. lia.
Qed.

(** X22. [update] reads the trajectory at an index it has checked against
    the length only.  With integer speeds, as main.js gives them: after
    any sequence of calls on a new projectile in which no [update] was
    given a negative speed, an [update] with a speed that is not negative
    never fails; with a negative speed it does: when the index goes below
    zero the point read is [undefined], and [update] throws on its [x],
    having already moved the index.  With any binary64 speed: in flight,
    when the index becomes NaN or negative, [update] throws, the index
    moved and the state still [FLYING]; a NaN speed always does that, and
    leaves an index from which every later [update] throws again, whatever
    its speed. *)
Theorem update_checks_upper_bound_only :
  (forall (masses : list (Mass num)) (requests : list (Request num))
          (dt : num) (speed : Z),
     forwardOnly requests -> (0 <= speed)%Z ->
     snd (update dt speed (snd (served (masses, constructor) requests)))
     <> UpdateTypeError) /\
  (forall (this : t num) (dt : num) (speed : Z),
     state this = FLYING -> (currentTrajectoryIndex this + speed < 0)%Z ->
     snd (update dt speed this) = UpdateTypeError /\
     currentTrajectoryIndex (fst (update dt speed this))
     = (currentTrajectoryIndex this + speed)%Z /\
     state (fst (update dt speed this)) = FLYING) /\
  (forall (this : Flight.t) (dt speed : float),
     Flight.state this = FLYING ->
     let index := (Flight.currentTrajectoryIndex this + speed)%float in
     PrimFloat.is_nan index = true \/ (index <? 0)%float = true ->
     Flight.update dt speed this
     = (Flight.mk (Flight.pos this) FLYING (Flight.trajectory this) index
          (Flight.previewResult this),
        UpdateTypeError)) /\
  (forall (this : Flight.t) (dt dt' speed' : float),
     Flight.state this = FLYING ->
     let thrown := Flight.update dt nan this in
     snd thrown = UpdateTypeError /\
     Flight.state (fst thrown) = FLYING /\
     Flight.currentTrajectoryIndex (fst thrown) = nan /\
     snd (Flight.update dt' speed' (fst thrown)) = UpdateTypeError).
Proof.
  split; [|split; [|split]].
  - intros masses requests dt speed Hfw Hsp.
    pose proof (@index_served requests Hfw (masses, constructor)) as Hi.
    cbn [snd constructor currentTrajectoryIndex] in Hi. specialize (Hi ltac:(lia)).
    set (this := snd (served (masses, constructor) requests)) in *.
    unfold update. destruct (state this); try discriminate.
    cbv zeta.
    destruct (Z.geb_spec (currentTrajectoryIndex this + speed)
                (Z.of_nat (length (trajectory this)))) as [Hge|Hlt];
      [discriminate|].
    destruct (@element_inside _ (trajectory this)
                (currentTrajectoryIndex this + speed)%Z ltac:(lia))
      as (point & -> & _).
    discriminate.
  - intros this dt speed Hs Hneg. unfold update. rewrite Hs. cbv zeta.
    destruct (Z.geb_spec (currentTrajectoryIndex this + speed)
                (Z.of_nat (length (trajectory this)))) as [Hge|Hlt]; [lia|].
    unfold element.
    destruct (Z.ltb_spec (currentTrajectoryIndex this + speed) 0); [|lia].
    cbn. auto.
  - intros this dt speed Hs index Hi. exact (@flight_update_throws this dt speed Hs Hi).
  - intros this dt dt' speed' Hs. cbv zeta.
    rewrite (@flight_update_throws this dt nan Hs)
      by (left; rewrite add_nan_r; reflexivity).
    cbn [fst snd Flight.state Flight.currentTrajectoryIndex].
    rewrite add_nan_r. repeat split.
    rewrite flight_update_throws; [reflexivity | reflexivity |].
    left. cbn [Flight.currentTrajectoryIndex]. rewrite add_nan_l. reflexivity.
Qed.

End Sessions.

End ProjectileTheorems.

(** X20, witnessed: level 1, a projectile left at rest at the start, two
    points a frame as in main.js. *)
Lemma projectile_flight_witness :
  let aiming :=
    Projectile.assignAiming
      (Projectile.setStartPosition (-3.5)%float 0%float Projectile.constructor) in
  Projectile.state aiming = AIMING /\ (1 <= 2)%Z /\
  Projectile.state
    (Projectile.launch
       (Projectile.computePreview level1Masses (Some (vec2 3.5 0)%float)
          0.5%float levelBounds aiming))
  = FLYING.
Proof.
  cbv zeta. split; [reflexivity|]. split; [lia|].
  exact (proj1 (@projectile_flight float Binary64 level1Masses
                  (Some (vec2 3.5 0)%float) 0.5%float levelBounds
                  (Projectile.assignAiming
                     (Projectile.setStartPosition (-3.5)%float 0%float
                        Projectile.constructor))
                  0%float 2%Z eq_refl ltac:(lia))).
Defined.

(** X22, witnessed.  Over the reals: a projectile put at (-3, 0), aimed,
    given its preview on the empty field and launched is in flight on at
    least two points, and an [update] with speed 1 moves it to a point.
    In binary64: the same flight on level 1, and an [update] with a NaN
    speed. *)
Lemma update_checks_upper_bound_only_witness :
  let requests :=
    [Projectile.DoSetStartPosition (-3)%R 0%R;
     Projectile.DoSetAimParameters 0%R 2%R;
     Projectile.DoAssignAiming;
     Projectile.DoComputePreview (Some (vec2 3 0)%R) 1%R
       (mkBounds (-5) 5 (-5) 5)%R;
     Projectile.DoLaunch] in
  let this := snd (Projectile.served ([], Projectile.constructor) requests) in
  let flight :=
    Flight.launched (vec2 (-3.5) 0)%float
      (computeTrajectory level1Masses (vec2 (-3.5) 0)%float (vec2 2 0)%float
         (plainOptions 3)) in
  (Projectile.forwardOnly requests /\ (0 <= 1)%Z /\
   Projectile.state this = FLYING /\
   (2 <= length (Projectile.trajectory this))%nat /\
   (exists point, snd (Projectile.update 0%R 1 this) = UpdateMoved point) /\
   snd (Projectile.update 0%R 1 this) <> UpdateTypeError) /\
  (Flight.state flight = FLYING /\
   length (Flight.trajectory flight) = 3%nat /\
   snd (Flight.update 0.016 nan flight) = UpdateTypeError)%float.
Proof.
  intros requests this flight. split.
  - assert (Hfw : Projectile.forwardOnly requests) by (repeat constructor).
    set (aiming :=
           Projectile.assignAiming
             (Projectile.setAimParameters 0%R 2%R
                (Projectile.setStartPosition (-3)%R 0%R Projectile.constructor))).
    set (r := computeTrajectory [] (Projectile.pos aiming) (Projectile.vel aiming)
                (Projectile.previewOptions (Some (vec2 3 0)%R) 1%R
                   (mkBounds (-5) 5 (-5) 5)%R)).
    assert (Hlen : (2 <= length (points r))%nat).
    { apply computeTrajectory_two_points.
      - cbn [maxSteps Projectile.previewOptions]. lia.
      - unfold goalReached. cbn [goalPos Projectile.previewOptions goalRadius].
        unfold length2D. cbn. unfold Rltb.
        destruct (Rlt_dec _ _) as [Hlt|]; [exfalso | reflexivity].
        match type of Hlt with
        | (sqrt ?X < _)%R =>
            pose proof (sqrt_le_1_alt 1 X ltac:(lra)) as Hle
        end.
        rewrite sqrt_1 in Hle. lra.
      - unfold outsideBounds. cbn. unfold Rltb.
        repeat (destruct (Rlt_dec _ _); [exfalso; lra|]). reflexivity.
      - reflexivity. }
    assert (Hthis : this
                    = Projectile.mk (Projectile.pos aiming) (Projectile.vel aiming)
                        FLYING (points r) 0 (points r) (Some r)
                        (Projectile.startPos aiming) (Projectile.angle aiming)
                        (Projectile.power aiming)).
    { subst this requests.
      cbn [Projectile.served fold_left Projectile.serve fst snd].
      fold aiming. apply launch_preview; [reflexivity | reflexivity |].
      destruct (points r); [cbn in Hlen; lia | discriminate]. }
    split; [exact Hfw|]. split; [lia|].
    split; [rewrite Hthis; reflexivity|].
    split; [rewrite Hthis; exact Hlen|].
    split.
    + destruct (@update_moves R this 0%R 1%Z) as (point & _ & Hu).
      * rewrite Hthis. reflexivity.
      * rewrite Hthis.
        cbn [Projectile.currentTrajectoryIndex Projectile.trajectory]. lia.
      * exists point. rewrite Hu. reflexivity.
    + exact (proj1 (@update_checks_upper_bound_only R Exact ExactTrig) []
               requests 0%R 1%Z Hfw ltac:(lia)).
  - split; [reflexivity|]. split; [vm_compute; reflexivity|].
    destruct (proj2 (proj2 (proj2 (@update_checks_upper_bound_only R Exact ExactTrig)))
                flight 0.016%float 0%float 0%float eq_refl) as [Hthrown _].
    exact Hthrown.
Defined.

(** The two readings of [update] on a flight of three points of level 1.
    With speed 2 both move to the third point and then report the end.  In
    binary64 a speed of 0.5 or of -0 reads the first point and a speed of
    [Infinity] reports the end; speeds of -0.5, [-Infinity] and NaN
    throw. *)
Example update_in_numbers :
  let r :=
    computeTrajectory level1Masses (vec2 (-3.5) 0)%float (vec2 2 0)%float
      (plainOptions 3) in
  let this :=
    Projectile.mk (vec2 (-3.5) 0)%float (vec2 2 0)%float FLYING (points r) 0
      (points r) (Some r) None None None in
  let flight := Flight.launched (vec2 (-3.5) 0)%float r in
  let third :=
    (point3 (-3.4599657233515733) (-4.0941625817685393e-08)
       (-0.37879115749781128))%float in
  (nth_error (points r) 2 = Some third /\
   snd (Projectile.update 0.016 2%Z this) = UpdateMoved third /\
   snd (Flight.update 0.016 2 flight) = UpdateMoved third /\
   snd (Projectile.update 0.016 2%Z (fst (Projectile.update 0.016 2%Z this)))
   = UpdateFinished false /\
   snd (Flight.update 0.016 2 (fst (Flight.update 0.016 2 flight)))
   = UpdateFinished false /\
   snd (Flight.update 0.016 0.5 flight) = UpdateMoved (point3 (-3.5) 0 (-0.375)) /\
   snd (Flight.update 0.016 (-0) flight) = UpdateMoved (point3 (-3.5) 0 (-0.375)) /\
   snd (Flight.update 0.016 infinity flight) = UpdateFinished false /\
   snd (Flight.update 0.016 (-0.5) flight) = UpdateTypeError /\
   snd (Flight.update 0.016 neg_infinity flight) = UpdateTypeError /\
   snd (Flight.update 0.016 nan flight) = UpdateTypeError)%float.
Proof. vm_compute. repeat split. Qed.

(** ** Aiming, over the reals *)

Section ExactAim.

Local Open Scope R_scope.

Import Projectile.

(** X23. [setAimParameters] over the reals: the angle is in degrees,
    counter-clockwise from the x axis, and the power is the launch speed.
    The velocity has length [|power|]; 0 degrees gives [(power, 0)] and 90
    degrees [(0, power)]; a full turn more gives the same velocity; and
    nothing but the velocity, the angle and the power is changed. *)
Theorem aim_is_polar :
  forall (angle power : R) (this : t R),
    let aimed := setAimParameters angle power this in
    length2D (vel aimed) = Rabs power /\
    vel (setAimParameters 0 power this) = vec2 power 0 /\
    vel (setAimParameters 90 power this) = vec2 0 power /\
    vel (setAimParameters (angle + 360) power this) = vel aimed /\
    pos aimed = pos this /\ state aimed = state this /\
    previewTrajectory aimed = previewTrajectory this /\
    trajectory aimed = trajectory this.
Proof.
  intros angle power this. cbv zeta. unfold setAimParameters, aimVelocity.
  cbn [vel pos state previewTrajectory trajectory]. cbv zeta.
  rewrite lit_180. cbn [mul div Math_cos Math_sin Math_PI Exact ExactTrig].
  split; [|split; [|split; [|split]]].
  - unfold length2D. cbn [vec_x vec_y add mul Math_sqrt Exact].
    pose proof (sin2_cos2 (angle * PI / 180)) as Hsc. unfold Rsqr in Hsc.
    replace (cos (angle * PI / 180) * power * (cos (angle * PI / 180) * power)
             + sin (angle * PI / 180) * power * (sin (angle * PI / 180) * power))
      with (Rsqr power).
    + apply sqrt_Rsqr_abs.
    + unfold Rsqr.
      transitivity ((sin (angle * PI / 180) * sin (angle * PI / 180)
                     + cos (angle * PI / 180) * cos (angle * PI / 180))
                    * (power * power)); [rewrite Hsc; ring | ring].
  - replace (0 * PI / 180) with 0 by field. rewrite cos_0, sin_0.
    f_equal; ring.
  - replace (90 * PI / 180) with (PI / 2) by field. rewrite cos_PI2, sin_PI2.
    f_equal; ring.
  - replace ((angle + 360) * PI / 180) with (angle * PI / 180 + 2 * PI) by field.
    rewrite cos_plus, sin_plus, cos_2PI, sin_2PI. f_equal; ring.
  - auto.
Qed.

End ExactAim.

(** ** The generator, over the reals *)

Section ExactGenerator.

Local Open Scope R_scope.

Lemma lit_integer (z : Z) : (lit (inject_Z z) : R) = IZR z.
Proof. cbn. unfold Q2R. cbn. field. Qed.

Lemma Int_part_IZR (z : Z) : Int_part (IZR z) = z.
Proof. symmetry. apply Int_part_spec. lra. Qed.

Lemma Rtruncate_IZR (z : Z) : Rtruncate (IZR z) = z.
Proof.
  unfold Rtruncate. destruct (Rle_dec 0 (IZR z)) as [Hz|Hz].
  - apply Int_part_IZR.
  - rewrite <- opp_IZR, Int_part_IZR. lia.
Qed.

Lemma land_31_bits (a : Z) : (0 <= Z.land a 2147483647 <= 2147483647)%Z.
Proof.
  change 2147483647%Z with (Z.ones 31). rewrite Z.land_ones by lia.
  pose proof (Z.mod_pos_bound a (2 ^ 31) ltac:(lia)) as Hm.
  change (Z.ones 31) with (2 ^ 31 - 1)%Z. lia.
Qed.

(** [next] over the reals: the seed left is an integer of 31 bits, the
    value is that integer over [2^31 - 1]. *)
Lemma next_exact (seed : R) :
  exists n : Z,
    (0 <= n <= 2147483647)%Z /\
    SeededRandom.next seed = (IZR n / 2147483647, IZR n).
Proof.
  unfold SeededRandom.next. cbv zeta.
  cbn [bitand ExactBitwise add mul div Exact].
  change (lit 2147483647 : R) with (lit (inject_Z 2147483647) : R).
  rewrite lit_integer, Rtruncate_IZR.
  change (wrap32 2147483647) with 2147483647%Z.
  eexists. split; [apply land_31_bits | reflexivity].
Qed.

Lemma next_unit (seed : R) : 0 <= fst (SeededRandom.next seed) <= 1.
Proof.
  destruct (next_exact seed) as (n & [Hn0 Hn1] & ->). cbn [fst].
  apply IZR_le in Hn0, Hn1. unfold Rdiv. lra.
Qed.

Lemma range_within (min max seed : R) :
  min <= max -> min <= fst (SeededRandom.range min max seed) <= max.
Proof.
  intros Hmm. unfold SeededRandom.range.
  pose proof (next_unit seed) as Hu.
  destruct (SeededRandom.next seed) as [value seed']. cbn [fst] in *.
  cbn [add sub mul Exact]. nra.
Qed.


Lemma literals_of_params :
  (lit 6 : R) = 6 /\ (lit 0.2 : R) = 2 / 10 /\ (lit 8 : R) = 8 /\
  (lit (-5) : R) = -5 /\ (lit 5 : R) = 5 /\ (lit 0.8 : R) = 8 / 10 /\
  (lit (-1) : R) = -1 /\ (lit 1 : R) = 1 /\ (lit 2 : R) = 2 /\
  (lit 0 : R) = 0.
Proof. cbn. unfold Q2R. cbn. repeat split; lra. Qed.

Lemma clampToMargin_exact (pos : Vec2 R) :
  let c := Generator.clampToMargin Generator.generationParams pos in
  (- (42 / 10) <= vec_x c <= 42 / 10) /\
  (- (42 / 10) <= vec_y c <= 42 / 10) /\
  (11 / 10 <= vec_x pos -> 11 / 10 <= vec_x c) /\
  (vec_x pos <= - (11 / 10) -> vec_x c <= - (11 / 10)) /\
  (11 / 10 <= vec_y pos -> 11 / 10 <= vec_y c) /\
  (vec_y pos <= - (11 / 10) -> vec_y c <= - (11 / 10)).
Proof.
  cbv zeta. unfold Generator.clampToMargin.
  cbn [Generator.bounds Generator.margin Generator.generationParams
       minX maxX minY maxY vec_x vec_y].
  destruct literals_of_params as (_ & _ & _ & -> & -> & -> & _).
  cbn [add sub Math_max Math_min Exact ExactCompare].
  unfold Rmax, Rmin.
  repeat split; intros; repeat (destruct (Rle_dec _ _)); lra.
Qed.

(** X24. [generateStartAndGoal] over the reals, on the parameters of the
    module: whatever the seed and the level, the start and the goal lie in
    the play area at least the margin away from its border, that is in
    [[-4.2, 4.2]] on both axes; and for a level number that is not negative
    they are more than 2 apart, so that the start is never inside the goal
    (whose radius is at most 0.5) and the direction from the one to the
    other is defined. *)
Theorem generateStartAndGoal_placement :
  forall rng levelId : R,
    let startPos := fst (fst (Generator.generateStartAndGoal rng levelId
                                Generator.generationParams)) in
    let goalPos := snd (fst (Generator.generateStartAndGoal rng levelId
                               Generator.generationParams)) in
    (- (42 / 10) <= vec_x startPos <= 42 / 10) /\
    (- (42 / 10) <= vec_y startPos <= 42 / 10) /\
    (- (42 / 10) <= vec_x goalPos <= 42 / 10) /\
    (- (42 / 10) <= vec_y goalPos <= 42 / 10) /\
    (0 <= levelId -> 2 < distance2D startPos goalPos).
Proof.
  intros rng levelId. cbv zeta. unfold Generator.generateStartAndGoal.
  cbv zeta.
  destruct (SeededRandom.range (lit 0) _ rng) as [angle rng1].
  pose proof (@range_within (lit (-1)) (lit 1) rng1) as Hcx.
  destruct (SeededRandom.range (lit (-1)) (lit 1) rng1) as [centerX rng2].
  pose proof (@range_within (lit (-1)) (lit 1) rng2) as Hcy.
  destruct (SeededRandom.range (lit (-1)) (lit 1) rng2) as [centerY rng3].
  cbn [fst snd] in *.
  cbn [Generator.baseDistance Generator.distanceGrowth Generator.maxDistance
       Generator.generationParams].
  destruct literals_of_params as (L6 & L02 & L8 & _ & _ & _ & Lm1 & L1 & L2 & _).
  rewrite L6, L02, L8, L2. rewrite Lm1, L1 in Hcx, Hcy.
  specialize (Hcx ltac:(lra)). specialize (Hcy ltac:(lra)).
  cbn [add sub mul div Math_min Math_cos Math_sin Exact ExactCompare ExactTrig].
  set (halfDist := Rmin (6 + 2 / 10 * levelId) 8 / 2).
  set (startPos := vec2 (centerX - cos angle * halfDist)
                        (centerY - sin angle * halfDist)).
  set (goalPos := vec2 (centerX + cos angle * halfDist)
                       (centerY + sin angle * halfDist)).
  pose proof (clampToMargin_exact startPos) as (Sx & Sy & Sxp & Sxn & Syp & Syn).
  pose proof (clampToMargin_exact goalPos) as (Gx & Gy & Gxp & Gxn & Gyp & Gyn).
  split; [exact Sx|]. split; [exact Sy|]. split; [exact Gx|].
  split; [exact Gy|]. intros Hlevel.
  assert (Hh : 3 <= halfDist).
  { unfold halfDist, Rmin. destruct (Rle_dec _ _); lra. }
  set (s := Generator.clampToMargin Generator.generationParams startPos) in *.
  set (g := Generator.clampToMargin Generator.generationParams goalPos) in *.
  cbn [vec_x vec_y startPos goalPos] in Sxp, Sxn, Syp, Syn, Gxp, Gxn, Gyp, Gyn.
  assert (Hfar : 22 / 10 <= Rabs (vec_x g - vec_x s) \/
                 22 / 10 <= Rabs (vec_y g - vec_y s)).
  { pose proof (sin2_cos2 angle) as Hsc. unfold Rsqr in Hsc.
    set (c := cos angle) in *. set (sn := sin angle) in *.
    assert (Hc : 21 / 10 <= c * halfDist \/ c * halfDist <= - (21 / 10) \/
                 21 / 10 <= sn * halfDist \/ sn * halfDist <= - (21 / 10)).
    { destruct (Rle_dec (21 / 10) (c * halfDist)); [auto|].
      destruct (Rle_dec (c * halfDist) (- (21 / 10))); [auto|].
      destruct (Rle_dec (21 / 10) (sn * halfDist)); [auto|].
      destruct (Rle_dec (sn * halfDist) (- (21 / 10))); [auto|].
      exfalso.
      assert (H1 : (c * halfDist) * (c * halfDist) < 441 / 100) by nra.
      assert (H2 : (sn * halfDist) * (sn * halfDist) < 441 / 100) by nra.
      assert (H3 : halfDist * halfDist
                   = (sn * halfDist) * (sn * halfDist)
                     + (c * halfDist) * (c * halfDist)).
      { transitivity ((sn * sn + c * c) * (halfDist * halfDist));
          [rewrite Hsc; ring | ring]. }
      nra. }
    destruct Hc as [Hc|[Hc|[Hc|Hc]]].
    - left. specialize (Gxp ltac:(lra)). specialize (Sxn ltac:(lra)).
      unfold Rabs. destruct (Rcase_abs _); lra.
    - left. specialize (Sxp ltac:(lra)). specialize (Gxn ltac:(lra)).
      unfold Rabs. destruct (Rcase_abs _); lra.
    - right. specialize (Gyp ltac:(lra)). specialize (Syn ltac:(lra)).
      unfold Rabs. destruct (Rcase_abs _); lra.
    - right. specialize (Syp ltac:(lra)). specialize (Gyn ltac:(lra)).
      unfold Rabs. destruct (Rcase_abs _); lra. }
  unfold distance2D. cbv zeta. cbn [add sub mul Math_sqrt Exact].
  set (dx := vec_x g - vec_x s) in *. set (dy := vec_y g - vec_y s) in *.
  assert (Hsq : 484 / 100 <= dx * dx + dy * dy).
  { destruct Hfar as [Hf|Hf]; unfold Rabs in Hf; destruct (Rcase_abs _); nra. }
  apply Rlt_le_trans with (sqrt (484 / 100)).
  - replace (484 / 100) with ((22 / 10) * (22 / 10)) by field.
    rewrite sqrt_square; lra.
  - apply sqrt_le_1_alt. exact Hsq.
Qed.

End ExactGenerator.

Section GeneratorLoops.

Context {num : Type} `{JSNumber num} `{JSCompare num} `{JSFloor num}
        `{JSPower num} `{JSBitwise num}.

Lemma placedWith_nil (Q : list (Mass num) -> Mass num -> Prop) :
  placedWith Q [].
Proof. intros before m after E. destruct before; discriminate E. Qed.

Lemma placedWith_snoc (Q : list (Mass num) -> Mass num -> Prop)
    (masses : list (Mass num)) (m : Mass num) :
  placedWith Q masses -> Q masses m -> placedWith Q (masses ++ [m]).
Proof.
  intros Hw Hq before m' after E.
  destruct after as [|a after'].
  - apply app_inj_tail in E. destruct E as [-> ->]. exact Hq.
  - assert (E' : masses ++ [m] = (before ++ m' :: removelast (a :: after'))
                                 ++ [last (a :: after') a]).
    { rewrite E, <- app_assoc. cbn [app]. f_equal. f_equal.
      apply app_removelast_last. discriminate. }
    apply app_inj_tail in E'. destruct E' as [E' _].
    exact (Hw _ _ _ E').
Qed.

(** The outer loop of [generateMasses]: if every mass that the inner loop
    returns satisfies [Q] with the masses kept so far, the masses returned
    are placed with [Q]; and a round adds at most one mass. *)
Lemma placeMasses_placedWith (Q : list (Mass num) -> Mass num -> Prop)
    (startPos goalPos : Vec2 num)
    (massCount dist dirX dirY avgStrength : num) :
  (forall n rng masses,
     match fst (Generator.placeMass n rng masses startPos goalPos
                  dist dirX dirY avgStrength) with
     | Some m => Q masses m
     | None => True
     end) ->
  forall (fuel i : nat) (rng : num) (masses : list (Mass num)),
    placedWith Q masses ->
    match Generator.placeMasses fuel i massCount rng masses startPos goalPos
            dist dirX dirY avgStrength with
    | Some (result, _) => placedWith Q result
    | None => True
    end.
Proof.
  intros Hplace fuel.
  induction fuel as [|fuel IH]; intros i rng masses Hw; [exact I|].
  cbn [Generator.placeMasses].
  destruct (ltb _ massCount); [|exact Hw].
  specialize (Hplace 50%nat rng masses).
  destruct (Generator.placeMass 50 rng masses startPos goalPos
              dist dirX dirY avgStrength) as [mass rng1].
  cbn [fst] in Hplace. destruct mass as [m|].
  - apply IH. apply placedWith_snoc; assumption.
  - apply IH. exact Hw.
Qed.

End GeneratorLoops.

Section ExactMasses.

Local Open Scope R_scope.

Lemma distanceTo_distance2D (x y toX toY : R) :
  Generator.distanceTo x y toX toY = distance2D (vec2 x y) (vec2 toX toY).
Proof.
  unfold Generator.distanceTo, distance2D. cbv zeta.
  cbn [vec_x vec_y square add sub mul Math_sqrt Exact ExactPower].
  f_equal. ring.
Qed.

Lemma literals_of_masses :
  (lit 1.0 : R) = 1 /\ (lit 1.5 : R) = 15 / 10 /\ (lit 0.7 : R) = 7 / 10 /\
  (lit 1.3 : R) = 13 / 10 /\ (lit 0.3 : R) = 3 / 10 /\ (lit 0.1 : R) = 1 / 10 /\
  (lit 3.5 : R) = 35 / 10 /\ (lit 6 : R) = 6 /\ (lit 1 : R) = 1.
Proof. cbn. unfold Q2R. cbn. repeat split; lra. Qed.

Lemma Rltb_true (a b : R) : Rltb a b = true <-> a < b.
Proof. unfold Rltb. destruct (Rlt_dec a b); split; auto; discriminate. Qed.

Lemma Rltb_false (a b : R) : Rltb a b = false <-> b <= a.
Proof.
  unfold Rltb. destruct (Rlt_dec a b); split; auto; try discriminate; lra.
Qed.

Lemma vec2_eta (v : Vec2 R) : vec2 (vec_x v) (vec_y v) = v.
Proof. destruct v; reflexivity. Qed.

(** A mass that the inner loop returns was checked. *)
Lemma placeMass_kept (startPos goalPos : Vec2 R)
    (dist dirX dirY avgStrength : R) (n : nat) :
  forall (rng : R) (masses : list (Mass R)),
    match fst (Generator.placeMass n rng masses startPos goalPos
                 dist dirX dirY avgStrength) with
    | Some m => keptMass startPos goalPos avgStrength masses m
    | None => True
    end.
Proof.
  induction n as [|n IH]; intros rng masses; [exact I|].
  cbn [Generator.placeMass].
  destruct (SeededRandom.range (lit 0.2) (lit 0.8) rng) as [t rng1].
  destruct (SeededRandom.range (lit (-2)) (lit 2) rng1) as [perpOffset rng2].
  cbv zeta.
  destruct (_ && _) eqn:Hends; [|apply IH].
  destruct (negb _) eqn:Hclose; [|apply IH].
  destruct literals_of_masses as (L1 & L15 & L07 & L13 & _).
  pose proof (@range_within (lit 0.7) (lit 1.3) rng2) as Hf.
  rewrite L07, L13 in Hf |- *. specialize (Hf ltac:(lra)).
  destruct (SeededRandom.range _ _ rng2) as [factor rng3].
  cbn [fst] in *. apply andb_prop in Hends. destruct Hends as [Hs Hg].
  cbn [ltb Exact] in Hs, Hg. apply Rltb_true in Hs, Hg.
  rewrite L1, distanceTo_distance2D, vec2_eta in Hs, Hg.
  unfold keptMass, massPos. cbn [mass_x mass_y strength].
  split; [exact Hs|]. split; [exact Hg|]. split.
  - apply Forall_forall. intros e He.
    apply negb_true_iff in Hclose. rewrite <- not_true_iff_false in Hclose.
    destruct (Rle_dec (15 / 10)
                (distance2D (vec2 (mass_x e) (mass_y e))
                   (vec2 (vec_x startPos + dirX * dist * t - dirY * perpOffset)
                         (vec_y startPos + dirY * dist * t + dirX * perpOffset))))
      as [Hok|Hbad]; [exact Hok|].
    exfalso. apply Hclose. apply existsb_exists. exists e. split; [exact He|].
    cbn [ltb Exact]. apply Rltb_true. rewrite L15, distanceTo_distance2D.
    cbn [add sub mul Exact].
    replace (distance2D
               (vec2 (vec_x startPos + dirX * dist * t - dirY * perpOffset)
                     (vec_y startPos + dirY * dist * t + dirX * perpOffset))
               (vec2 (mass_x e) (mass_y e)))
      with (distance2D (vec2 (mass_x e) (mass_y e))
              (vec2 (vec_x startPos + dirX * dist * t - dirY * perpOffset)
                    (vec_y startPos + dirY * dist * t + dirX * perpOffset))).
    + lra.
    + unfold distance2D. cbv zeta. cbn [vec_x vec_y add sub mul Math_sqrt Exact].
      f_equal. ring.
  - exists factor. split; [exact Hf | reflexivity].
Qed.

(** The outer loop is over within [k + 1] tests when [massCount] is at most
    [i + k], and adds at most [k] masses. *)
Lemma placeMasses_terminates (startPos goalPos : Vec2 R)
    (massCount dist dirX dirY avgStrength : R) (k : nat) :
  forall (fuel i : nat) (rng : R) (masses : list (Mass R)),
    massCount <= IZR (Z.of_nat (i + k)) -> (k < fuel)%nat ->
    exists result rng',
      Generator.placeMasses fuel i massCount rng masses startPos goalPos
        dist dirX dirY avgStrength = Some (result, rng') /\
      (length result <= length masses + k)%nat.
Proof.
  induction k as [|k IH]; intros fuel i rng masses Hcount Hfuel;
    (destruct fuel as [|fuel]; [lia|]); cbn [Generator.placeMasses];
    rewrite lit_integer; cbn [ltb Exact];
    destruct (Rltb (IZR (Z.of_nat i)) massCount) eqn:Htest;
    try (exists masses, rng; split; [reflexivity | lia]).
  - apply Rltb_true in Htest. rewrite Nat.add_0_r in Hcount. lra.
  - destruct (Generator.placeMass 50 rng masses startPos goalPos
                dist dirX dirY avgStrength) as [mass rng1].
    destruct (IH fuel (S i) rng1
                (match mass with Some m => masses ++ [m] | None => masses end))
      as (result & rng' & -> & Hlen).
    + replace (S i + k)%nat with (i + S k)%nat by lia. exact Hcount.
    + lia.
    + exists result, rng'. split; [reflexivity|].
      destruct mass; [rewrite length_app in Hlen; cbn [length] in Hlen|]; lia.
Qed.


Lemma kept_masses (startPos goalPos : Vec2 R) (avgStrength : R)
    (masses : list (Mass R)) :
  placedWith (keptMass startPos goalPos avgStrength) masses ->
  Forall (fun m => 1 < distance2D (massPos m) startPos /\
                   1 < distance2D (massPos m) goalPos) masses /\
  ForallOrdPairs (fun a b => 15 / 10 <= distance2D (massPos a) (massPos b))
    masses /\
  Forall (fun m => exists factor,
            7 / 10 <= factor <= 13 / 10 /\ strength m = avgStrength * factor)
    masses.
Proof.
  induction masses as [|a rest IH]; intros Hp.
  - repeat split; constructor.
  - assert (Hrest : placedWith (keptMass startPos goalPos avgStrength) rest).
    { intros before m after E.
      destruct (Hp (a :: before) m after) as (Hs & Hg & Hd & Hf).
      { rewrite E. reflexivity. }
      inversion Hd; subst. repeat split; assumption. }
    destruct (IH Hrest) as (I1 & I2 & I3).
    destruct (Hp [] a rest eq_refl) as (Hs & Hg & _ & Hf).
    split; [constructor; auto|]. split; [|constructor; auto].
    constructor; [|exact I2].
    apply Forall_forall. intros m Hm.
    destruct (in_split _ _ Hm) as (before & after & E).
    destruct (Hp (a :: before) m after) as (_ & _ & Hd & _).
    { rewrite E. reflexivity. }
    inversion Hd; subst. assumption.
Qed.

(** [generateMasses] on the parameters of the module runs to its end on
    fuel 7, and keeps checked masses only. *)
Lemma generateMasses_runs (extra : nat) (rng levelId : R)
    (startPos goalPos : Vec2 R) :
  exists (masses : list (Mass R)) (rng' : R),
    Generator.generateMasses (7 + extra) rng levelId startPos goalPos
      Generator.generationParams = Some (masses, rng') /\
    (length masses <= 6)%nat /\
    placedWith
      (keptMass startPos goalPos (Rmin (1 + 1 / 10 * levelId) (35 / 10)))
      masses.
Proof.
  unfold Generator.generateMasses. cbv zeta.
  cbn [Generator.baseMassCount Generator.massCountGrowth Generator.maxMasses
       Generator.baseStrength Generator.strengthGrowth Generator.maxStrength
       Generator.generationParams].
  destruct literals_of_masses as (L10 & _ & _ & _ & L03 & L01 & L35 & L6 & L1).
  rewrite L10, L03, L01, L35, L6, L1.
  cbn [Math_min ExactCompare].
  set (massCount := Rmin _ 6).
  change (Rmin (1 + 1 / 10 * levelId)%num (35 / 10))
    with (Rmin (1 + 1 / 10 * levelId) (35 / 10)).
  set (avgStrength := Rmin _ (35 / 10)).
  set (dist := Math_sqrt _). set (dirX := div _ dist). set (dirY := div _ dist).
  destruct (@placeMasses_terminates startPos goalPos massCount dist dirX dirY
              avgStrength 6 (7 + extra) 0 rng [])
    as (masses & rng' & Hrun & Hlen).
  { change (massCount <= 6). apply Rmin_r. }
  { lia. }
  exists masses, rng'. split; [exact Hrun|]. split; [exact Hlen|].
  pose proof (placeMasses_placedWith
                (Q := keptMass startPos goalPos avgStrength)
                startPos goalPos massCount dist dirX dirY avgStrength
                (placeMass_kept startPos goalPos dist dirX dirY avgStrength)
                (7 + extra) 0 rng (placedWith_nil _)) as Hp.
  rewrite Hrun in Hp. exact Hp.
Qed.

(** X25. [generateMasses] over the reals, on the parameters of the
    module: whatever the seed, the level, the start and the goal, the outer
    loop is over within 7 tests and returns at most 6 masses; every mass is
    more than 1 away from the start and from the goal; any two masses are
    at least 1.5 apart; and for a level number that is not negative every
    strength lies between 0.7 and 4.55. *)
Theorem generateMasses_placement :
  forall (extra : nat) (rng levelId : R) (startPos goalPos : Vec2 R),
  exists (masses : list (Mass R)) (rng' : R),
    Generator.generateMasses (7 + extra) rng levelId startPos goalPos
      Generator.generationParams = Some (masses, rng') /\
    (length masses <= 6)%nat /\
    Forall (fun m => 1 < distance2D (massPos m) startPos /\
                     1 < distance2D (massPos m) goalPos) masses /\
    ForallOrdPairs (fun a b => 15 / 10 <= distance2D (massPos a) (massPos b))
      masses /\
    (0 <= levelId ->
     Forall (fun m => 7 / 10 <= strength m <= 455 / 100) masses).
Proof.
  intros extra rng levelId startPos goalPos.
  destruct (generateMasses_runs extra rng levelId startPos goalPos)
    as (masses & rng' & Hrun & Hlen & Hp).
  exists masses, rng'. split; [exact Hrun|]. split; [exact Hlen|].
  destruct (kept_masses Hp) as (K1 & K2 & K3).
  split; [exact K1|]. split; [exact K2|]. intros Hlevel.
  assert (Havg : 1 <= Rmin (1 + 1 / 10 * levelId) (35 / 10) <= 35 / 10).
  { unfold Rmin. destruct (Rle_dec _ _); lra. }
  eapply Forall_impl; [|exact K3].
  intros m (factor & Hf & ->). cbv beta. nra.
Qed.

End ExactMasses.

(** ** Validation *)

Section Validation.

Context {num : Type} `{JSNumber num} `{JSCompare num} `{JSTrig num}.

(** More fuel changes nothing once the loop is over. *)
Lemma countUp_more (continue : num -> bool) (step : num) (fuel extra : nat) :
  forall (v : num) (values : list num),
    countUp fuel continue step v = Some values ->
    countUp (fuel + extra) continue step v = Some values.
Proof.
  induction fuel as [|fuel IH]; intros v values Hrun; [discriminate Hrun|].
  cbn [countUp Nat.add] in *. destruct (continue v); [|exact Hrun].
  destruct (countUp fuel continue step (add v step)) as [rest|] eqn:E;
    [|discriminate Hrun].
  now rewrite (IH _ _ E).
Qed.

(** The projectile that main.js prepares for a shot: at the start of the
    level, aiming, with the angle and the power of the sliders. *)
Lemma trial_is_preview (level : Level.t num) (angle power : num) :
  Generator.trial level angle power
  = Projectile.previewReachedGoal
      (Projectile.computePreview (Level.masses level)
         (Some (Level.goalPos level)) (Level.goalRadius level)
         (Level.bounds level)
         (Projectile.setAimParameters angle power
            (Projectile.assignAiming
               (Projectile.setStartPosition
                  (vec_x (Level.startPos level)) (vec_y (Level.startPos level))
                  Projectile.constructor)))).
Proof.
  unfold Generator.trial, Projectile.computePreview.
  cbn [Projectile.state Projectile.setAimParameters Projectile.assignAiming
       Projectile.setStartPosition Projectile.pos Projectile.vel].
  cbv zeta. unfold Projectile.previewReachedGoal.
  cbn [Projectile.previewResult].
  destruct (Level.startPos level). reflexivity.
Qed.


End Validation.

(** ** The loops of [validateLevel], in binary64 and over the reals *)

Lemma trials_binary64 (extra : nat) :
  Generator.trialAngles (25 + extra)
  = Some (map lit [0; 15; 30; 45; 60; 75; 90; 105; 120; 135; 150; 165;
                   180; 195; 210; 225; 240; 255; 270; 285; 300; 315; 330;
                   345]%Q : list float) /\
  Generator.trialPowers (10 + extra)
  = Some (map lit [1; 1.5; 2; 2.5; 3; 3.5; 4; 4.5; 5]%Q : list float).
Proof.
  split; apply countUp_more; vm_compute; reflexivity.
Qed.

Section ExactValidation.

Local Open Scope R_scope.

Lemma lessOrEqual_true (a b : R) : lessOrEqual a b = true <-> a <= b.
Proof.
  unfold lessOrEqual. cbn [ltb Exact strictEq ExactCompare].
  unfold Rltb, Reqb. destruct (Rlt_dec a b), (Req_dec_T a b); cbn;
    split; intros; try discriminate; try reflexivity; lra.
Qed.

Lemma lessOrEqual_false (a b : R) : lessOrEqual a b = false <-> b < a.
Proof.
  unfold lessOrEqual. cbn [ltb Exact strictEq ExactCompare].
  unfold Rltb, Reqb. destruct (Rlt_dec a b), (Req_dec_T a b); cbn;
    split; intros; try discriminate; try reflexivity; lra.
Qed.

Lemma literals_of_trials :
  (lit 360 : R) = 360 /\ (lit 15 : R) = 15 /\ (lit 0 : R) = 0 /\
  (lit 5 : R) = 5 /\ (lit 0.5 : R) = 1 / 2 /\ (lit 1 : R) = 1.
Proof. cbn. unfold Q2R. cbn. repeat split; lra. Qed.

Lemma trials_exact (extra : nat) :
  Generator.trialAngles (25 + extra)
  = Some [0; 15; 30; 45; 60; 75; 90; 105; 120; 135; 150; 165;
          180; 195; 210; 225; 240; 255; 270; 285; 300; 315; 330; 345] /\
  Generator.trialPowers (10 + extra)
  = Some [1; 3 / 2; 2; 5 / 2; 3; 7 / 2; 4; 9 / 2; 5].
Proof.
  destruct literals_of_trials as (L360 & L15 & L0 & L5 & L05 & L1).
  split; apply countUp_more.
  - unfold Generator.trialAngles. rewrite L360, L15, L0.
    cbn [countUp ltb add Exact].
    repeat match goal with
           | |- context [Rltb ?a ?b] =>
               first [ rewrite (proj2 (Rltb_true a b)) by lra
                     | rewrite (proj2 (Rltb_false a b)) by lra ]
           end.
    apply f_equal. repeat (apply f_equal2; [lra|]). reflexivity.
  - unfold Generator.trialPowers. rewrite L5, L05, L1.
    cbn [countUp add Exact].
    repeat match goal with
           | |- context [lessOrEqual ?a ?b] =>
               first [ rewrite (proj2 (lessOrEqual_true a b)) by lra
                     | rewrite (proj2 (lessOrEqual_false a b)) by lra ]
           end.
    apply f_equal. repeat (apply f_equal2; [lra|]). reflexivity.
Qed.

End ExactValidation.

(** X26. What [validateLevel] answers, in any arithmetic.  It leaves
    physics.js configured with the masses of the level.  It returns [true]
    exactly when one of the angles and one of the powers it tries gives a
    preview that reaches the goal, for the projectile that main.js
    prepares: placed at the start of the level, aiming, with that angle and
    that power (so that the flight launched from this preview ends with
    [reachedGoal]).  In binary64 and over the reals the two loops are over
    within 25 and 10 tests, and try the 24 angles 0, 15, ..., 345 and the 9
    powers 1, 1.5, ..., 5. *)
Theorem validateLevel_finds_a_shot :
  (forall (num : Type) (number : JSNumber num) (compare : JSCompare num)
          (trig : JSTrig num) (fuel : nat) (level : Level.t num),
     match Generator.validateLevel fuel level with
     | Some (configured, valid) =>
         configured = Level.masses level /\
         exists angles powers,
           Generator.trialAngles fuel = Some angles /\
           Generator.trialPowers fuel = Some powers /\
           (valid = true <->
            exists angle power,
              In angle angles /\ In power powers /\
              Projectile.previewReachedGoal
                (Projectile.computePreview (Level.masses level)
                   (Some (Level.goalPos level)) (Level.goalRadius level)
                   (Level.bounds level)
                   (Projectile.setAimParameters angle power
                      (Projectile.assignAiming
                         (Projectile.setStartPosition
                            (vec_x (Level.startPos level))
                            (vec_y (Level.startPos level))
                            Projectile.constructor))))
              = true)
     | None =>
         Generator.trialAngles fuel = None \/ Generator.trialPowers fuel = None
     end) /\
  (forall extra : nat,
     Generator.trialAngles (25 + extra)
     = Some (map lit [0; 15; 30; 45; 60; 75; 90; 105; 120; 135; 150; 165;
                      180; 195; 210; 225; 240; 255; 270; 285; 300; 315; 330;
                      345]%Q : list float) /\
     Generator.trialPowers (10 + extra)
     = Some (map lit [1; 1.5; 2; 2.5; 3; 3.5; 4; 4.5; 5]%Q : list float)) /\
  (forall extra : nat,
     Generator.trialAngles (25 + extra)
     = Some [0; 15; 30; 45; 60; 75; 90; 105; 120; 135; 150; 165;
             180; 195; 210; 225; 240; 255; 270; 285; 300; 315; 330; 345]%R /\
     Generator.trialPowers (10 + extra)
     = Some [1; 3 / 2; 2; 5 / 2; 3; 7 / 2; 4; 9 / 2; 5]%R).
Proof.
  split; [|split; [exact trials_binary64 | exact trials_exact]].
  intros num number compare trig fuel level. unfold Generator.validateLevel.
  destruct (Generator.trialAngles fuel) as [angles|]; [|left; reflexivity].
  destruct (Generator.trialPowers fuel) as [powers|]; [|right; reflexivity].
  split; [reflexivity|]. exists angles, powers.
  split; [reflexivity|]. split; [reflexivity|]. split.
  - intros Hv. apply existsb_exists in Hv. destruct Hv as (angle & Ha & Hv).
    apply existsb_exists in Hv. destruct Hv as (power & Hp & Hv).
    exists angle, power. rewrite <- trial_is_preview. auto.
  - intros (angle & power & Ha & Hp & Hv). rewrite <- trial_is_preview in Hv.
    apply existsb_exists. exists angle. split; [exact Ha|].
    apply existsb_exists. exists power. auto.
Qed.

(** ** [generateLevel], over the reals *)

Section ExactLevels.

Local Open Scope R_scope.

Lemma validateLevel_runs (extra : nat) (level : Level.t R) :
  exists valid : bool,
    Generator.validateLevel (25 + extra) level
    = Some (Level.masses level, valid).
Proof.
  unfold Generator.validateLevel.
  rewrite (proj1 (trials_exact extra)).
  change (25 + extra)%nat with (10 + (15 + extra))%nat.
  rewrite (proj2 (trials_exact (15 + extra))).
  eexists. reflexivity.
Qed.

(** The rounds of [generateLevel]: they run to their end, and a level they
    find was generated and validated. *)
Lemma tryLevels_result (extra : nat) (actualSeed levelId goalRadius : R)
    (n : nat) :
  forall (attempts : nat) (rng : R) (configured : list (Mass R)),
  exists configured' found,
    Generator.tryLevels (25 + extra) n attempts actualSeed rng levelId
      goalRadius Generator.generationParams configured
    = Some (configured', found) /\
    match found with
    | Some level =>
        exists rng0 rng1 rng2 startPos goalPos masses,
          Generator.generateStartAndGoal rng0 levelId Generator.generationParams
          = ((startPos, goalPos), rng1) /\
          Generator.generateMasses (25 + extra) rng1 levelId startPos goalPos
            Generator.generationParams = Some (masses, rng2) /\
          level = Generator.candidateLevel levelId goalRadius startPos goalPos
                    masses Generator.generationParams /\
          Generator.validateLevel (25 + extra) level
          = Some (Level.masses level, true) /\
          configured' = Level.masses level
    | None => True
    end.
Proof.
  induction n as [|n IH]; intros attempts rng configured.
  - exists configured, None. split; [reflexivity | exact I].
  - cbn [Generator.tryLevels].
    destruct (Generator.generateStartAndGoal rng levelId
                Generator.generationParams) as [[startPos goalPos] rng1] eqn:Esg.
    destruct (generateMasses_runs (18 + extra) rng1 levelId startPos goalPos)
      as (masses & rng2 & Hgen & _).
    change (7 + (18 + extra))%nat with (25 + extra)%nat in Hgen.
    rewrite Hgen.
    destruct (validateLevel_runs extra
                (Generator.candidateLevel levelId goalRadius startPos goalPos
                   masses Generator.generationParams)) as (valid & Hval).
    rewrite Hval. destruct valid.
    + eexists. eexists. split; [reflexivity|].
      exists rng, rng1, rng2, startPos, goalPos, masses. auto.
    + apply IH.
Qed.


Lemma truthy_exact (v : R) : truthy v = true <-> v <> 0.
Proof.
  unfold truthy. cbn [strictEq ExactCompare]. unfold Reqb.
  destruct literals_of_trials as (_ & _ & -> & _).
  destruct (Req_dec_T v 0), (Req_dec_T v v); cbn; split; intros;
    try discriminate; try reflexivity; try contradiction; congruence.
Qed.

Lemma numberOr_exact (v fallback : R) :
  Level.numberOr (Some v) fallback = if Req_dec_T v 0 then fallback else v.
Proof.
  unfold Level.numberOr. destruct (Req_dec_T v 0) as [Hz|Hnz].
  - destruct (truthy v) eqn:E; [|reflexivity].
    apply truthy_exact in E. contradiction.
  - now rewrite (proj2 (truthy_exact v) Hnz).
Qed.

Lemma literals_of_radius :
  (lit 0.5 : R) = 1 / 2 /\ (lit 0.02 : R) = 2 / 100 /\ (lit 0.25 : R) = 1 / 4 /\
  (lit (-5) : R) = -5 /\ (lit 5 : R) = 5 /\ (lit 1 : R) = 1.
Proof. cbn. unfold Q2R. cbn. repeat split; lra. Qed.

(** X27. [generateLevel] over the reals: whatever the level number and
    the seed, the call runs to its end (each loop on a number within 25
    tests) and returns a level with the bounds of the module, the goal
    radius [max(0.5 - 0.02 levelId, 0.25)], the name [`Niveau ${levelId}`]
    and the number [levelId] (1 if [levelId] is zero).  The level is either
    the fallback, or a level built from a start and a goal that
    [generateStartAndGoal] returned and from masses that [generateMasses]
    returned for them, and on which [validateLevel] answered [true]; in
    this second case physics.js is left configured with the masses of the
    level returned. *)
Theorem generateLevel_result :
  forall (extra : nat) (configured : list (Mass R)) (levelId : R)
         (seed : option R),
    let goalRadius := Rmax (1 / 2 - 2 / 100 * levelId) (1 / 4) in
    exists configured' level,
      Generator.generateLevel (25 + extra) configured levelId seed
      = Some (configured', level) /\
      Level.bounds level = mkBounds (-5) 5 (-5) 5 /\
      Level.goalRadius level = goalRadius /\
      Level.name level = Niveau levelId /\
      Level.id level = (if Req_dec_T levelId 0 then 1 else levelId) /\
      (level = Generator.fallbackLevel levelId goalRadius
                 Generator.generationParams \/
       exists rng0 rng1 rng2 startPos goalPos masses,
         Generator.generateStartAndGoal rng0 levelId Generator.generationParams
         = ((startPos, goalPos), rng1) /\
         Generator.generateMasses (25 + extra) rng1 levelId startPos goalPos
           Generator.generationParams = Some (masses, rng2) /\
         level = Generator.candidateLevel levelId goalRadius startPos goalPos
                   masses Generator.generationParams /\
         Generator.validateLevel (25 + extra) level
         = Some (Level.masses level, true) /\
         configured' = Level.masses level).
Proof.
  intros extra configured levelId seed. cbv zeta.
  unfold Generator.generateLevel. cbv zeta.
  cbn [Generator.baseGoalRadius Generator.goalRadiusShrink
       Generator.minGoalRadius Generator.generationParams].
  destruct literals_of_radius as (L05 & L002 & L025 & Lm5 & L5 & L1).
  rewrite L05, L002, L025. cbn [Math_max ExactCompare sub mul Exact].
  set (goalRadius := Rmax (1 / 2 - 2 / 100 * levelId) (1 / 4)).
  assert (Hradius : goalRadius <> 0).
  { pose proof (Rmax_r (1 / 2 - 2 / 100 * levelId) (1 / 4)).
    fold goalRadius in H. lra. }
  set (actualSeed := match seed with Some s => s | None => _ end).
  destruct (tryLevels_result extra actualSeed levelId goalRadius 20 0
              actualSeed configured) as (configured' & found & Hrun & Hfound).
  rewrite Hrun.
  assert (Hfields : forall description startPos goalPos masses,
            let level :=
              Level.constructor
                {| LevelConfig.id := Some levelId;
                   LevelConfig.name := Some (Niveau levelId);
                   LevelConfig.description := Some description;
                   LevelConfig.bounds :=
                     Some (Generator.bounds Generator.generationParams);
                   LevelConfig.startPos := Some startPos;
                   LevelConfig.goalPos := Some goalPos;
                   LevelConfig.goalRadius := Some goalRadius;
                   LevelConfig.masses := Some masses;
                   LevelConfig.difficulty := Some levelId;
                   LevelConfig.maxAttempts := None;
                   LevelConfig.parShots := Some (lit 1) |} in
            Level.bounds level = mkBounds (-5) 5 (-5) 5 /\
            Level.goalRadius level = goalRadius /\
            Level.name level = Niveau levelId /\
            Level.id level = (if Req_dec_T levelId 0 then 1 else levelId)).
  { intros description startPos goalPos masses. cbv zeta.
    unfold Level.constructor. cbv zeta.
    cbn [Level.bounds Level.goalRadius Level.name Level.id LevelConfig.id
         LevelConfig.name LevelConfig.bounds LevelConfig.goalRadius
         Level.objectOr Level.textOr Generator.bounds
         Generator.generationParams].
    rewrite !numberOr_exact, Lm5, L5, L1.
    destruct (Req_dec_T goalRadius 0); [contradiction|]. auto. }
  destruct found as [level|].
  - destruct Hfound as (rng0 & rng1 & rng2 & startPos & goalPos & masses
                        & Hsg & Hgen & -> & Hval & Hconf).
    eexists. eexists. split; [reflexivity|].
    destruct (Hfields (Description levelId (length masses)) startPos goalPos
                masses) as (F1 & F2 & F3 & F4).
    split; [exact F1|]. split; [exact F2|]. split; [exact F3|].
    split; [exact F4|]. right.
    exists rng0, rng1, rng2, startPos, goalPos, masses. auto.
  - eexists. eexists. split; [reflexivity|].
    edestruct Hfields as (F1 & F2 & F3 & F4).
    split; [exact F1|]. split; [exact F2|]. split; [exact F3|].
    split; [exact F4|]. left. reflexivity.
Qed.

End ExactLevels.

(** ** The levels *)

Section LevelDefaults.

Context {num : Type} `{JSNumber num} `{JSCompare num}.

Lemma numberOr_truthy (value : option num) (fallback : num) :
  truthy fallback = true -> truthy (Level.numberOr value fallback) = true.
Proof.
  intros Hf. unfold Level.numberOr. destruct value as [v|]; [|exact Hf].
  destruct (truthy v) eqn:E; [exact E | exact Hf].
Qed.

Lemma numberOr_kept (v fallback : num) :
  truthy v = true -> Level.numberOr (Some v) fallback = v.
Proof. intros Hv. unfold Level.numberOr. now rewrite Hv. Qed.

Lemma constructor_truthy (config : LevelConfig.t num) :
  truthy (lit 1) = true -> truthy (lit 0.4) = true ->
  truthy (Level.id (Level.constructor config)) = true /\
  truthy (Level.goalRadius (Level.constructor config)) = true /\
  truthy (Level.difficulty (Level.constructor config)) = true /\
  truthy (Level.parShots (Level.constructor config)) = true.
Proof.
  intros H1 H04. unfold Level.constructor. cbv zeta.
  cbn [Level.id Level.goalRadius Level.difficulty Level.parShots].
  repeat split; apply numberOr_truthy; assumption.
Qed.

End LevelDefaults.

(** X28. The [Level] constructor replaces what is falsy.  In binary64 and
    over the reals, whatever the [config], the [id], the [goalRadius], the
    [difficulty] and the [parShots] of the level are truthy, that is not
    zero and not NaN: a [goalRadius] of 0 becomes 0.4 and an [id] of 0
    becomes 1, as an absent one does; a truthy number is kept; and an empty
    [config] gives level 1, named [`Niveau 1`], in the area [-5, 5] on both
    axes, from (-3, -3) to (3, 3) with radius 0.4, without masses. *)
Theorem level_constructor_defaults :
  (forall config : LevelConfig.t float,
     let level := Level.constructor config in
     truthy (Level.id level) = true /\
     truthy (Level.goalRadius level) = true /\
     truthy (Level.difficulty level) = true /\
     truthy (Level.parShots level) = true) /\
  (forall config : LevelConfig.t R,
     let level := Level.constructor config in
     Level.id level <> 0%R /\ Level.goalRadius level <> 0%R /\
     Level.difficulty level <> 0%R /\ Level.parShots level <> 0%R) /\
  (forall (num : Type) (number : JSNumber num) (compare : JSCompare num)
          (config : LevelConfig.t num) (radius : num),
     LevelConfig.goalRadius config = Some radius ->
     Level.goalRadius (Level.constructor config)
     = if truthy radius then radius else lit 0.4) /\
  (forall (num : Type) (number : JSNumber num) (compare : JSCompare num),
     Level.constructor
       (LevelConfig.mk None None None None None None None None None None None)
     = Level.mk (lit 1) (Niveau (lit 1)) (Literal String.EmptyString)
         (mkBounds (lit (-5)) (lit 5) (lit (-5)) (lit 5))
         (vec2 (lit (-3)) (lit (-3))) (vec2 (lit 3) (lit 3)) (lit 0.4) []
         (lit 1) Infinity (lit 1)).
Proof.
  split; [|split; [|split]].
  - intros config. cbv zeta.
    apply constructor_truthy; vm_compute; reflexivity.
  - intros config. cbv zeta.
    destruct (@constructor_truthy R _ _ config) as (T1 & T2 & T3 & T4).
    + apply truthy_exact. cbn. unfold Q2R. cbn. lra.
    + apply truthy_exact. cbn. unfold Q2R. cbn. lra.
    + rewrite truthy_exact in T1, T2, T3, T4. auto.
  - intros num number compare config radius Hr. unfold Level.constructor.
    cbv zeta. cbn [Level.goalRadius]. rewrite Hr. reflexivity.
  - intros num number compare. reflexivity.
Qed.

(** ** Looking a level up *)

Section ExactLookup.

Local Open Scope R_scope.

Lemma literals_of_ids :
  (lit 1 : R) = 1 /\ (lit 2 : R) = 2 /\ (lit 3 : R) = 3 /\ (lit 4 : R) = 4 /\
  (lit 5 : R) = 5.
Proof. cbn. unfold Q2R. cbn. repeat split; lra. Qed.

Lemma predefined_ids :
  map Level.id (Level.predefinedLevels (num := R)) = [1; 2; 3; 4; 5].
Proof.
  destruct literals_of_ids as (L1 & L2 & L3 & L4 & L5).
  unfold Level.predefinedLevels, Level.level1, Level.level2, Level.level3,
    Level.level4, Level.level5, Level.constructor.
  cbv zeta. cbn [map Level.id LevelConfig.id].
  rewrite !numberOr_exact, L1, L2, L3, L4, L5.
  repeat match goal with
         | |- context [Req_dec_T ?a 0] =>
             destruct (Req_dec_T a 0); [exfalso; lra|]
         end.
  reflexivity.
Qed.

End ExactLookup.

(** X29. [getLevelById].  In any arithmetic a level that is returned is
    one of the predefined levels and its [id] is strictly equal to the one
    asked for.  Over the reals the five levels have the numbers 1 to 5,
    [getLevelById(k)] is level [k] for these, and [null] is returned
    exactly for any other number.  In binary64 likewise for 1 to 5, and
    the masses of the five levels are the configurations of
    [predefinedMasses]. *)
Theorem getLevelById_finds_the_level :
  (forall (num : Type) (number : JSNumber num) (compare : JSCompare num)
          (wanted : num) (level : Level.t num),
     Level.getLevelById wanted = Some level ->
     In level Level.predefinedLevels /\
     strictEq (Level.id level) wanted = true) /\
  (forall wanted : R,
     match Level.getLevelById wanted with
     | Some level => Level.id level = wanted /\ In wanted [1; 2; 3; 4; 5]%R
     | None => ~ In wanted [1; 2; 3; 4; 5]%R
     end) /\
  map Level.getLevelById [1; 2; 3; 4; 5]%R
  = map Some Level.predefinedLevels /\
  map Level.getLevelById [1; 2; 3; 4; 5]%float
  = map Some Level.predefinedLevels /\
  map Level.masses (Level.predefinedLevels (num := float)) = predefinedMasses.
Proof.
  split; [|split; [|split; [|split]]].
  - intros num number compare wanted level Hfind.
    unfold Level.getLevelById in Hfind. apply find_some in Hfind. exact Hfind.
  - intros wanted. pose proof predefined_ids as Hids.
    destruct (Level.getLevelById wanted) as [level|] eqn:Hfind.
    + unfold Level.getLevelById in Hfind. apply find_some in Hfind.
      destruct Hfind as [Hin Heq]. apply strictEq_Req in Heq.
      split; [exact Heq|]. rewrite <- Hids, <- Heq. now apply in_map.
    + intros Hin. rewrite <- Hids in Hin. apply in_map_iff in Hin.
      destruct Hin as (level & Hid & Hin).
      unfold Level.getLevelById in Hfind.
      pose proof (find_none _ _ Hfind level Hin) as Hno. cbv beta in Hno.
      rewrite <- not_true_iff_false in Hno. apply Hno.
      apply strictEq_Req. exact Hid.
  - pose proof predefined_ids as Hids.
    unfold Level.predefinedLevels in Hids. cbn [map] in Hids.
    assert (I1 : Level.id (Level.level1 (num := R)) = 1%R)
      by (injection Hids; intros; assumption).
    assert (I2 : Level.id (Level.level2 (num := R)) = 2%R)
      by (injection Hids; intros; assumption).
    assert (I3 : Level.id (Level.level3 (num := R)) = 3%R)
      by (injection Hids; intros; assumption).
    assert (I4 : Level.id (Level.level4 (num := R)) = 4%R)
      by (injection Hids; intros; assumption).
    assert (I5 : Level.id (Level.level5 (num := R)) = 5%R)
      by (injection Hids; intros; assumption).
    clear Hids.
    unfold Level.getLevelById, Level.predefinedLevels. cbn [map find].
    rewrite I1, I2, I3, I4, I5. cbn [strictEq ExactCompare]. unfold Reqb.
    repeat match goal with
           | |- context [Req_dec_T ?a ?b] =>
               destruct (Req_dec_T a b); [try (exfalso; lra) | try (exfalso; lra)]
           end.
    reflexivity.
  - vm_compute. reflexivity.
  - vm_compute. reflexivity.
Qed.

(** ** The random numbers *)

(** X30. [SeededRandom.next].  In binary64, whatever the seed (a
    fraction, a negative number, an infinity, NaN), the seed left is an
    integer from 0 to [2^31 - 1], and the value returned is that integer
    divided by [2^31 - 1].  Over the reals likewise, so that the value lies
    in [[0, 1]] and [range(min, max)] in [[min, max]] when [min <= max]. *)
Theorem next_keeps_31_bits :
  (forall seed : float,
     exists n : Z,
       (0 <= n <= 2147483647)%Z /\
       SeededRandom.next seed
       = (PrimFloat.div (float_of_Z n) (float_of_Z 2147483647), float_of_Z n)) /\
  (forall seed : R,
     exists n : Z,
       (0 <= n <= 2147483647)%Z /\
       SeededRandom.next seed = (IZR n / 2147483647, IZR n)%R /\
       (0 <= fst (SeededRandom.next seed) <= 1)%R) /\
  (forall min max seed : R,
     (min <= max)%R ->
     (min <= fst (SeededRandom.range min max seed) <= max)%R).
Proof.
  split; [|split].
  - intros seed. unfold SeededRandom.next. cbv zeta.
    cbn [bitand Binary64Bitwise]. unfold float_bitand.
    replace (wrap32 (float_truncate (lit 2147483647)))
      with 2147483647%Z by (vm_compute; reflexivity).
    eexists. split; [apply land_31_bits|].
    cbn [div Binary64]. f_equal.
  - intros seed. destruct (next_exact seed) as (n & Hn & Hnext).
    exists n. split; [exact Hn|]. split; [exact Hnext|]. apply next_unit.
  - intros min max seed. apply range_within.
Qed.

(** In binary64 the value can be 1 itself, and then [range(min, max)] is
    [max]. *)
Example next_can_be_one :
  SeededRandom.next 1.9460277614923212%float = (1%float, 2147483647%float).
Proof. vm_compute. reflexivity. Qed.
